(** * MarkovModel/IdealObserver.py: a shallow embedding and its properties

    The wrapper around the ideal-observer inference engines is embedded
    function by function.  Python dictionaries that are only looked up or
    written by key are finite maps; dictionaries that are iterated are
    association lists in insertion order.  Fallible code lives in an error
    monad whose errors are the Python exceptions the source can raise.
    numpy's float64 is idealised as the reals extended with the two
    infinities and NaN: no rounding, no overflow of a finite result, no
    signed zero.  Properties that would depend on the exact value of a
    rounded sum or on an overflow are not stated. *)

From Stdlib Require Import Reals Lra Lia ZArith List String Ascii Epsilon Factorial.
From stdpp Require Import base option list gmap strings.

(** ** Exceptions and the error monad *)

Inductive pykey : Type :=
| KStr (s : string)
| KTup (t : list Z)
| KInt (n : Z).

Inductive exn : Type :=
| AttributeError (msg : string)
| ValueError (msg : string)
| KeyError (key : pykey)
| IndexError
| TypeError
| AssertionError
| UnboundLocalError (name : string).

Inductive result (A : Type) : Type :=
| Ok (a : A)
| Raise (e : exn).

Arguments Ok {A} a.
Arguments Raise {A} e.

Definition bind {A B : Type} (m : result A) (k : A -> result B) : result B :=
  match m with
  | Ok a => k a
  | Raise e => Raise e
  end.

Notation "x <- m ;; k" := (bind m (fun x => k))
  (at level 100, m at next level, right associativity).

(** [for_each l body s]: the loop [for a in l: body], threading the state. *)
Fixpoint for_each {A S : Type} (l : list A) (body : A -> S -> result S) (s : S)
  : result S :=
  match l with
  | [] => Ok s
  | a :: l' => s' <- body a s ;; for_each l' body s'
  end.

(** Python's [range(lo, hi)]. *)
Definition range (lo hi : nat) : list nat := seq lo (hi - lo).

(** Python's [range(n)] for an integer [n]. *)
Definition zrange (n : Z) : list Z := map Z.of_nat (seq 0 (Z.to_nat n)).

(** Subscription [l[i]] of a sequence with a non-negative index. *)
Definition index {A : Type} (l : list A) (i : nat) : result A :=
  match l !! i with
  | Some a => Ok a
  | None => Raise IndexError
  end.

(** The slice [l[lo:hi]] for [0 <= lo <= hi]. *)
Definition slice {A : Type} (l : list A) (lo hi : nat) : list A :=
  take (hi - lo) (drop lo l).

(** ** Floating-point numbers, idealised *)

Inductive float64 : Type :=
| NaN
| Inf (pos : bool)
| Fin (x : R).

Definition Rpos (x : R) : bool := if Rlt_dec 0 x then true else false.
Definition Rneg (x : R) : bool := if Rlt_dec x 0 then true else false.
Definition Rzero (x : R) : bool := if Req_dec_T x 0 then true else false.

Definition fneg (a : float64) : float64 :=
  match a with
  | NaN => NaN
  | Inf s => Inf (negb s)
  | Fin x => Fin (- x)
  end.

Definition fadd (a b : float64) : float64 :=
  match a, b with
  | NaN, _ | _, NaN => NaN
  | Inf s, Inf s' => if Bool.eqb s s' then Inf s else NaN
  | Inf s, Fin _ | Fin _, Inf s => Inf s
  | Fin x, Fin y => Fin (x + y)
  end.

Definition fsub (a b : float64) : float64 := fadd a (fneg b).

Definition fmul (a b : float64) : float64 :=
  match a, b with
  | NaN, _ | _, NaN => NaN
  | Inf s, Inf s' => Inf (Bool.eqb s s')
  | Inf s, Fin y | Fin y, Inf s =>
      if Rzero y then NaN else Inf (if Rpos y then s else negb s)
  | Fin x, Fin y => Fin (x * y)
  end.

Definition fdiv (a b : float64) : float64 :=
  match a, b with
  | NaN, _ | _, NaN => NaN
  | Inf _, Inf _ => NaN
  | Inf s, Fin y => Inf (if Rneg y then negb s else s)
  | Fin _, Inf _ => Fin 0
  | Fin x, Fin y =>
      if Rzero y then (if Rzero x then NaN else Inf (Rpos x)) else Fin (x / y)
  end.

Definition fsqrt (a : float64) : float64 :=
  match a with
  | NaN => NaN
  | Inf s => if s then Inf true else NaN
  | Fin x => if Rneg x then NaN else Fin (sqrt x)
  end.

(** [np.log]. *)
Definition flog (a : float64) : float64 :=
  match a with
  | NaN => NaN
  | Inf s => if s then Inf true else NaN
  | Fin x => if Rpos x then Fin (ln x) else if Rzero x then Inf false else NaN
  end.

(** [np.log2]. *)
Definition flog2 (a : float64) : float64 :=
  match a with
  | NaN => NaN
  | Inf s => if s then Inf true else NaN
  | Fin x =>
      if Rpos x then Fin (ln x / ln 2) else if Rzero x then Inf false else NaN
  end.

(** The comparison [a > 0]. *)
Definition fpos (a : float64) : bool :=
  match a with
  | NaN => false
  | Inf s => s
  | Fin x => Rpos x
  end.

(** [a >= 0], the order the surprise bound is stated in. *)
Definition fnonneg (a : float64) : Prop :=
  match a with
  | NaN => False
  | Inf s => s = true
  | Fin x => (0 <= x)%R
  end.

(** [.sum()] of a one-dimensional array. *)
Definition fsum (l : list float64) : float64 := fold_left fadd l (Fin 0).

Definition np_ones (n : nat) : list float64 := replicate n (Fin 1).

(** [c * a] for a scalar [c] and an array [a]. *)
Definition scale (c : float64) (a : list float64) : list float64 :=
  map (fmul c) a.

(** Element-wise binary operation with numpy's broadcasting of one-dimensional
    arrays: equal lengths, or one operand of length one. *)
Definition broadcast2 (f : float64 -> float64 -> float64)
    (a b : list float64) : result (list float64) :=
  if Nat.eqb (length a) (length b) then Ok (zip_with f a b)
  else match a, b with
       | [x], _ => Ok (map (f x) b)
       | _, [y] => Ok (map (fun x => f x y) a)
       | _, _ => Raise (ValueError "operands could not be broadcast together")
       end.

(** [np.dot] of two one-dimensional arrays. *)
Definition np_dot (a b : list float64) : result float64 :=
  if Nat.eqb (length a) (length b) then Ok (fsum (zip_with fmul a b))
  else Raise (ValueError "shapes not aligned").

(** ** The special functions of scipy.special, on the positive reals *)

Definition lim_seq (u : nat -> R) : R :=
  epsilon (inhabits 0%R) (fun l => Un_cv u l).

(** Euler's limit for the logarithm of the Gamma function:
    ln Gamma(x) = lim (ln n! + x ln n - sum_{k=0..n} ln (x + k)). *)
Definition gammaln_seq (x : R) (n : nat) : R :=
  (ln (INR (fact n)) + x * ln (INR n)
   - sum_f_R0 (fun k => ln (x + INR k)) n)%R.

Definition gammaln (x : R) : R := lim_seq (gammaln_seq x).

Definition euler_gamma : R :=
  lim_seq (fun n => (sum_f_R0 (fun k => / INR (S k)) n - ln (INR (S n)))%R).

(** The digamma function by its series:
    psi(x) = - gamma + sum_{k>=0} (1/(k+1) - 1/(k+x)). *)
Definition psi_seq (x : R) (n : nat) : R :=
  sum_f_R0 (fun k => (/ INR (S k) - / (x + INR k))%R) n.

Definition psi (x : R) : R := (- euler_gamma + lim_seq (psi_seq x))%R.

(** [special.gammaln] and [special.psi] on floats.  Every call site is behind
    a positivity check of its argument (the assertion of [KL_dirichlet], the
    parameter check of [dirichlet.entropy]); outside the positive reals the
    library's poles and reflections are not modelled and the result is NaN. *)
Definition np_gammaln (a : float64) : float64 :=
  match a with
  | NaN => NaN
  | Inf s => if s then Inf true else NaN
  | Fin x => if Rpos x then Fin (gammaln x) else NaN
  end.

Definition np_psi (a : float64) : float64 :=
  match a with
  | NaN => NaN
  | Inf s => if s then Inf true else NaN
  | Fin x => if Rpos x then Fin (psi x) else NaN
  end.

(** ** The data model *)

(** A two-dimensional array, as the list of its rows. *)
Abbreviation matrix := (list (list float64)).

(** The values stored in the options and under the string keys of the output
    dictionary. *)
Inductive pyval : Type :=
| PyNone
| PyInt (n : Z)
| PyFloat (x : float64)
| PyArr (a : list float64)
| PyMat (m : matrix)
| PyCount (c : gmap (list Z) (list float64))
| PyPrior (p : gmap (list Z) float64)
| PyAlphas (a : list (list Z * matrix)).

(** The dictionary stored under a pattern key of the output: [mean] and [SD]
    always, [MAP] for the fixed observer, [dist] for the HMM observers. *)
Record posterior : Type := {
  mean : list float64;
  SD : list float64;
  MAP : option (list float64);
  dist : option matrix
}.

(** The output dictionary [out].  Its keys are tuples of integers (patterns)
    and strings; the two kinds never collide, so the dictionary is the pair
    of the map on tuples and the map on strings. *)
Record output : Type := {
  post : gmap (list Z) posterior;
  named : gmap string pyval
}.

Definition empty_output : output := {| post := ∅; named := ∅ |}.

(** [out[k]] for a string [k], and [out[k] = v]. *)
Definition get_named (out : output) (k : string) : result pyval :=
  match named out !! k with
  | Some v => Ok v
  | None => Raise (KeyError (KStr k))
  end.

Definition set_named (k : string) (v : pyval) (out : output) : output :=
  {| post := post out; named := <[k := v]> (named out) |}.

(** [out[p]] for a tuple [p], and [out[p] = r]. *)
Definition get_post (out : output) (p : list Z) : result posterior :=
  match post out !! p with
  | Some r => Ok r
  | None => Raise (KeyError (KTup p))
  end.

Definition set_post (p : list Z) (r : posterior) (out : output) : output :=
  {| post := <[p := r]> (post out); named := named out |}.

Definition as_array (v : pyval) : result (list float64) :=
  match v with
  | PyArr a => Ok a
  | _ => Raise TypeError
  end.

(** [out[k][t] = v] for an array stored under the string [k]. *)
Definition set_item (out : output) (k : string) (t : nat) (v : float64)
  : result output :=
  a <- get_named out k ;;
  a <- as_array a ;;
  if t <? length a then Ok (set_named k (PyArr (<[t := v]> a)) out)
  else Raise IndexError.

(** [d[k]] for a dictionary of the options. *)
Definition subscript (options : gmap string pyval) (k : string) : result pyval :=
  match options !! k with
  | Some v => Ok v
  | None => Raise (KeyError (KStr k))
  end.

(** [prior[item]]. *)
Definition subscript_prior (prior : pyval) (item : list Z) : result float64 :=
  match prior with
  | PyPrior p =>
      match p !! item with
      | Some x => Ok x
      | None => Raise (KeyError (KTup item))
      end
  | _ => Raise TypeError
  end.

(** [count[item]]. *)
Definition subscript_count (count : pyval) (item : list Z)
  : result (list float64) :=
  match count with
  | PyCount c =>
      match c !! item with
      | Some a => Ok a
      | None => Raise (KeyError (KTup item))
      end
  | _ => Raise TypeError
  end.

(** [len(v)]. *)
Definition py_len (v : pyval) : result nat :=
  match v with
  | PyArr a => Ok (length a)
  | PyMat m => Ok (length m)
  | PyCount c => Ok (size c)
  | PyPrior p => Ok (size p)
  | PyAlphas a => Ok (length a)
  | _ => Raise TypeError
  end.

(** [str.isascii]: every character is below 128. *)
Fixpoint isascii (s : string) : bool :=
  match s with
  | EmptyString => true
  | String c s' => (N_of_ascii c <? 128)%N && isascii s'
  end.

(** [str.lower] on the strings for which [isascii] holds: the letters A-Z are
    mapped to a-z.  The other characters are left as they are, so that on a
    string with a cased letter outside ASCII the model keeps what Python
    changes. *)
Definition lower_ascii (c : ascii) : ascii :=
  let n := N_of_ascii c in
  if ((65 <=? n) && (n <=? 90))%N then ascii_of_N (n + 32) else c.

Fixpoint lower (s : string) : string :=
  match s with
  | EmptyString => EmptyString
  | String c s' => String (lower_ascii c) (lower s')
  end.

(** ** The collaborators

    The five inference modules the wrapper imports, and the three functions
    of [scipy.stats.dirichlet] it calls, are outside the embedded file: they
    are the fields of an interface, and every property below holds for every
    implementation of it. *)

Record fixed_posterior : Type := {
  fp_mean : list (list Z * list float64);
  fp_MAP : gmap (list Z) (list float64);
  fp_SD : gmap (list Z) (list float64)
}.

Record volatility_posterior : Type := {
  marg_theta : list (list Z * matrix);
  post_nu : pyval
}.

Class Collaborators : Type := {
  (* Inference_NoChangePoint *)
  io_fixed_count_tuple :
    list Z -> nat -> Z -> pyval -> pyval -> result (gmap (list Z) (list float64));
  io_fixed_posterior_no_jump :
    gmap (list Z) (list float64) -> pyval -> Z -> nat -> result fixed_posterior;
  io_fixed_symetric_prior : pyval -> pyval -> pyval -> result pyval;
  (* Inference_ChangePoint *)
  io_hmm_compute_inference :
    list Z -> pyval -> nat -> Z -> pyval -> result (list (list Z * matrix));
  (* Inference_UncoupledChangePoint *)
  io_hmm_unc_convert_to_order0 :
    list Z -> Z -> nat -> result (list (list Z * list Z));
  io_hmm_unc_compute_inference :
    list Z -> pyval -> Z -> pyval -> result (list (list Z * matrix));
  (* inference_volatility, inference_uncoupled_volatility *)
  io_hmm_vol_posterior_prediction :
    list Z -> nat -> Z -> pyval -> pyval -> pyval -> result volatility_posterior;
  io_hmm_uncoupled_vol_posterior_prediction :
    list Z -> nat -> Z -> pyval -> pyval -> pyval -> result volatility_posterior;
  (* scipy.stats.dirichlet *)
  dirichlet_mean : list float64 -> result (list float64);
  dirichlet_var : list float64 -> result (list float64);
  dirichlet_entropy : list float64 -> result float64
}.

(** ** Association lists: dictionaries that the source iterates *)

Fixpoint alist_get {V : Type} (k : list Z) (d : list (list Z * V)) : option V :=
  match d with
  | [] => None
  | (k', v) :: d' => if decide (k = k') then Some v else alist_get k d'
  end.

(** [d[k] = v]: in place when the key is there, appended otherwise. *)
Fixpoint alist_set {V : Type} (k : list Z) (v : V) (d : list (list Z * V))
  : list (list Z * V) :=
  match d with
  | [] => [(k, v)]
  | (k', v') :: d' =>
      if decide (k = k') then (k, v) :: d' else (k', v') :: alist_set k v d'
  end.

(** [enumerate]. *)
Definition enumerate {A : Type} (l : list A) : list (nat * A) :=
  zip (seq 0 (length l)) l.

(** [itertools.product(items, repeat=k)], in its lexicographic order. *)
Fixpoint product_repeat (items : list Z) (k : nat) : list (list Z) :=
  match k with
  | 0 => [[]]
  | S k' =>
      flat_map (fun x => map (cons x) (product_repeat items k')) items
  end.

(** ** Two-dimensional arrays *)

(** [np.nan * np.ones((rows, cols))]. *)
Definition nan_matrix (rows cols : nat) : matrix :=
  replicate rows (scale NaN (np_ones cols)).

(** [m[i, j] = v]. *)
Definition set2 (m : matrix) (i j : nat) (v : float64) : result matrix :=
  match m !! i with
  | Some row =>
      if j <? length row then Ok (<[i := <[j := v]> row]> m)
      else Raise IndexError
  | None => Raise IndexError
  end.

(** [m[:, s] = col], the column broadcast from length one if need be. *)
Definition set_column (m : matrix) (s : nat) (col : list float64)
  : result matrix :=
  if length col =? length m then
    Ok (zip_with (fun row v => <[s := v]> row) m col)
  else match col with
       | [v] => Ok (map (fun row => <[s := v]> row) m)
       | _ => Raise (ValueError "could not broadcast input array")
       end.

(** [m.sum(axis=0)] for a matrix of [cols] columns. *)
Definition sum_axis0 (m : matrix) (cols : nat) : list float64 :=
  map (fun j => fsum (map (fun row => default NaN (row !! j)) m)) (seq 0 cols).

(** [m.transpose()], for a matrix with at least one row. *)
Definition transpose (m : matrix) : matrix :=
  map (fun j => map (fun row => default NaN (row !! j)) m)
      (seq 0 (length (default [] (m !! 0)))).

(** [np.linspace(0, 1, resol)]. *)
Definition linspace01 (resol : pyval) : result (list float64) :=
  match resol with
  | PyInt n =>
      if (n <? 0)%Z then Raise (ValueError "Number of samples must be non-negative")
      else
        let div := Z.to_nat n - 1 in
        let step := if 0 <? div then fdiv (Fin 1) (Fin (INR div)) else Fin 1 in
        Ok (map (fun i => fmul (Fin (INR i)) step) (seq 0 (Z.to_nat n)))
  | _ => Raise TypeError
  end.

(** ** The functions of IdealObserver.py *)

(** What [parse_options] returns, by the key it is called with. *)
Inductive parsed : Type :=
| FixedType (Decay Window : pyval)
| HmmParam (resol p_c : pyval)
| HmmFull (resol grid_nu prior_nu : pyval)
| FixedPrior (prior : pyval)
| ParsedNone.

Definition dquote (s : string) : string :=
  String "034"%char (s ++ String "034"%char EmptyString).

Definition missing_p_c : string :=
  "options should contain a key " ++ dquote "p_c".

Definition check_options (options : option (list (string * pyval)))
  : result (gmap string pyval) :=
  match options with
  | None => Raise (AttributeError "'NoneType' object has no attribute 'keys'")
  | Some items =>
      for_each items
        (fun '(item, v) checked_options => Ok (<[lower item := v]> checked_options))
        ∅
  end.

(** [np.ones(n)/n]. *)
Definition uniform (n : nat) : list float64 :=
  map (fun x => fdiv x (Fin (INR n))) (np_ones n).

(** [1/2 ** np.array([k/2 for k in range(20)])]. *)
Definition default_grid_nu : list float64 :=
  map (fun k => fdiv (Fin 1) (Fin (Rpower 2 (INR k / 2)))) (seq 0 20).

(** [if Nitem is None: Nitem = len(set(seq))]. *)
Definition infer_Nitem (sq : list Z) (Nitem : option Z) : Z :=
  match Nitem with
  | None => Z.of_nat (length (nodup Z.eq_dec sq))
  | Some n => n
  end.

Section Wrapper.
Context {collab : Collaborators}.

Definition parse_options (options : gmap string pyval) (key : string)
  : result parsed :=
  if String.eqb key "fixed_type" then
    match options !! "decay" with
    | Some d => Ok (FixedType d PyNone)
    | None =>
        match options !! "window" with
        | Some w => Ok (FixedType PyNone w)
        | None => Ok (FixedType PyNone PyNone)
        end
    end
  else if String.eqb key "hmm_param" then
    let resol := match options !! "resol" with Some r => r | None => PyInt 10 end in
    match options !! "p_c" with
    | Some p_c => Ok (HmmParam resol p_c)
    | None => Raise (ValueError missing_p_c)
    end
  else if String.eqb key "hmm+full" then
    let resol := match options !! "resol" with Some r => r | None => PyInt 10 end in
    match options !! "grid_nu" with
    | Some grid_nu =>
        match options !! "prior_nu" with
        | Some prior_nu => Ok (HmmFull resol grid_nu prior_nu)
        | None =>
            n <- py_len grid_nu ;;
            Ok (HmmFull resol grid_nu (PyArr (uniform n)))
        end
    | None =>
        Ok (HmmFull resol (PyArr default_grid_nu)
              (PyArr (uniform (length default_grid_nu))))
    end
  else if String.eqb key "fixed_prior" then
    match options !! "prior_weight" with
    | Some w =>
        o <- subscript options "order" ;;
        n <- subscript options "Nitem" ;;
        prior <- io_fixed_symetric_prior o n w ;;
        Ok (FixedPrior prior)
    | None =>
        match options !! "custom_prior" with
        | Some prior => Ok (FixedPrior prior)
        | None =>
            o <- subscript options "order" ;;
            n <- subscript options "Nitem" ;;
            prior <- io_fixed_symetric_prior o n (PyInt 1) ;;
            Ok (FixedPrior prior)
        end
    end
  else Ok ParsedNone.

(** [dist.transpose().dot(pgrid)]. *)
Definition compute_mean_of_dist (dist : matrix) (pgrid : list float64)
  : result (list float64) :=
  if negb (length dist =? length pgrid) then Raise (ValueError "shapes not aligned")
  else
    for_each (transpose dist)
      (fun row acc => x <- np_dot row pgrid ;; Ok (acc ++ [x])) [].

Definition compute_sd_of_dist (dist : matrix) (pgrid : list float64) (Nitem : Z)
  : result (list float64) :=
  m <- compute_mean_of_dist dist pgrid ;;
  m2 <- compute_mean_of_dist dist (map (fun x => fmul x x) pgrid) ;;
  v <- broadcast2 fsub m2 (map (fun x => fmul x x) m) ;;
  Ok (map fsqrt v).

Definition compute_surprise (sq : list Z) (out : output) (order : nat)
  : result (list float64) :=
  let surprise := scale NaN (np_ones (length sq)) in
  let patterns : gset (list Z) := dom (post out) in
  if order =? 0 then
    for_each (range 1 (length sq))
      (fun t surprise =>
         st <- index sq t ;;
         if decide ([st] ∈ patterns) then
           r <- get_post out [st] ;;
           m <- index (mean r) (t - 1) ;;
           Ok (<[t := fneg (flog2 m)]> surprise)
         else Ok surprise)
      surprise
  else
    for_each (range order (length sq))
      (fun t surprise =>
         if decide (slice sq (t - order) (t + 1) ∈ patterns) then
           r <- get_post out (slice sq (t - order) (t + 1)) ;;
           m <- index (mean r) (t - 1) ;;
           Ok (<[t := fneg (flog2 m)]> surprise)
         else Ok surprise)
      surprise.

Definition compute_alpha (sq : list Z) (out : output) (order : nat)
    (prior : pyval) (Nitem : option Z) : result (list (list Z * matrix)) :=
  let Nitem := infer_Nitem sq Nitem in
  let priors := product_repeat (zrange Nitem) order in
  alphas <- for_each priors
    (fun p alphas =>
       if (Nitem <? 0)%Z then Raise (ValueError "negative dimensions are not allowed")
       else Ok (alist_set p (nan_matrix (length sq) (Z.to_nat Nitem)) alphas))
    [] ;;
  for_each (flat_map (fun p => map (pair p) (zrange Nitem)) priors)
    (fun '(p, s) alphas =>
       let item := p ++ [s] in
       count <- get_named out "count" ;;
       c <- subscript_count count item ;;
       pr <- subscript_prior prior item ;;
       match alist_get p alphas with
       | Some a =>
           a' <- set_column a (Z.to_nat s) (map (fun x => fadd x pr) c) ;;
           Ok (alist_set p a' alphas)
       | None => Raise (KeyError (KTup p))
       end)
    alphas.

Definition KL_dirichlet (alpha beta : list float64) : result float64 :=
  (* assert alpha.ndim == 1: a row is one-dimensional *)
  if negb (length alpha =? length beta) then Raise AssertionError
  else if negb (forallb fpos alpha && forallb fpos beta) then Raise AssertionError
  else
    dt <- np_dot (zip_with fsub alpha beta)
                 (map (fun a => fsub (np_psi a) (np_psi (fsum alpha))) alpha) ;;
    Ok (fadd
          (fsub
             (fadd
                (fsub (np_gammaln (fsum alpha)) (np_gammaln (fsum beta)))
                (fsum (map np_gammaln beta)))
             (fsum (map np_gammaln alpha)))
          dt).

Definition KL (alphas : list (list Z * matrix)) : result (list float64) :=
  first <- index (map snd alphas) 0 ;;
  let KL0 := nan_matrix (length alphas) (length first) in
  KLm <- for_each (enumerate (map snd alphas))
    (fun '(i, alpha) KLm =>
       for_each (range 1 (length alpha))
         (fun j KLm =>
            a <- index alpha (j - 1) ;;
            b <- index alpha j ;;
            d <- KL_dirichlet a b ;;
            set2 KLm i j d)
         KLm)
    KL0 ;;
  Ok (sum_axis0 KLm (length first)).

Definition H0 (alphas : list (list Z * matrix)) : result (list float64) :=
  first <- index (map snd alphas) 0 ;;
  let h0 := nan_matrix (length alphas) (length first) in
  h0 <- for_each (enumerate (map snd alphas))
    (fun '(i, alpha) h0 =>
       for_each (range 0 (length alpha))
         (fun j h0 =>
            a <- index alpha j ;;
            e <- dirichlet_entropy a ;;
            set2 h0 i j e)
         h0)
    h0 ;;
  Ok (sum_axis0 h0 (length first)).

Definition as_alphas (v : pyval) : result (list (list Z * matrix)) :=
  match v with
  | PyAlphas a => Ok a
  | _ => Raise (AttributeError "object has no attribute 'keys'")
  end.

Definition compute_bayesian (out : output) : result (list float64) :=
  alphas <- get_named out "alphas" ;;
  alphas <- as_alphas alphas ;;
  KL alphas.

(** The table [p_hat = {2: 1/2, 3: 1/24}]. *)
Definition p_hat : gmap Z float64 :=
  {[ 2%Z := Fin (1 / 2); 3%Z := Fin (1 / 24) ]}.

(** The line [S_raw = out['shannon'] + out['bayesian'] - H0(out['alphas'])]. *)
Definition S_raw (out : output) : result (list float64) :=
  shannon <- get_named out "shannon" ;;
  shannon <- as_array shannon ;;
  bayesian <- get_named out "bayesian" ;;
  bayesian <- as_array bayesian ;;
  sb <- broadcast2 fadd shannon bayesian ;;
  alphas <- get_named out "alphas" ;;
  alphas <- as_alphas alphas ;;
  h0 <- H0 alphas ;;
  broadcast2 fsub sb h0.

Definition compute_confidence_corrected (out : output) (Nitem : Z)
  : result (list float64) :=
  S_raw <- S_raw out ;;
  match p_hat !! Nitem with
  | Some p => Ok (map (fun x => fadd x (flog p)) S_raw)
  | None => Raise (KeyError (KInt Nitem))
  end.

Definition fill_output_hmm (post : list (list Z * matrix)) (resol : pyval)
    (Nitem : Z) : result output :=
  pgrid <- linspace01 resol ;;
  for_each post
    (fun '(item, d) out =>
       m <- compute_mean_of_dist d pgrid ;;
       sd <- compute_sd_of_dist d pgrid Nitem ;;
       Ok (set_post item {| mean := m; SD := sd; MAP := None; dist := Some d |} out))
    empty_output.

(** The value [parse_options(options, 'fixed_prior')] is bound to. *)
Definition prior_of (p : parsed) : result pyval :=
  match p with
  | FixedPrior prior => Ok prior
  | ParsedNone => Ok PyNone
  | _ => Raise TypeError
  end.

(** [out[k][1:] = src]. *)
Definition assign_from1 (out : output) (k : string) (src : list float64)
  : result output :=
  a <- get_named out k ;;
  a <- as_array a ;;
  if length src =? length (drop 1 a) then
    Ok (set_named k (PyArr (take 1 a ++ src)) out)
  else match src with
       | [v] => Ok (set_named k (PyArr (take 1 a ++ map (fun _ => v) (drop 1 a))) out)
       | _ => Raise (ValueError "could not broadcast input array")
       end.

(** [a[:-1]]. *)
Definition all_but_last (a : list float64) : list float64 :=
  take (length a - 1) a.

(** The block of [add_predictions] under "Get the prior": the mean and the
    standard deviation of item 0 under the base Dirichlet prior. *)
Definition base_prior (order : nat) (options : gmap string pyval)
    (ObsType : string) : result (float64 * float64) :=
  Dirichlet_param <-
    (if order =? 0 then
       if String.eqb (lower ObsType) "fixed" then
         prior <- parse_options options "fixed_prior" ;;
         prior <- prior_of prior ;;
         a0 <- subscript_prior prior [0%Z] ;;
         a1 <- subscript_prior prior [1%Z] ;;
         Ok [a0; a1]
       else Ok [Fin 1; Fin 1]
     else Ok [Fin 1; Fin 1]) ;;
  m <- dirichlet_mean Dirichlet_param ;;
  prior_p0 <- index m 0 ;;
  v <- dirichlet_var Dirichlet_param ;;
  v0 <- index v 0 ;;
  Ok (prior_p0, fsqrt v0).

Definition add_predictions (out : output) (sq : list Z) (order : nat)
    (options : gmap string pyval) (ObsType : string) (Nitem : Z)
  : result output :=
  if (2 <? Nitem)%Z then
    let out := set_named "current_prediction_p0" PyNone out in
    let out := set_named "current_prediction_SDp0" PyNone out in
    let out := set_named "prior_prediction_p0" PyNone out in
    let out := set_named "prior_prediction_SDp0" PyNone out in
    Ok out
  else
    (* Get the prior *)
    pr <- base_prior order options ObsType ;;
    let prior_p0 := fst pr in
    let prior_SDp0 := snd pr in
    (* Get current prediction *)
    let out := set_named "current_prediction_p0"
                 (PyArr (scale prior_p0 (np_ones (length sq)))) out in
    let out := set_named "current_prediction_SDp0"
                 (PyArr (scale prior_SDp0 (np_ones (length sq)))) out in
    out <-
      (if order =? 0 then
         for_each (range 0 (length sq))
           (fun t out =>
              r <- get_post out [0%Z] ;;
              x <- index (mean r) t ;;
              out <- set_item out "current_prediction_p0" t x ;;
              r <- get_post out [0%Z] ;;
              x <- index (SD r) t ;;
              set_item out "current_prediction_SDp0" t x)
           out
       else
         for_each (range order (length sq))
           (fun t out =>
              let context := slice sq (t - order + 1) (t + 1) in
              if existsb (fun x => (x =? Nitem)%Z) context then
                (* an item whose value is Nitem corresponds to a pause *)
                out <- set_item out "current_prediction_p0" t prior_p0 ;;
                set_item out "current_prediction_SDp0" t prior_SDp0
              else
                r <- get_post out (context ++ [0%Z]) ;;
                x <- index (mean r) t ;;
                out <- set_item out "current_prediction_p0" t x ;;
                r <- get_post out (context ++ [0%Z]) ;;
                x <- index (SD r) t ;;
                set_item out "current_prediction_SDp0" t x)
           out) ;;
    (* Get prior prediction *)
    let out := set_named "prior_prediction_p0"
                 (PyArr (scale prior_p0 (np_ones (length sq)))) out in
    let out := set_named "prior_prediction_SDp0"
                 (PyArr (scale prior_SDp0 (np_ones (length sq)))) out in
    cp <- get_named out "current_prediction_p0" ;;
    cp <- as_array cp ;;
    out <- assign_from1 out "prior_prediction_p0" (all_but_last cp) ;;
    csd <- get_named out "current_prediction_SDp0" ;;
    csd <- as_array csd ;;
    assign_from1 out "prior_prediction_SDp0" (all_but_last csd).

(** The pair [parse_options] returned, unpacked. *)
Definition unpack2 (p : parsed) : result (pyval * pyval) :=
  match p with
  | FixedType a b => Ok (a, b)
  | HmmParam a b => Ok (a, b)
  | _ => Raise TypeError
  end.

Definition unpack3 (p : parsed) : result (pyval * pyval * pyval) :=
  match p with
  | HmmFull a b c => Ok (a, b, c)
  | _ => Raise TypeError
  end.

(** The state of the wrapper's body: the options, which the fixed branch
    writes to, and the local [out], unbound until a branch assigns it. *)
Record locals : Type := {
  l_options : gmap string pyval;
  l_out : option output
}.

Definition branch_fixed (sq : list Z) (order : nat) (Nitem : Z) (st : locals)
  : result locals :=
  let options := <["order" := PyInt (Z.of_nat order)]> (l_options st) in
  let options := <["Nitem" := PyInt Nitem]> options in
  prior <- parse_options options "fixed_prior" ;;
  prior <- prior_of prior ;;
  dw <- parse_options options "fixed_type" ;;
  dw <- unpack2 dw ;;
  (* Get posterior *)
  count <- io_fixed_count_tuple sq order Nitem (fst dw) (snd dw) ;;
  post <- io_fixed_posterior_no_jump count prior Nitem order ;;
  (* Fill output *)
  out <- for_each (fp_mean post)
    (fun '(item, m) out =>
       match fp_MAP post !! item with
       | Some map_ =>
           match fp_SD post !! item with
           | Some sd =>
               Ok (set_post item
                     {| mean := m; SD := sd; MAP := Some map_; dist := None |} out)
           | None => Raise (KeyError (KTup item))
           end
       | None => Raise (KeyError (KTup item))
       end)
    empty_output ;;
  surprise <- compute_surprise sq out order ;;
  let out := set_named "surprise" (PyArr surprise) out in
  let out := set_named "count" (PyCount count) out in
  alphas <- compute_alpha sq out order prior (Some Nitem) ;;
  let out := set_named "alphas" (PyAlphas alphas) out in
  surprise <- get_named out "surprise" ;;
  let out := set_named "shannon" surprise out in
  bayesian <- compute_bayesian out ;;
  let out := set_named "bayesian" (PyArr bayesian) out in
  cc <- compute_confidence_corrected out Nitem ;;
  let out := set_named "confidence-corrected" (PyArr cc) out in
  Ok {| l_options := options; l_out := Some out |}.

Definition branch_hmm (sq : list Z) (order : nat) (Nitem : Z) (st : locals)
  : result locals :=
  rp <- parse_options (l_options st) "hmm_param" ;;
  rp <- unpack2 rp ;;
  (* Get full posterior *)
  marg_post <- io_hmm_compute_inference sq (fst rp) order Nitem (snd rp) ;;
  (* Fill output *)
  out <- fill_output_hmm marg_post (fst rp) Nitem ;;
  surprise <- compute_surprise sq out order ;;
  let out := set_named "surprise" (PyArr surprise) out in
  Ok {| l_options := l_options st; l_out := Some out |}.

Definition branch_hmm_uncoupled (sq : list Z) (order : nat) (Nitem : Z)
    (st : locals) : result locals :=
  rp <- parse_options (l_options st) "hmm_param" ;;
  rp <- unpack2 rp ;;
  (* Re-code the sequence for each type of transition *)
  conv_seq <- io_hmm_unc_convert_to_order0 sq Nitem order ;;
  (* Get full posterior *)
  marg_post <- for_each conv_seq
    (fun '(cond, cseq) marg_post =>
       post_all_items <- io_hmm_unc_compute_inference cseq (fst rp) Nitem (snd rp) ;;
       for_each post_all_items
         (fun '(item, d) marg_post => Ok (alist_set (cond ++ item) d marg_post))
         marg_post)
    [] ;;
  (* Fill output *)
  out <- fill_output_hmm marg_post (fst rp) Nitem ;;
  surprise <- compute_surprise sq out order ;;
  let out := set_named "surprise" (PyArr surprise) out in
  Ok {| l_options := l_options st; l_out := Some out |}.

Definition branch_full
    (posterior_prediction :
       list Z -> nat -> Z -> pyval -> pyval -> pyval -> result volatility_posterior)
    (sq : list Z) (order : nat) (Nitem : Z) (st : locals) : result locals :=
  tvv <- parse_options (l_options st) "hmm+full" ;;
  tvv <- unpack3 tvv ;;
  let '(theta_resol, vol_grid, vol_prior) := tvv in
  res <- posterior_prediction sq order Nitem theta_resol vol_grid vol_prior ;;
  (* Fill output *)
  out <- fill_output_hmm (marg_theta res) theta_resol Nitem ;;
  surprise <- compute_surprise sq out order ;;
  let out := set_named "surprise" (PyArr surprise) out in
  let out := set_named "volatility" (post_nu res) out in
  Ok {| l_options := l_options st; l_out := Some out |}.

(** [if ObsType.lower() == name: body]. *)
Definition when_type (ObsType name : string) (body : locals -> result locals)
    (st : locals) : result locals :=
  if String.eqb (lower ObsType) name then body st else Ok st.

Definition IdealObserver (sq : list Z) (ObsType : string) (order : nat)
    (Nitem : option Z) (options : option (list (string * pyval)))
  : result output :=
  options <- check_options options ;;
  let Nitem := infer_Nitem sq Nitem in
  let st := {| l_options := options; l_out := None |} in
  st <- when_type ObsType "fixed" (branch_fixed sq order Nitem) st ;;
  st <- when_type ObsType "hmm" (branch_hmm sq order Nitem) st ;;
  st <- when_type ObsType "hmm_uncoupled" (branch_hmm_uncoupled sq order Nitem) st ;;
  st <- when_type ObsType "hmm+full"
          (branch_full io_hmm_vol_posterior_prediction sq order Nitem) st ;;
  st <- when_type ObsType "hmm_uncoupled+full"
          (branch_full io_hmm_uncoupled_vol_posterior_prediction sq order Nitem) st ;;
  match l_out st with
  | Some out => add_predictions out sq order (l_options st) ObsType Nitem
  | None => Raise (UnboundLocalError "out")
  end.

End Wrapper.

(** ** Definitions used to state and to exercise the properties *)

Definition Rsum (l : list R) : R := fold_left Rplus l 0%R.

(** A real matrix read as an array of floats. *)
Definition inject (m : list (list R)) : matrix := map (map Fin) m.

(** The closed form of the Kullback-Leibler divergence between Dir(alpha) and
    Dir(beta), in the words of the specification:
    KL(alpha || beta) = lnG(sum alpha) - lnG(sum beta) + sum lnG(beta)
                        - sum lnG(alpha) + (alpha - beta).(psi(alpha) - psi(sum alpha)). *)
Definition KL_closed_form (alpha beta : list R) : R :=
  (gammaln (Rsum alpha) - gammaln (Rsum beta)
   + Rsum (map gammaln beta) - Rsum (map gammaln alpha)
   + Rsum (zip_with Rmult (zip_with Rminus alpha beta)
                    (map (fun a => psi a - psi (Rsum alpha)) alpha)))%R.

(** Row [t] of a real matrix. *)
Definition row (A : list (list R)) (t : nat) : list R := default [] (A !! t).

(** The finite entries of an array, when all are finite. *)
Fixpoint reals_of (a : list float64) : option (list R) :=
  match a with
  | [] => Some []
  | Fin x :: a' => option_map (cons x) (reals_of a')
  | _ => None
  end.

(** Collaborators to run the wrapper on concrete inputs: inference engines
    that answer with an empty posterior, and the moments and the entropy of a
    Dirichlet distribution with finite parameters. *)
Definition example_collaborators : Collaborators := {|
  io_fixed_count_tuple := fun _ _ _ _ _ => Ok ∅;
  io_fixed_posterior_no_jump := fun _ _ _ _ =>
    Ok {| fp_mean := []; fp_MAP := ∅; fp_SD := ∅ |};
  io_fixed_symetric_prior := fun _ _ _ => Ok (PyPrior ∅);
  io_hmm_compute_inference := fun _ _ _ _ _ => Ok [];
  io_hmm_unc_convert_to_order0 := fun _ _ _ => Ok [];
  io_hmm_unc_compute_inference := fun _ _ _ _ => Ok [];
  io_hmm_vol_posterior_prediction := fun _ _ _ _ _ _ =>
    Ok {| marg_theta := []; post_nu := PyNone |};
  io_hmm_uncoupled_vol_posterior_prediction := fun _ _ _ _ _ _ =>
    Ok {| marg_theta := []; post_nu := PyNone |};
  dirichlet_mean := fun a =>
    match reals_of a with
    | Some r => Ok (map (fun x : R => Fin (x / Rsum r)) r)
    | None => Raise (ValueError "All parameters must be greater than 0")
    end;
  dirichlet_var := fun a =>
    match reals_of a with
    | Some r =>
        Ok (map (fun x : R =>
                  Fin (x * (Rsum r - x) / (Rsum r * Rsum r * (Rsum r + 1))))
               r)
    | None => Raise (ValueError "All parameters must be greater than 0")
    end;
  dirichlet_entropy := fun a =>
    match reals_of a with
    | Some r =>
        Ok (Fin (Rsum (map gammaln r) - gammaln (Rsum r)
                 + (Rsum r - INR (length r)) * psi (Rsum r)
                 - Rsum (map (fun x : R => (x - 1) * psi x) r))%R)
    | None => Raise (ValueError "All parameters must be greater than 0")
    end
|}.

(** Collaborators to run the observer ['fixed'] on a binary sequence: an
    engine that counts one for item 0 and none for item 1 at every trial, a
    flat prior and a flat posterior. *)
Definition example_fixed_collaborators : Collaborators := {|
  io_fixed_count_tuple := fun sq _ _ _ _ =>
    Ok (<[[0%Z] := replicate (length sq) (Fin 1)]>
          (<[[1%Z] := replicate (length sq) (Fin 0)]> ∅));
  io_fixed_posterior_no_jump := fun count _ _ _ =>
    let T := length (default [] (count !! [0%Z])) in
    Ok {| fp_mean := [([0%Z], replicate T (Fin (1 / 2)));
                      ([1%Z], replicate T (Fin (1 / 2)))];
          fp_MAP := <[[0%Z] := replicate T (Fin (1 / 2))]>
                      (<[[1%Z] := replicate T (Fin (1 / 2))]> ∅);
          fp_SD := <[[0%Z] := replicate T (Fin (1 / 4))]>
                     (<[[1%Z] := replicate T (Fin (1 / 4))]> ∅) |};
  io_fixed_symetric_prior := fun _ _ _ =>
    Ok (PyPrior (<[[0%Z] := Fin 1]> (<[[1%Z] := Fin 1]> ∅)));
  io_hmm_compute_inference := fun _ _ _ _ _ => Ok [];
  io_hmm_unc_convert_to_order0 := fun _ _ _ => Ok [];
  io_hmm_unc_compute_inference := fun _ _ _ _ => Ok [];
  io_hmm_vol_posterior_prediction := fun _ _ _ _ _ _ =>
    Ok {| marg_theta := []; post_nu := PyNone |};
  io_hmm_uncoupled_vol_posterior_prediction := fun _ _ _ _ _ _ =>
    Ok {| marg_theta := []; post_nu := PyNone |};
  dirichlet_mean := dirichlet_mean (Collaborators := example_collaborators);
  dirichlet_var := dirichlet_var (Collaborators := example_collaborators);
  dirichlet_entropy := dirichlet_entropy (Collaborators := example_collaborators)
|}.

(** The entry of the table of the context [p] at trial [t] for the item [s]. *)
Definition alpha_cell (alphas : list (list Z * matrix)) (p : list Z) (s : Z)
    (t : nat) (v : float64) : Prop :=
  exists A row,
    alist_get p alphas = Some A /\ A !! t = Some row
    /\ row !! Z.to_nat s = Some v.

(** Counts and a flat prior at order 0 for the sequence 0, 1, and outputs
    that hold them. *)
Definition example_count : gmap (list Z) (list float64) :=
  <[[0%Z] := [Fin 1; Fin 1]]> {[ [1%Z] := [Fin 0; Fin 1] ]}.

Definition example_prior : pyval :=
  PyPrior (<[[0%Z] := Fin 1]> {[ [1%Z] := Fin 1 ]}).

Definition example_out_count : output :=
  set_named "count" (PyCount example_count) empty_output.

Definition example_out_confidence : output :=
  set_named "shannon" (PyArr [NaN])
    (set_named "bayesian" (PyArr [NaN])
       (set_named "alphas" (PyAlphas [([], [[Fin 1; Fin 1]])]) empty_output)).

(** The entry of a matrix at row [i] and column [j]. *)
Definition cell (M : matrix) (i j : nat) (v : float64) : Prop :=
  exists row, M !! i = Some row /\ row !! j = Some v.

(** The record [fill_output_hmm] stores for an item of [post]: the
    distribution as given, no MAP, and a mean and an SD per trial. *)
Definition filled_from (post : list (list Z * matrix)) (item : list Z)
    (r : posterior) : Prop :=
  MAP r = None
  /\ exists d,
       In (item, d) post /\ dist r = Some d
       /\ length (mean r) = length (default [] (d !! 0))
       /\ length (SD r) = length (default [] (d !! 0)).

(** The realised pattern of [order + 1] items that ends at trial [t]. *)
Definition pattern_at (sq : list Z) (order t : nat) : list Z :=
  slice sq (t - order) (t + 1).

(** The entry of the surprise array at trial [t]: computed from the first
    trial that has a predecessor and a full context, NaN before. *)
Definition surprise_at (sq : list Z) (out : output) (order t : nat) : float64 :=
  if Nat.max order 1 <=? t then
    match post out !! pattern_at sq order t with
    | Some r =>
        match mean r !! (t - 1) with
        | Some m => fneg (flog2 m)
        | None => NaN
        end
    | None => NaN
    end
  else NaN.

(** The surprise as the specification words it: computed at every trial from
    trial [order] on whose pattern is a key, from the mean at the trial before. *)
Definition surprise_as_stated (sq : list Z) (out : output) (order : nat)
    (s : list float64) : Prop :=
  forall t r,
    order <= t < length sq ->
    post out !! pattern_at sq order t = Some r ->
    exists t' m,
      t = S t' /\ mean r !! t' = Some m /\ s !! t = Some (fneg (flog2 m)).

(** A posterior mean that is no larger than one (or is not a number). *)
Definition not_above_one (m : float64) : Prop :=
  match m with
  | NaN => True
  | Inf s => s = false
  | Fin x => (x <= 1)%R
  end.

(** A posterior record for examples: constant mean and SD over the trials. *)
Definition constant_posterior (T : nat) (m sd : R) : posterior :=
  {| mean := replicate T (Fin m); SD := replicate T (Fin sd);
     MAP := None; dist := None |}.

(** Posterior outputs for examples: order 0 and order 1 over two items. *)
Definition example_out_order0 : output :=
  {| post := {[ [0%Z] := constant_posterior 2 (1 / 2) (1 / 4);
                [1%Z] := constant_posterior 2 (1 / 2) (1 / 4) ]};
     named := ∅ |}.

(** An output whose posterior mean is no probability. *)
Definition example_out_above_one : output :=
  {| post := {[ [0%Z] := constant_posterior 2 2 (1 / 4) ]}; named := ∅ |}.

Definition example_out_order1 : output :=
  {| post := {[ [0%Z; 1%Z] := constant_posterior 3 (1 / 2) (1 / 4);
                [1%Z; 0%Z] := constant_posterior 3 (1 / 4) (1 / 8) ]};
     named := ∅ |}.

(** The context that ends at trial [t]: the [order] items at the trials
    [t - order + 1 .. t]. *)
Definition context_at (sq : list Z) (order t : nat) : list Z :=
  slice sq (t - order + 1) (t + 1).

Definition has_pause (Nitem : Z) (context : list Z) : bool :=
  existsb (fun x => (x =? Nitem)%Z) context.

(** What the current prediction and its SD are at trial [t], for an order
    above zero: the base prior when the context holds a pause, the posterior
    of the context followed by item 0 otherwise. *)
Definition current_prediction_at (out : output) (sq : list Z) (order : nat)
    (Nitem : Z) (p0 sd0 : float64) (t : nat) (x y : float64) : Prop :=
  if has_pause Nitem (context_at sq order t) then x = p0 /\ y = sd0
  else exists r,
         post out !! (context_at sq order t ++ [0%Z]) = Some r
         /\ mean r !! t = Some x /\ SD r !! t = Some y.

(** The two arrays of current predictions held by a state of the loops of
    [add_predictions]. *)
Definition prediction_arrays (sq : list Z) (s : output)
    (cp csd : list float64) : Prop :=
  named s !! "current_prediction_p0" = Some (PyArr cp)
  /\ named s !! "current_prediction_SDp0" = Some (PyArr csd)
  /\ length cp = length sq /\ length csd = length sq.

(** The state of the loop over the trials [order ..] before trial [k]. *)
Definition predictions_upto (out0 : output) (sq : list Z) (order : nat)
    (Nitem : Z) (p0 sd0 : float64) (k : nat) (s : output) : Prop :=
  post s = post out0
  /\ exists cp csd,
       prediction_arrays sq s cp csd
       /\ forall t, order <= t < k ->
            exists x y,
              cp !! t = Some x /\ csd !! t = Some y
              /\ current_prediction_at out0 sq order Nitem p0 sd0 t x y.

(** A table of Dirichlet parameters over the reals, one matrix per context,
    read as the dictionary [alphas]. *)
Definition inject_table (alphas : list (list Z * list (list R)))
  : list (list Z * matrix) :=
  map (fun cA => (cA.1, inject cA.2)) alphas.

(** A matrix of [T] rows, all of one positive length, with positive entries. *)
Definition positive_table (T : nat) (A : list (list R)) : Prop :=
  length A = T
  /\ exists K, 0 < K
       /\ Forall (fun r => length r = K /\ Forall (fun x => (0 < x)%R) r) A.

(** The Bayesian surprise at trial [t]: over the contexts, the sum of the
    divergences from the parameters at trial [t - 1] to those at trial [t]. *)
Definition bayesian_at (alphas : list (list Z * list (list R))) (t : nat) : R :=
  Rsum (map (fun cA => KL_closed_form (row cA.2 (t - 1)) (row cA.2 t)) alphas).

(** The same with the two arguments as the specification orders them: the
    parameters at trial [t] first, those at trial [t - 1] second. *)
Definition bayesian_as_stated (alphas : list (list Z * list (list R)))
    (t : nat) : R :=
  Rsum (map (fun cA => KL_closed_form (row cA.2 t) (row cA.2 (t - 1))) alphas).

(** The row of the matrix [KL] for one context, before trial [k] of the
    inner loop. *)
Definition KL_row_upto (A : list (list R)) (k : nat) : list float64 :=
  map (fun j =>
         if (1 <=? j) && (j <? k)
         then Fin (KL_closed_form (row A (j - 1)) (row A j))
         else NaN)
      (seq 0 (length A)).

(** One context (order 0), two items, two trials: Dir(1,1) then Dir(2,1). *)
Definition example_alphas : list (list Z * list (list R)) :=
  [([], [[1; 1]; [2; 1]]%R)].

Definition example_out_alphas : output :=
  {| post := ∅;
     named := {[ "alphas" := PyAlphas (inject_table example_alphas) ]} |}.

(** The state of the loop of [compute_surprise] before trial [k]. *)
Definition surprise_upto (sq : list Z) (out : output) (order k : nat)
    (s : list float64) : Prop :=
  length s = length sq
  /\ forall t, t < length sq ->
       s !! t = Some (if t <? k then surprise_at sq out order t else NaN).

(** One iteration of either loop of [compute_surprise], on the pattern [p]
    the iteration tests. *)
Definition surprise_step (out : output) (p : list Z) (t : nat)
    (surprise : list float64) : result (list float64) :=
  if decide (p ∈ (dom (post out) : gset (list Z))) then
    r <- get_post out p ;;
    m <- index (mean r) (t - 1) ;;
    Ok (<[t := fneg (flog2 m)]> surprise)
  else Ok surprise.

(** A posterior over a grid of [n] probabilities, one row per grid point and
    one column per trial: finite non-negative weights whose sum over the grid
    is at most one at every trial. *)
Definition grid_distribution (n : nat) (d : list (list R)) : Prop :=
  length d = n
  /\ exists T,
       Forall (fun r => length r = T /\ Forall (fun x => (0 <= x)%R) r) d
       /\ forall t, t < T -> (Rsum (map (fun r => default 0%R (r !! t)) d) <= 1)%R.

(** A grid posterior for examples: two grid points, two trials. *)
Definition example_grid_posterior : list (list Z * list (list R)) :=
  [([0%Z], [[1 / 2; 1 / 4]; [1 / 2; 3 / 4]]%R)].

(** The entry ['surprise'] of an output for the sequence [sq]: an array of
    the length of the sequence whose first entry, if any, is NaN. *)
Definition surprise_entry (sq : list Z) (o : output) : Prop :=
  exists s,
    named o !! "surprise" = Some (PyArr s)
    /\ length s = length sq
    /\ (0 < length sq -> s !! 0 = Some NaN).

(** ** Option resolution *)

Section OptionResolution.
Context {collab : Collaborators}.

Lemma check_options_without (key : string) (items : list (string * pyval)) :
  Forall (fun kv => lower kv.1 <> key) items ->
  exists checked, check_options (Some items) = Ok checked /\ checked !! key = None.
Proof.
  intros Hitems. unfold check_options.
  assert (forall acc : gmap string pyval, acc !! key = None ->
            exists checked,
              for_each items
                (fun '(item, v) ck => Ok (<[lower item := v]> ck)) acc = Ok checked
              /\ checked !! key = None) as Hgen.
  { induction Hitems as [| [k v] items Hk _ IH]; intros acc Hacc.
    - exists acc. split; [reflexivity | exact Hacc].
    - simpl. apply IH. rewrite lookup_insert_ne; [exact Hacc | exact Hk]. }
  apply Hgen. apply lookup_empty.
Qed.

Lemma parse_options_hmm_param_missing (options : gmap string pyval) :
  options !! "p_c" = None ->
  parse_options options "hmm_param" = Raise (ValueError missing_p_c).
Proof.
  intros Hp. unfold parse_options. simpl. rewrite Hp. reflexivity.
Qed.

(** C10. When the options hold both ['decay'] and ['window'], the resolution
    of the fixed observer's type returns [(options['decay'], None)]: the decay
    wins, the window is dropped, and no error is raised. *)
Theorem parse_options_decay_over_window
    (options : gmap string pyval) (d w : pyval) :
  options !! "decay" = Some d ->
  options !! "window" = Some w ->
  parse_options options "fixed_type" = Ok (FixedType d PyNone).
Proof.
  intros Hd _. unfold parse_options. simpl. rewrite Hd. reflexivity.
Qed.

(** C9. A call with [options=None], the default, raises inside
    [check_options] ([None] has no [keys]); the result is the same whatever
    the collaborators do, so no inference has run. *)
Theorem IdealObserver_default_options_unusable
    (sq : list Z) (ObsType : string) (order : nat) (Nitem : option Z) :
  IdealObserver sq ObsType order Nitem None
  = Raise (AttributeError "'NoneType' object has no attribute 'keys'").
Proof.
  unfold IdealObserver.
  change (check_options None)
    with (@Raise (gmap string pyval)
            (AttributeError "'NoneType' object has no attribute 'keys'")).
  reflexivity.
Qed.

(** C6, amended. For the observers ['hmm'] and ['hmm_uncoupled'] (in any
    letter case), a call whose options have no key that lower-cases to
    ['p_c'] raises the ValueError of [parse_options]; the result does not
    depend on the collaborators, so it is raised before any inference. *)
Theorem IdealObserver_hmm_requires_p_c
    (sq : list Z) (ObsType : string) (order : nat) (Nitem : option Z)
    (items : list (string * pyval)) :
  lower ObsType = "hmm" \/ lower ObsType = "hmm_uncoupled" ->
  Forall (fun kv => lower kv.1 <> "p_c") items ->
  IdealObserver sq ObsType order Nitem (Some items)
  = Raise (ValueError missing_p_c).
Proof.
  intros Htype Hitems.
  destruct (check_options_without "p_c" items Hitems) as [checked [Hck Hp]].
  unfold IdealObserver. rewrite Hck. simpl.
  unfold when_type.
  destruct Htype as [-> | ->]; simpl;
    unfold branch_hmm, branch_hmm_uncoupled; simpl;
    rewrite (parse_options_hmm_param_missing _ Hp); reflexivity.
Qed.

End OptionResolution.

(** C10 on options that hold a decay of 0.9 and a window of 5. *)
Lemma parse_options_decay_over_window_witness :
  parse_options (collab := example_collaborators)
    {[ "decay" := PyFloat (Fin (9 / 10)); "window" := PyInt 5 ]} "fixed_type"
  = Ok (FixedType (PyFloat (Fin (9 / 10))) PyNone).
Proof.
  apply (parse_options_decay_over_window (collab := example_collaborators)
           _ _ (PyInt 5)); reflexivity.
Defined.

(** C6 on the observer ['HMM'] with the single option ['Resol']. *)
Lemma IdealObserver_hmm_requires_p_c_witness :
  IdealObserver (collab := example_collaborators)
    [0; 1; 0]%Z "HMM" 1 (Some 2%Z) (Some [("Resol"%string, PyInt 20)])
  = Raise (ValueError missing_p_c).
Proof.
  apply (IdealObserver_hmm_requires_p_c (collab := example_collaborators)).
  - left. reflexivity.
  - repeat constructor. simpl. discriminate.
Defined.

(** C6 as stated fails on ['hmm+full'] with empty options: the options
    resolve to the defaults, and the call returns an output. *)
Lemma IdealObserver_full_variant_without_p_c :
  parse_options (collab := example_collaborators) ∅ "hmm+full"
  = Ok (HmmFull (PyInt 10) (PyArr default_grid_nu) (PyArr (uniform 20)))
  /\ exists out,
       IdealObserver (collab := example_collaborators)
         [0; 1; 2]%Z "hmm+full" 0 (Some 3%Z) (Some []) = Ok out
       /\ named out !! "surprise" = Some (PyArr [NaN; NaN; NaN]).
Proof.
  split; [reflexivity |].
  eexists. split; [vm_compute; reflexivity | reflexivity].
Qed.

(** ** Predictions for alphabets of more than two items, and the
    confidence-corrected surprise *)

Section Predictions.
Context {collab : Collaborators}.

Lemma add_predictions_large_alphabet
    (out : output) (sq : list Z) (order : nat) (options : gmap string pyval)
    (ObsType : string) (Nitem : Z) :
  (2 < Nitem)%Z ->
  add_predictions out sq order options ObsType Nitem
  = Ok (set_named "prior_prediction_SDp0" PyNone
          (set_named "prior_prediction_p0" PyNone
             (set_named "current_prediction_SDp0" PyNone
                (set_named "current_prediction_p0" PyNone out)))).
Proof.
  intros HN. unfold add_predictions.
  destruct (Z.ltb_spec 2 Nitem) as [_ | Hle]; [reflexivity | lia].
Qed.

Lemma bind_Ok {A B : Type} (m : result A) (k : A -> result B) (b : B) :
  bind m k = Ok b -> exists a, m = Ok a /\ k a = Ok b.
Proof. destruct m as [a | e]; simpl; [eauto | discriminate]. Qed.

(** C4. Whenever [IdealObserver] returns an output for an alphabet of more
    than two items (given, or counted from the sequence), the four prediction
    entries are present and hold [None]. *)
Theorem IdealObserver_predictions_None
    (sq : list Z) (ObsType : string) (order : nat) (Nitem : option Z)
    (options : option (list (string * pyval))) (out : output) :
  IdealObserver sq ObsType order Nitem options = Ok out ->
  (2 < infer_Nitem sq Nitem)%Z ->
  named out !! "current_prediction_p0" = Some PyNone
  /\ named out !! "current_prediction_SDp0" = Some PyNone
  /\ named out !! "prior_prediction_p0" = Some PyNone
  /\ named out !! "prior_prediction_SDp0" = Some PyNone.
Proof.
  intros Hrun HN. unfold IdealObserver in Hrun.
  repeat (apply bind_Ok in Hrun; destruct Hrun as [? [_ Hrun]]).
  destruct (l_out _) as [o |]; [| discriminate].
  rewrite (add_predictions_large_alphabet _ _ _ _ _ _ HN) in Hrun.
  injection Hrun as <-. simpl. repeat split; by simplify_map_eq.
Qed.

Lemma flog_Fin_pos (p : R) : (0 < p)%R -> flog (Fin p) = Fin (ln p).
Proof.
  intros Hp. unfold flog, Rpos. destruct (Rlt_dec 0 p); [reflexivity | contradiction].
Qed.

(** C5. [compute_confidence_corrected] is the raw sum
    [shannon + bayesian - H0(alphas)] followed by the lookup of
    [p_hat[Nitem]]: for [Nitem = 2] it adds [ln (1/2)] to every entry, for
    [Nitem = 3] it adds [ln (1/24)], and for any other size the lookup raises
    [KeyError], so that no value is ever returned for such a size. *)
Theorem compute_confidence_corrected_by_size (out : output) (Nitem : Z) :
  compute_confidence_corrected out Nitem
  = (s <- S_raw out ;;
     if (Nitem =? 2)%Z then Ok (map (fun x => fadd x (Fin (ln (1 / 2)))) s)
     else if (Nitem =? 3)%Z then Ok (map (fun x => fadd x (Fin (ln (1 / 24)))) s)
     else Raise (KeyError (KInt Nitem)))
  /\ (Nitem <> 2%Z -> Nitem <> 3%Z ->
      forall r, compute_confidence_corrected out Nitem <> Ok r)
  /\ (forall sh ba al h,
        named out !! "shannon" = Some (PyArr sh) ->
        named out !! "bayesian" = Some (PyArr ba) ->
        named out !! "alphas" = Some (PyAlphas al) ->
        H0 al = Ok h ->
        length sh = length ba -> length ba = length h ->
        S_raw out = Ok (zip_with fsub (zip_with fadd sh ba) h)).
Proof.
  assert (compute_confidence_corrected out Nitem
          = (s <- S_raw out ;;
             if (Nitem =? 2)%Z then Ok (map (fun x => fadd x (Fin (ln (1 / 2)))) s)
             else if (Nitem =? 3)%Z
                  then Ok (map (fun x => fadd x (Fin (ln (1 / 24)))) s)
                  else Raise (KeyError (KInt Nitem)))) as Heq.
  { unfold compute_confidence_corrected. destruct (S_raw out) as [s | e]; simpl;
      [| reflexivity].
    unfold p_hat.
    destruct (Z.eqb_spec Nitem 2) as [-> | H2].
    - rewrite lookup_insert_eq. rewrite flog_Fin_pos by lra. reflexivity.
    - rewrite lookup_insert_ne by congruence.
      destruct (Z.eqb_spec Nitem 3) as [-> | H3].
      + rewrite lookup_singleton_eq. rewrite flog_Fin_pos by lra. reflexivity.
      + rewrite lookup_singleton_ne by congruence. reflexivity. }
  split; [exact Heq | split].
  - intros H2 H3 r. rewrite Heq.
    destruct (S_raw out) as [s | e]; simpl; [| discriminate].
    destruct (Z.eqb_spec Nitem 2); [contradiction |].
    destruct (Z.eqb_spec Nitem 3); [contradiction | discriminate].
  - intros sh ba al h Hsh Hba Hal Hh Hl1 Hl2.
    unfold S_raw, get_named. rewrite Hsh, Hba, Hal. simpl. rewrite Hh. simpl.
    assert (forall f a b, length a = length b ->
              broadcast2 f a b = Ok (zip_with f a b)) as Hb.
    { intros f a b Hl. unfold broadcast2. now rewrite Hl, Nat.eqb_refl. }
    rewrite (Hb _ _ _ Hl1). simpl. apply Hb.
    rewrite length_zip_with. lia.
Qed.

End Predictions.

(** C4 on a sequence over three items, the alphabet size left to be counted. *)
Lemma IdealObserver_predictions_None_witness :
  exists out,
    IdealObserver (collab := example_collaborators)
      [0; 1; 2; 1]%Z "hmm" 1 None (Some [("p_c"%string, PyFloat (Fin (1 / 10)))])
    = Ok out
    /\ named out !! "current_prediction_p0" = Some PyNone
    /\ named out !! "current_prediction_SDp0" = Some PyNone
    /\ named out !! "prior_prediction_p0" = Some PyNone
    /\ named out !! "prior_prediction_SDp0" = Some PyNone.
Proof.
  eexists. split; [vm_compute; reflexivity |].
  apply (IdealObserver_predictions_None (collab := example_collaborators)
           [0; 1; 2; 1]%Z "hmm" 1 None
           (Some [("p_c"%string, PyFloat (Fin (1 / 10)))])).
  - vm_compute. reflexivity.
  - vm_compute. reflexivity.
Defined.

(** ** Loops *)

Lemma for_each_seq_inv {St : Type} (P : nat -> St -> Prop)
    (body : nat -> St -> result St) (len lo : nat) (s0 s' : St) :
  P lo s0 ->
  (forall t s s1, lo <= t < lo + len -> P t s -> body t s = Ok s1 -> P (1 + t) s1) ->
  for_each (seq lo len) body s0 = Ok s' ->
  P (lo + len) s'.
Proof.
  revert lo s0. induction len as [| len IH]; intros lo s0 H0 Hstep Hrun.
  - simpl in Hrun. injection Hrun as <-. now rewrite Nat.add_0_r.
  - simpl in Hrun. destruct (body lo s0) as [s1 |] eqn:Hb; [| discriminate].
    simpl in Hrun. replace (lo + S len) with (S lo + len) by lia.
    apply (IH (S lo) s1).
    + apply (Hstep lo s0); [lia | exact H0 | exact Hb].
    + intros t s s2 Ht. apply Hstep. lia.
    + exact Hrun.
Qed.

Lemma for_each_seq_total {St : Type} (P : nat -> St -> Prop)
    (body : nat -> St -> result St) (len lo : nat) (s0 : St) :
  P lo s0 ->
  (forall t s, lo <= t < lo + len -> P t s ->
               exists s1, body t s = Ok s1 /\ P (1 + t) s1) ->
  exists s', for_each (seq lo len) body s0 = Ok s' /\ P (lo + len) s'.
Proof.
  revert lo s0. induction len as [| len IH]; intros lo s0 H0 Hstep.
  - exists s0. rewrite Nat.add_0_r. now split.
  - destruct (Hstep lo s0) as [s1 [Hb H1]]; [lia | exact H0 |].
    destruct (IH (S lo) s1) as [s' [Hrun Hs']]; [exact H1 | |].
    + intros t s Ht. apply Hstep. lia.
    + exists s'. simpl. rewrite Hb. simpl. split; [exact Hrun |].
      now replace (lo + S len) with (S lo + len) by lia.
Qed.

Lemma index_Ok {A : Type} (l : list A) (i : nat) (a : A) :
  index l i = Ok a <-> l !! i = Some a.
Proof.
  unfold index. destruct (l !! i); split; intros H; congruence.
Qed.

Lemma nan_array_lookup (n t : nat) :
  t < n -> scale NaN (np_ones n) !! t = Some NaN.
Proof.
  intros Ht. unfold scale, np_ones. rewrite list_lookup_fmap.
  rewrite lookup_replicate_2 by exact Ht. reflexivity.
Qed.

Lemma nan_array_length (n : nat) : length (scale NaN (np_ones n)) = n.
Proof. unfold scale, np_ones. now rewrite length_map, length_replicate. Qed.

Lemma scale_ones_length (c : float64) (n : nat) :
  length (scale c (np_ones n)) = n.
Proof. unfold scale, np_ones. now rewrite length_map, length_replicate. Qed.

Lemma slice_singleton {A : Type} (l : list A) (t : nat) (a : A) :
  l !! t = Some a -> slice l t (t + 1) = [a].
Proof.
  intros H. unfold slice. replace (t + 1 - t) with 1 by lia.
  revert t H. induction l as [| x l IH]; intros [| t] H; simpl in *; try discriminate.
  - injection H as ->. now rewrite take_0.
  - now apply IH.
Qed.

(** ** Surprise *)

Lemma pattern_at_order0 (sq : list Z) (t : nat) (st : Z) :
  sq !! t = Some st -> pattern_at sq 0 t = [st].
Proof.
  intros H. unfold pattern_at. rewrite Nat.sub_0_r. now apply slice_singleton.
Qed.

Lemma surprise_upto_init (sq : list Z) (out : output) (order : nat) :
  surprise_upto sq out order (Nat.max order 1) (scale NaN (np_ones (length sq))).
Proof.
  split; [apply nan_array_length |].
  intros t Ht. rewrite nan_array_lookup by exact Ht. f_equal.
  destruct (Nat.ltb_spec t (Nat.max order 1)) as [Hlt | Hge]; [| reflexivity].
  unfold surprise_at. destruct (Nat.leb_spec (Nat.max order 1) t); [lia | reflexivity].
Qed.

Lemma surprise_upto_skip (sq : list Z) (out : output) (order k : nat)
    (s : list float64) :
  Nat.max order 1 <= k < length sq ->
  post out !! pattern_at sq order k = None ->
  surprise_upto sq out order k s -> surprise_upto sq out order (1 + k) s.
Proof.
  intros Hk Hnone [Hlen Hs]. split; [exact Hlen |].
  intros t Ht. rewrite (Hs t Ht). f_equal.
  destruct (Nat.ltb_spec t k), (Nat.ltb_spec t (1 + k)); try lia; try reflexivity.
  assert (t = k) as -> by lia.
  unfold surprise_at. rewrite Hnone.
  now destruct (Nat.max order 1 <=? k).
Qed.

Lemma surprise_upto_set (sq : list Z) (out : output) (order k : nat)
    (s : list float64) (r : posterior) (m : float64) :
  Nat.max order 1 <= k < length sq ->
  post out !! pattern_at sq order k = Some r ->
  mean r !! (k - 1) = Some m ->
  surprise_upto sq out order k s ->
  surprise_upto sq out order (1 + k) (<[k := fneg (flog2 m)]> s).
Proof.
  intros Hk Hr Hm [Hlen Hs]. split; [now rewrite length_insert |].
  intros t Ht. destruct (decide (t = k)) as [-> | Hne].
  - rewrite list_lookup_insert_eq by lia. f_equal.
    destruct (Nat.ltb_spec k (1 + k)); [| lia].
    unfold surprise_at. rewrite Hr, Hm.
    destruct (Nat.leb_spec (Nat.max order 1) k); [reflexivity | lia].
  - rewrite list_lookup_insert_ne by congruence. rewrite (Hs t Ht). f_equal.
    destruct (Nat.ltb_spec t k), (Nat.ltb_spec t (1 + k)); try lia; reflexivity.
Qed.

Lemma surprise_step_Ok (sq : list Z) (out : output) (order k : nat)
    (s s1 : list float64) :
  Nat.max order 1 <= k < length sq ->
  surprise_upto sq out order k s ->
  surprise_step out (pattern_at sq order k) k s = Ok s1 ->
  surprise_upto sq out order (1 + k) s1.
Proof.
  intros Hk Hs Hrun. unfold surprise_step in Hrun.
  destruct (decide _) as [Hin | Hnin].
  - apply elem_of_dom in Hin. destruct Hin as [r Hr].
    unfold get_post in Hrun. rewrite Hr in Hrun. simpl in Hrun.
    apply bind_Ok in Hrun. destruct Hrun as [m [Hm Hrun]].
    injection Hrun as <-. apply index_Ok in Hm.
    now apply (surprise_upto_set sq out order k s r m).
  - injection Hrun as <-. apply surprise_upto_skip; [exact Hk | | exact Hs].
    now apply not_elem_of_dom.
Qed.

Lemma surprise_step_total (sq : list Z) (out : output) (order k : nat)
    (s : list float64) :
  map_Forall (fun _ r => length (mean r) = length sq) (post out) ->
  k < length sq ->
  exists s1, surprise_step out (pattern_at sq order k) k s = Ok s1.
Proof.
  intros Hlen Hk. unfold surprise_step.
  destruct (decide _) as [Hin | Hnin]; [| eauto].
  apply elem_of_dom in Hin. destruct Hin as [r Hr].
  unfold get_post. rewrite Hr. simpl.
  destruct (lookup_lt_is_Some_2 (mean r) (k - 1)) as [m Hm].
  { rewrite (Hlen _ _ Hr). lia. }
  unfold index. rewrite Hm. simpl. eauto.
Qed.

Lemma surprise_upto_final (sq : list Z) (out : output) (order : nat)
    (s : list float64) :
  surprise_upto sq out order
    (Nat.max order 1 + (length sq - Nat.max order 1)) s ->
  length s = length sq
  /\ forall t, t < length sq -> s !! t = Some (surprise_at sq out order t).
Proof.
  intros [Hlen Hs]. split; [exact Hlen |].
  intros t Ht. rewrite (Hs t Ht).
  destruct (Nat.ltb_spec t (Nat.max order 1 + (length sq - Nat.max order 1)));
    [reflexivity | lia].
Qed.

Lemma compute_surprise_Ok (sq : list Z) (out : output) (order : nat)
    (s : list float64) :
  compute_surprise sq out order = Ok s ->
  length s = length sq
  /\ forall t, t < length sq -> s !! t = Some (surprise_at sq out order t).
Proof.
  intros Hrun. apply surprise_upto_final.
  unfold compute_surprise in Hrun.
  destruct order as [| order]; simpl Nat.eqb in Hrun; cbv iota zeta in Hrun.
  - change (range 1 (length sq)) with (seq (Nat.max 0 1) (length sq - Nat.max 0 1)) in Hrun.
    revert Hrun. apply for_each_seq_inv; [apply surprise_upto_init |].
    intros t s0 s1 Ht Hs0 Hb.
    apply bind_Ok in Hb. destruct Hb as [st [Hst Hb]]. apply index_Ok in Hst.
    apply (surprise_step_Ok sq out 0 t s0 s1); [| exact Hs0 |].
    + split; [lia |]. apply lookup_lt_Some in Hst. exact Hst.
    + rewrite (pattern_at_order0 sq t st Hst). exact Hb.
  - assert (Nat.max (S order) 1 = S order) as Hmax by lia.
    pose proof (surprise_upto_init sq out (S order)) as Hinit.
    rewrite Hmax in *. unfold range in Hrun.
    revert Hrun. apply for_each_seq_inv; [exact Hinit |].
    intros t s0 s1 Ht Hs0 Hb.
    apply (surprise_step_Ok sq out (S order) t s0 s1); [lia | exact Hs0 | exact Hb].
Qed.

Lemma compute_surprise_total (sq : list Z) (out : output) (order : nat) :
  map_Forall (fun _ r => length (mean r) = length sq) (post out) ->
  exists s, compute_surprise sq out order = Ok s.
Proof.
  intros Hlen. unfold compute_surprise.
  destruct order as [| order]; simpl Nat.eqb; cbv iota zeta.
  - destruct (for_each_seq_total (fun _ _ => True)
                (fun t surprise =>
                   st <- index sq t ;;
                   surprise_step out [st] t surprise)
                (length sq - 1) 1 (scale NaN (np_ones (length sq)))) as [s [Hs _]];
      [exact I | | exists s; exact Hs].
    intros t s0 Ht _.
    destruct (lookup_lt_is_Some_2 sq t) as [st Hst]; [lia |].
    unfold index. rewrite Hst. simpl.
    rewrite <- (pattern_at_order0 sq t st Hst).
    destruct (surprise_step_total sq out 0 t s0 Hlen) as [s1 Hs1]; [lia |].
    exists s1. now split.
  - destruct (for_each_seq_total (fun _ _ => True)
                (fun t surprise =>
                   surprise_step out (pattern_at sq (S order) t) t surprise)
                (length sq - S order) (S order)
                (scale NaN (np_ones (length sq)))) as [s [Hs _]];
      [exact I | | exists s; exact Hs].
    intros t s0 Ht _.
    destruct (surprise_step_total sq out (S order) t s0 Hlen) as [s1 Hs1]; [lia |].
    exists s1. now split.
Qed.

Lemma surprise_at_cases (sq : list Z) (out : output) (order t : nat) :
  surprise_at sq out order t = NaN
  \/ exists r m,
       Nat.max order 1 <= t
       /\ post out !! pattern_at sq order t = Some r
       /\ mean r !! (t - 1) = Some m
       /\ surprise_at sq out order t = fneg (flog2 m).
Proof.
  unfold surprise_at.
  destruct (Nat.leb_spec (Nat.max order 1) t) as [Hle | Hlt]; [| now left].
  destruct (post out !! pattern_at sq order t) as [r |] eqn:Hr; [| now left].
  destruct (mean r !! (t - 1)) as [m |] eqn:Hm; [| now left].
  right. exists r, m. auto.
Qed.

(** C2, amended. With every posterior mean as long as the sequence,
    [compute_surprise] returns an array of the length of the sequence whose
    entry at a trial [t >= max(order, 1)] with a realised pattern that is a
    key is [-log2] of the mean of that pattern at trial [t - 1]; the entries
    of the trials before [max(order, 1)] (trial 0 included, also at order 0)
    and of the trials whose pattern is no key are NaN. *)
Theorem compute_surprise_shannon (sq : list Z) (out : output) (order : nat) :
  map_Forall (fun _ r => length (mean r) = length sq) (post out) ->
  exists s,
    compute_surprise sq out order = Ok s
    /\ length s = length sq
    /\ forall t, t < length sq ->
         (Nat.max order 1 <= t ->
          forall r, post out !! pattern_at sq order t = Some r ->
                    exists m, mean r !! (t - 1) = Some m
                              /\ s !! t = Some (fneg (flog2 m)))
         /\ (t < Nat.max order 1 -> s !! t = Some NaN)
         /\ (post out !! pattern_at sq order t = None -> s !! t = Some NaN).
Proof.
  intros Hlen.
  destruct (compute_surprise_total sq out order Hlen) as [s Hrun].
  destruct (compute_surprise_Ok sq out order s Hrun) as [Hls Hs].
  exists s. split; [exact Hrun | split; [exact Hls |]].
  intros t Ht. rewrite (Hs t Ht). unfold surprise_at. repeat split.
  - intros Hle r Hr. rewrite Hr.
    destruct (Nat.leb_spec (Nat.max order 1) t); [| lia].
    destruct (lookup_lt_is_Some_2 (mean r) (t - 1)) as [m Hm].
    { rewrite (Hlen _ _ Hr). lia. }
    exists m. rewrite Hm. auto.
  - intros Hlt. destruct (Nat.leb_spec (Nat.max order 1) t); [lia | reflexivity].
  - intros Hnone. rewrite Hnone. now destruct (Nat.max order 1 <=? t).
Qed.

(** C2 on the sequence 0, 1, 0 at order 1. *)
Lemma compute_surprise_shannon_witness :
  exists s,
    compute_surprise [0; 1; 0]%Z example_out_order1 1 = Ok s
    /\ length s = 3
    /\ forall t, t < 3 ->
         (Nat.max 1 1 <= t ->
          forall r, post example_out_order1 !! pattern_at [0; 1; 0]%Z 1 t = Some r ->
                    exists m, mean r !! (t - 1) = Some m
                              /\ s !! t = Some (fneg (flog2 m)))
         /\ (t < Nat.max 1 1 -> s !! t = Some NaN)
         /\ (post example_out_order1 !! pattern_at [0; 1; 0]%Z 1 t = None ->
             s !! t = Some NaN).
Proof.
  apply (compute_surprise_shannon [0; 1; 0]%Z example_out_order1 1).
  apply map_Forall_insert_2; [reflexivity |].
  apply map_Forall_singleton. reflexivity.
Defined.

Lemma neg_log2_half : fneg (flog2 (Fin (1 / 2))) = Fin 1.
Proof.
  unfold flog2, Rpos. destruct (Rlt_dec 0 (1 / 2)) as [_ | H]; [| lra].
  simpl. f_equal.
  replace (1 / 2)%R with (/ 2)%R by lra.
  rewrite ln_Rinv by lra.
  assert (0 < ln 2)%R by (pose proof ln_lt_2; lra).
  field. lra.
Qed.

(** C2 as stated fails at order 0 on the sequence 0, 1: trial 0 is not below
    the order and its pattern is a key, yet its entry is NaN, which is
    [-log2] of no entry of the mean. *)
Lemma compute_surprise_order0_trial0 :
  compute_surprise [0; 1]%Z example_out_order0 0 = Ok [NaN; Fin 1]
  /\ (0 <= 0 < length [0; 1]%Z
      /\ post example_out_order0 !! pattern_at [0; 1]%Z 0 0
         = Some (constant_posterior 2 (1 / 2) (1 / 4)))
  /\ Forall (fun m => fneg (flog2 m) <> NaN)
            (mean (constant_posterior 2 (1 / 2) (1 / 4)))
  /\ ~ surprise_as_stated [0; 1]%Z example_out_order0 0 [NaN; Fin 1].
Proof.
  split; [| split; [| split]].
  - rewrite <- neg_log2_half. vm_compute. reflexivity.
  - split; [simpl; lia |]. vm_compute. reflexivity.
  - cbn [mean constant_posterior replicate].
    repeat constructor; rewrite neg_log2_half; discriminate.
  - intros H.
    destruct (H 0 (constant_posterior 2 (1 / 2) (1 / 4))) as [t' [m [Ht' _]]].
    + simpl. lia.
    + vm_compute. reflexivity.
    + discriminate.
Qed.

Lemma neg_log2_nonneg (m : float64) :
  not_above_one m -> fneg (flog2 m) = NaN \/ fnonneg (fneg (flog2 m)).
Proof.
  destruct m as [| [|] | x]; simpl; intros Hm; try (now left); try discriminate.
  unfold Rpos, Rzero.
  destruct (Rlt_dec 0 x) as [Hpos | Hnpos].
  - right. simpl.
    assert (ln x <= 0)%R as Hln.
    { rewrite <- ln_1. destruct Hm as [Hlt | ->]; [| lra].
      left. now apply ln_increasing. }
    assert (0 < ln 2)%R as H2 by (pose proof ln_lt_2; lra).
    assert (0 <= - ln x / ln 2)%R as Hq.
    { apply Rmult_le_pos; [lra |]. left. now apply Rinv_0_lt_compat. }
    replace (- (ln x / ln 2))%R with (- ln x / ln 2)%R by (field; lra).
    exact Hq.
  - destruct (Req_dec_T x 0); simpl; [now right | now left].
Qed.

(** C8, amended. When no posterior mean exceeds one, every entry of the array
    [compute_surprise] returns is NaN or a value that is at least zero, and
    every entry at a trial below [order] is NaN. *)
Theorem compute_surprise_nonneg
    (sq : list Z) (out : output) (order : nat) (s : list float64) :
  map_Forall (fun _ r => Forall not_above_one (mean r)) (post out) ->
  compute_surprise sq out order = Ok s ->
  forall t x, s !! t = Some x ->
    (x = NaN \/ fnonneg x) /\ (t < order -> x = NaN).
Proof.
  intros Hmean Hrun t x Hx.
  destruct (compute_surprise_Ok sq out order s Hrun) as [Hls Hs].
  assert (t < length sq) as Ht by (rewrite <- Hls; eapply lookup_lt_Some; eauto).
  rewrite (Hs t Ht) in Hx. injection Hx as <-.
  destruct (surprise_at_cases sq out order t) as [-> | [r [m [Hle [Hr [Hm ->]]]]]].
  - split; [now left | reflexivity].
  - split; [| lia].
    apply neg_log2_nonneg.
    pose proof (Hmean _ _ Hr) as Hall. simpl in Hall.
    rewrite Forall_lookup in Hall. exact (Hall _ _ Hm).
Qed.

(** C8 on the sequence 0, 1, 0 at order 1, at trial 2. *)
Lemma compute_surprise_nonneg_witness :
  (fneg (flog2 (Fin (1 / 4))) = NaN \/ fnonneg (fneg (flog2 (Fin (1 / 4)))))
  /\ (2 < 1 -> fneg (flog2 (Fin (1 / 4))) = NaN).
Proof.
  apply (compute_surprise_nonneg [0; 1; 0]%Z example_out_order1 1
           [NaN; fneg (flog2 (Fin (1 / 2))); fneg (flog2 (Fin (1 / 4)))]).
  - apply map_Forall_insert_2; [| apply map_Forall_singleton];
      simpl; repeat constructor; simpl; lra.
  - vm_compute. reflexivity.
  - reflexivity.
Defined.

Lemma neg_log2_two : fneg (flog2 (Fin 2)) = Fin (-1).
Proof.
  unfold flog2, Rpos. destruct (Rlt_dec 0 2) as [_ | H]; [| lra].
  simpl. f_equal.
  assert (0 < ln 2)%R by (pose proof ln_lt_2; lra).
  field. lra.
Qed.

(** C8 as stated fails on an output whose posterior mean is 2: on the
    sequence 0, 0 at order 0 the surprise of trial 1 is [-log2 2 = -1]. *)
Lemma compute_surprise_mean_above_one :
  compute_surprise [0; 0]%Z example_out_above_one 0 = Ok [NaN; Fin (-1)]
  /\ ~ (Fin (-1) = NaN \/ fnonneg (Fin (-1))).
Proof.
  split.
  - rewrite <- neg_log2_two. vm_compute. reflexivity.
  - intros [H | H]; [discriminate | simpl in H; lra].
Qed.

(** ** Predictions for binary sequences *)

Section BinaryPredictions.
Context {collab : Collaborators}.

Lemma set_item_Ok (s : output) (k : string) (a : list float64) (t : nat)
    (v : float64) :
  named s !! k = Some (PyArr a) -> t < length a ->
  set_item s k t v = Ok (set_named k (PyArr (<[t := v]> a)) s).
Proof.
  intros Hk Ht. unfold set_item, get_named. rewrite Hk. simpl.
  destruct (Nat.ltb_spec t (length a)); [reflexivity | lia].
Qed.

Lemma set_both_Ok (sq : list Z) (s : output) (cp csd : list float64)
    (t : nat) (x y : float64) :
  prediction_arrays sq s cp csd -> t < length sq ->
  exists s1,
    (out <- set_item s "current_prediction_p0" t x ;;
     set_item out "current_prediction_SDp0" t y) = Ok s1
    /\ post s1 = post s
    /\ prediction_arrays sq s1 (<[t := x]> cp) (<[t := y]> csd).
Proof.
  intros (Hcp & Hcsd & Hlcp & Hlcsd) Ht.
  rewrite (set_item_Ok s _ cp t x Hcp) by lia. simpl.
  erewrite (set_item_Ok _ _ csd t y); [| by simplify_map_eq | lia].
  eexists. split; [reflexivity |]. split; [reflexivity |].
  unfold prediction_arrays. simpl. rewrite !length_insert.
  repeat split; try assumption; by simplify_map_eq.
Qed.

Lemma predictions_upto_extend (out0 : output) (sq : list Z) (order : nat)
    (Nitem : Z) (p0 sd0 : float64) (k : nat) (s s1 : output)
    (cp csd : list float64) (x y : float64) :
  k < length sq ->
  post s = post out0 ->
  prediction_arrays sq s cp csd ->
  (forall t, order <= t < k ->
     exists x y, cp !! t = Some x /\ csd !! t = Some y
                 /\ current_prediction_at out0 sq order Nitem p0 sd0 t x y) ->
  post s1 = post s ->
  prediction_arrays sq s1 (<[k := x]> cp) (<[k := y]> csd) ->
  current_prediction_at out0 sq order Nitem p0 sd0 k x y ->
  predictions_upto out0 sq order Nitem p0 sd0 (1 + k) s1.
Proof.
  intros Hk Hpost (_ & _ & Hlcp & Hlcsd) Hdone Hpost1 Harr Hat.
  split; [congruence |].
  exists (<[k := x]> cp), (<[k := y]> csd). split; [exact Harr |].
  intros t Ht. destruct (decide (t = k)) as [-> | Hne].
  - exists x, y. rewrite !list_lookup_insert_eq by lia. auto.
  - rewrite !list_lookup_insert_ne by congruence. apply Hdone. lia.
Qed.

Lemma add_predictions_step (out0 : output) (sq : list Z) (order : nat)
    (Nitem : Z) (p0 sd0 : float64) (t : nat) (s s1 : output) :
  t < length sq ->
  predictions_upto out0 sq order Nitem p0 sd0 t s ->
  (let context := slice sq (t - order + 1) (t + 1) in
   if existsb (fun x => (x =? Nitem)%Z) context then
     out <- set_item s "current_prediction_p0" t p0 ;;
     set_item out "current_prediction_SDp0" t sd0
   else
     r <- get_post s (context ++ [0%Z]) ;;
     x <- index (mean r) t ;;
     out <- set_item s "current_prediction_p0" t x ;;
     r <- get_post out (context ++ [0%Z]) ;;
     x <- index (SD r) t ;;
     set_item out "current_prediction_SDp0" t x) = Ok s1 ->
  predictions_upto out0 sq order Nitem p0 sd0 (1 + t) s1.
Proof.
  intros Ht (Hpost & cp & csd & Harr & Hdone) Hrun. cbv zeta in Hrun.
  fold (context_at sq order t) in Hrun.
  fold (has_pause Nitem (context_at sq order t)) in Hrun.
  destruct (has_pause Nitem (context_at sq order t)) eqn:Hpause.
  - destruct (set_both_Ok sq s cp csd t p0 sd0 Harr Ht) as (s2 & Hs2 & Hp2 & Ha2).
    rewrite Hs2 in Hrun. injection Hrun as <-.
    apply (predictions_upto_extend out0 sq order Nitem p0 sd0 t s s2 cp csd p0 sd0);
      try assumption.
    unfold current_prediction_at. rewrite Hpause. auto.
  - unfold get_post in Hrun at 1. rewrite Hpost in Hrun.
    destruct (post out0 !! (context_at sq order t ++ [0%Z])) as [r |] eqn:Hr;
      [| discriminate].
    simpl in Hrun.
    destruct (index (mean r) t) as [x |] eqn:Hx; [| discriminate].
    simpl in Hrun. apply index_Ok in Hx.
    destruct Harr as (Hcp & Hcsd & Hlcp & Hlcsd).
    rewrite (set_item_Ok s _ cp t x Hcp) in Hrun by lia. simpl in Hrun.
    unfold get_post in Hrun. simpl in Hrun. rewrite Hpost, Hr in Hrun.
    simpl in Hrun.
    destruct (index (SD r) t) as [y |] eqn:Hy; [| discriminate].
    simpl in Hrun. apply index_Ok in Hy.
    erewrite (set_item_Ok _ _ csd t y) in Hrun; [| by simplify_map_eq | lia].
    injection Hrun as <-.
    apply (predictions_upto_extend out0 sq order Nitem p0 sd0 t s _ cp csd x y);
      try assumption; try reflexivity.
    + unfold prediction_arrays; auto.
    + unfold prediction_arrays. simpl. rewrite !length_insert.
      repeat split; try assumption; by simplify_map_eq.
    + unfold current_prediction_at. rewrite Hpause. eauto.
Qed.

Lemma add_predictions_step0 (out0 : output) (sq : list Z) (t : nat)
    (s s1 : output) :
  t < length sq ->
  (post s = post out0 /\ exists cp csd, prediction_arrays sq s cp csd) ->
  (r <- get_post s [0%Z] ;;
   x <- index (mean r) t ;;
   out <- set_item s "current_prediction_p0" t x ;;
   r <- get_post out [0%Z] ;;
   x <- index (SD r) t ;;
   set_item out "current_prediction_SDp0" t x) = Ok s1 ->
  post s1 = post out0 /\ exists cp csd, prediction_arrays sq s1 cp csd.
Proof.
  intros Ht (Hpost & cp & csd & Hcp & Hcsd & Hlcp & Hlcsd) Hrun.
  apply bind_Ok in Hrun. destruct Hrun as (r & _ & Hrun).
  apply bind_Ok in Hrun. destruct Hrun as (x & _ & Hrun).
  rewrite (set_item_Ok s _ cp t x Hcp) in Hrun by lia. simpl in Hrun.
  apply bind_Ok in Hrun. destruct Hrun as (r' & _ & Hrun).
  apply bind_Ok in Hrun. destruct Hrun as (y & _ & Hrun).
  erewrite (set_item_Ok _ _ csd t y) in Hrun; [| by simplify_map_eq | lia].
  injection Hrun as <-. split; [exact Hpost |].
  exists (<[t := x]> cp), (<[t := y]> csd).
  unfold prediction_arrays. simpl. rewrite !length_insert.
  repeat split; try assumption; by simplify_map_eq.
Qed.

Lemma assign_from1_Ok (s : output) (k : string) (a src : list float64) :
  named s !! k = Some (PyArr a) ->
  length src = length a - 1 ->
  assign_from1 s k src = Ok (set_named k (PyArr (take 1 a ++ src)) s).
Proof.
  intros Hk Hl. unfold assign_from1, get_named. rewrite Hk. simpl.
  rewrite length_drop, Hl, Nat.eqb_refl. reflexivity.
Qed.

Lemma all_but_last_length (a : list float64) :
  length (all_but_last a) = length a - 1.
Proof. unfold all_but_last. rewrite length_take. lia. Qed.

(** What [add_predictions] leaves in the output of a binary sequence. *)
Lemma add_predictions_binary
    (out : output) (sq : list Z) (order : nat) (options : gmap string pyval)
    (ObsType : string) (Nitem : Z) (out' : output) :
  (Nitem <= 2)%Z ->
  add_predictions out sq order options ObsType Nitem = Ok out' ->
  exists p0 sd0 cp csd,
    base_prior order options ObsType = Ok (p0, sd0)
    /\ length cp = length sq /\ length csd = length sq
    /\ named out' !! "current_prediction_p0" = Some (PyArr cp)
    /\ named out' !! "current_prediction_SDp0" = Some (PyArr csd)
    /\ named out' !! "prior_prediction_p0"
       = Some (PyArr (take 1 (scale p0 (np_ones (length sq))) ++ all_but_last cp))
    /\ named out' !! "prior_prediction_SDp0"
       = Some (PyArr (take 1 (scale sd0 (np_ones (length sq))) ++ all_but_last csd))
    /\ (0 < order ->
        forall t, order <= t < length sq ->
          exists x y,
            cp !! t = Some x /\ csd !! t = Some y
            /\ current_prediction_at out sq order Nitem p0 sd0 t x y).
Proof.
  intros HN Hrun. unfold add_predictions in Hrun.
  destruct (Z.ltb_spec 2 Nitem) as [Hlt | _]; [lia |].
  apply bind_Ok in Hrun. destruct Hrun as ([p0 sd0] & Hbase & Hrun).
  cbv zeta in Hrun. simpl fst in Hrun. simpl snd in Hrun.
  apply bind_Ok in Hrun. destruct Hrun as (sl & Hloop & Hrun).
  set (out1 := set_named "current_prediction_SDp0"
                 (PyArr (scale sd0 (np_ones (length sq))))
                 (set_named "current_prediction_p0"
                    (PyArr (scale p0 (np_ones (length sq)))) out)) in Hloop.
  assert (prediction_arrays sq out1
            (scale p0 (np_ones (length sq))) (scale sd0 (np_ones (length sq))))
    as Hinit.
  { unfold prediction_arrays, out1. simpl.
    unfold scale, np_ones. rewrite !length_map, !length_replicate.
    repeat split; by simplify_map_eq. }
  assert (post sl = post out
          /\ exists cp csd,
               prediction_arrays sq sl cp csd
               /\ (0 < order ->
                   forall t, order <= t < length sq ->
                     exists x y,
                       cp !! t = Some x /\ csd !! t = Some y
                       /\ current_prediction_at out sq order Nitem p0 sd0 t x y))
    as (Hpost & cp & csd & Harr & Hat).
  { destruct order as [| order]; simpl Nat.eqb in Hloop; cbv iota in Hloop.
    - unfold range in Hloop.
      apply (for_each_seq_inv
               (fun _ s => post s = post out
                           /\ exists cp csd, prediction_arrays sq s cp csd))
        in Hloop.
      + destruct Hloop as (Hp & cp & csd & Ha).
        split; [exact Hp |]. exists cp, csd. split; [exact Ha | lia].
      + split; [reflexivity | eauto].
      + intros t s s1 Ht Hs Hb.
        apply (add_predictions_step0 out sq t s s1); [lia | exact Hs | exact Hb].
    - unfold range in Hloop.
      apply (for_each_seq_inv (predictions_upto out sq (S order) Nitem p0 sd0))
        in Hloop.
      + destruct Hloop as (Hp & cp & csd & Ha & Hdone).
        split; [exact Hp |]. exists cp, csd. split; [exact Ha |].
        intros _ t Ht. apply Hdone. lia.
      + split; [reflexivity |].
        exists (scale p0 (np_ones (length sq))), (scale sd0 (np_ones (length sq))).
        split; [exact Hinit | intros t Ht; lia].
      + intros t s s1 Ht Hs Hb.
        apply (add_predictions_step out sq (S order) Nitem p0 sd0 t s s1);
          [lia | exact Hs | exact Hb]. }
  destruct Harr as (Hcp & Hcsd & Hlcp & Hlcsd).
  unfold get_named in Hrun at 1. simpl in Hrun.
  rewrite !lookup_insert_ne in Hrun by discriminate.
  rewrite Hcp in Hrun. simpl in Hrun.
  erewrite (assign_from1_Ok _ _ (scale p0 (np_ones (length sq)))) in Hrun;
    [| by simplify_map_eq
     | rewrite all_but_last_length, scale_ones_length; lia ].
  simpl in Hrun.
  unfold get_named in Hrun at 1. simpl in Hrun.
  rewrite !lookup_insert_ne in Hrun by discriminate.
  rewrite Hcsd in Hrun. simpl in Hrun.
  erewrite (assign_from1_Ok _ _ (scale sd0 (np_ones (length sq)))) in Hrun;
    [| by simplify_map_eq
     | rewrite all_but_last_length, scale_ones_length; lia ].
  injection Hrun as <-.
  exists p0, sd0, cp, csd. simpl.
  repeat split; try assumption; try (by simplify_map_eq).
Qed.

End BinaryPredictions.

Lemma fmul_1_r (x : float64) : fmul x (Fin 1) = x.
Proof.
  destruct x as [| s | x]; simpl; [reflexivity | |].
  - unfold Rzero, Rpos.
    destruct (Req_dec_T 1 0); [lra |]. destruct (Rlt_dec 0 1); [reflexivity | lra].
  - now rewrite Rmult_1_r.
Qed.




(** C3. For an order above zero and two items, at every trial [t >= order]:
    when an item of the trailing window, the [order] items of the context
    that ends at trial [t] (the trials [t - order + 1 .. t]), is the pause
    value [Nitem], the current prediction and its SD are the mean and the SD
    of the base prior; otherwise they are the posterior mean and SD, at
    trial [t], of the pattern made of this context followed by item 0. *)
Theorem current_prediction_pause_fallback
    {collab : Collaborators}
    (out : output) (sq : list Z) (order : nat) (options : gmap string pyval)
    (ObsType : string) (out' : output) :
  0 < order ->
  add_predictions out sq order options ObsType 2 = Ok out' ->
  exists p0 sd0 cp csd,
    base_prior order options ObsType = Ok (p0, sd0)
    /\ named out' !! "current_prediction_p0" = Some (PyArr cp)
    /\ named out' !! "current_prediction_SDp0" = Some (PyArr csd)
    /\ forall t, order <= t < length sq ->
         exists x y,
           cp !! t = Some x /\ csd !! t = Some y
           /\ if has_pause 2 (context_at sq order t) then x = p0 /\ y = sd0
              else exists r,
                     post out !! (context_at sq order t ++ [0%Z]) = Some r
                     /\ mean r !! t = Some x /\ SD r !! t = Some y.
Proof.
  intros Horder Hrun.
  destruct (add_predictions_binary out sq order options ObsType 2 out'
              ltac:(lia) Hrun)
    as (p0 & sd0 & cp & csd & Hbase & _ & _ & Hcp & Hcsd & _ & _ & Hat).
  exists p0, sd0, cp, csd. repeat split; try assumption.
  intros t Ht. exact (Hat Horder t Ht).
Qed.

(** C3 on the sequence 0, 1, 2 at order 1: a posterior lookup at trial 1, a
    pause at trial 2. *)
Lemma current_prediction_pause_fallback_witness :
  exists out',
    add_predictions (collab := example_collaborators)
      example_out_order1 [0; 1; 2]%Z 1 ∅ "hmm" 2 = Ok out'
    /\ exists p0 sd0 cp csd,
         base_prior (collab := example_collaborators) 1 ∅ "hmm" = Ok (p0, sd0)
         /\ named out' !! "current_prediction_p0" = Some (PyArr cp)
         /\ named out' !! "current_prediction_SDp0" = Some (PyArr csd)
         /\ forall t, 1 <= t < length [0; 1; 2]%Z ->
              exists x y,
                cp !! t = Some x /\ csd !! t = Some y
                /\ if has_pause 2 (context_at [0; 1; 2]%Z 1 t)
                   then x = p0 /\ y = sd0
                   else exists r,
                          post example_out_order1
                            !! (context_at [0; 1; 2]%Z 1 t ++ [0%Z]) = Some r
                          /\ mean r !! t = Some x /\ SD r !! t = Some y.
Proof.
  eexists. split; [vm_compute; reflexivity |].
  apply (current_prediction_pause_fallback (collab := example_collaborators)
           example_out_order1 [0; 1; 2]%Z 1 ∅ "hmm").
  - lia.
  - vm_compute. reflexivity.
Defined.

(** The scenario of the specification, on the sequence 0, 2 at order 1:
    the item of trial 1 is the pause, the pattern (2, 0) is no key of the
    output, and the prediction of trial 1 is the base prior. *)
Lemma current_prediction_pause_scenario :
  exists out' p0 sd0 cp csd,
    add_predictions (collab := example_collaborators)
      example_out_order1 [0; 2]%Z 1 ∅ "hmm" 2 = Ok out'
    /\ base_prior (collab := example_collaborators) 1 ∅ "hmm" = Ok (p0, sd0)
    /\ named out' !! "current_prediction_p0" = Some (PyArr cp)
    /\ named out' !! "current_prediction_SDp0" = Some (PyArr csd)
    /\ has_pause 2 (context_at [0; 2]%Z 1 1) = true
    /\ post example_out_order1 !! (context_at [0; 2]%Z 1 1 ++ [0%Z]) = None
    /\ cp !! 1 = Some p0 /\ csd !! 1 = Some sd0.
Proof.
  do 5 eexists.
  split; [vm_compute; reflexivity |].
  split; [vm_compute; reflexivity |].
  split; [reflexivity |]. split; [reflexivity |].
  split; [reflexivity |]. split; [vm_compute; reflexivity |].
  split; reflexivity.
Qed.

(** ** Values of the special functions

    The functional equations of the two limits, and from them the values at
    1, 2 and 3. *)

Section SpecialFunctions.
Local Open Scope R_scope.

Lemma lim_seq_eq u l : Un_cv u l -> lim_seq u = l.
Proof.
  intros H. unfold lim_seq.
  assert (Un_cv u (epsilon (inhabits 0) (fun l => Un_cv u l))) as H'.
  { apply epsilon_spec. now exists l. }
  eapply UL_sequence; eauto.
Qed.

Lemma Un_cv_ext u v l : (forall n, u n = v n) -> Un_cv u l -> Un_cv v l.
Proof.
  intros E H eps He. destruct (H eps He) as [N HN]. exists N. intros n Hn.
  rewrite <- E. now apply HN.
Qed.

Lemma inv_shift_cv c : 0 < c -> Un_cv (fun n => / (c + INR n)) 0.
Proof.
  intros Hc eps He.
  destruct (archimed_cor1 eps He) as [N [HN HN0]].
  exists N. intros n Hn. unfold R_dist. rewrite Rminus_0_r.
  assert (0 < INR N) as HN1 by (apply lt_0_INR; lia).
  assert (INR N <= INR n) as HNn by (apply le_INR; lia).
  assert (0 < c + INR n) as Hcn by lra.
  rewrite Rabs_pos_eq by (left; now apply Rinv_0_lt_compat).
  apply Rle_lt_trans with (/ INR N); [| exact HN].
  apply Rinv_le_contravar; lra.
Qed.

Lemma ln_1p_le x : 0 <= x -> 0 <= ln (1 + x) <= x.
Proof.
  intros Hx. split.
  - rewrite <- ln_1. destruct Hx as [Hx | <-].
    + left. apply ln_increasing; lra.
    + rewrite Rplus_0_r. lra.
  - destruct (Rle_or_lt (ln (1 + x)) x) as [H | H]; [exact H |].
    exfalso. apply exp_increasing in H.
    rewrite exp_ln in H by lra.
    pose proof (exp_ineq1_le x). lra.
Qed.

Lemma ln_shift_cv c : 0 < c -> Un_cv (fun n => ln (INR n) - ln (c + INR n)) 0.
Proof.
  intros Hc eps He.
  assert (0 < eps / c) as He' by (apply Rdiv_lt_0_compat; lra).
  destruct (archimed_cor1 _ He') as [N [HN HN0]].
  exists N. intros n Hn. unfold R_dist. rewrite Rminus_0_r.
  assert (0 < INR N) as HN1 by (apply lt_0_INR; lia).
  assert (INR N <= INR n) as HNn by (apply le_INR; lia).
  assert (0 < INR n) as Hn0 by lra.
  assert (c + INR n = INR n * (1 + c / INR n)) as -> by (field; lra).
  assert (0 < c / INR n) as Hq by (apply Rdiv_lt_0_compat; lra).
  rewrite ln_mult by lra.
  destruct (ln_1p_le (c / INR n)) as [Hl1 Hl2]; [lra |].
  replace (ln (INR n) - (ln (INR n) + ln (1 + c / INR n))) with (- ln (1 + c / INR n)) by ring.
  rewrite Rabs_Ropp, Rabs_pos_eq by exact Hl1.
  apply Rle_lt_trans with (c / INR n); [exact Hl2 |].
  apply Rle_lt_trans with (c * / INR N).
  - unfold Rdiv. apply Rmult_le_compat_l; [lra |]. apply Rinv_le_contravar; lra.
  - apply Rmult_lt_reg_r with (/ c); [apply Rinv_0_lt_compat; lra |].
    replace (c * / INR N * / c) with (/ INR N) by (field; lra).
    exact HN.
Qed.

Lemma gammaln_seq_succ x n :
  0 < x ->
  gammaln_seq (x + 1) n =
  gammaln_seq x n + ln x + (ln (INR n) - ln (x + 1 + INR n)).
Proof.
  intros Hx. unfold gammaln_seq.
  assert (sum_f_R0 (fun k => ln (x + 1 + INR k)) n =
          sum_f_R0 (fun k => ln (x + INR k)) n - ln x + ln (x + 1 + INR n)) as ->.
  { induction n as [| n IH].
    - simpl. rewrite !Rplus_0_r. ring.
    - rewrite !tech5, IH. rewrite (S_INR n).
      replace (x + (INR n + 1)) with (x + 1 + INR n) by ring. ring. }
  ring.
Qed.

Lemma gammaln_seq_step x l :
  0 < x -> Un_cv (gammaln_seq x) l -> Un_cv (gammaln_seq (x + 1)) (l + ln x).
Proof.
  intros Hx H.
  apply Un_cv_ext with
    (u := fun n => (gammaln_seq x n + ln x) + (ln (INR n) - ln (x + 1 + INR n))).
  - intros n. now rewrite gammaln_seq_succ.
  - replace (l + ln x) with ((l + ln x) + 0) by ring.
    apply CV_plus with (An := fun n => gammaln_seq x n + ln x)
                       (Bn := fun n => ln (INR n) - ln (x + 1 + INR n)).
    + apply CV_plus with (An := gammaln_seq x) (Bn := fun _ => ln x); [exact H |].
      intros eps He. exists 0%nat. intros. unfold R_dist.
      rewrite Rminus_diag, Rabs_R0. exact He.
    + apply ln_shift_cv. lra.
Qed.

Lemma sum_ln_fact n :
  sum_f_R0 (fun k => ln (1 + INR k)) n = ln (INR (fact (S n))).
Proof.
  induction n as [| n IH].
  - simpl. now rewrite Rplus_0_r.
  - rewrite tech5, IH.
    change (fact (S (S n))) with (S (S n) * fact (S n))%nat.
    rewrite mult_INR, ln_mult.
    + rewrite (S_INR (S n)). rewrite (Rplus_comm 1). ring.
    + apply lt_0_INR. lia.
    + apply INR_fact_lt_0.
Qed.

Lemma gammaln_seq_1 : Un_cv (gammaln_seq 1) 0.
Proof.
  apply Un_cv_ext with (u := fun n => ln (INR n) - ln (1 + INR n)).
  - intros n. unfold gammaln_seq. rewrite sum_ln_fact.
    change (fact (S n)) with (S n * fact n)%nat.
    rewrite mult_INR, ln_mult, S_INR.
    + rewrite (Rplus_comm 1). ring.
    + apply lt_0_INR. lia.
    + apply INR_fact_lt_0.
  - apply ln_shift_cv. lra.
Qed.

Lemma gammaln_1 : gammaln 1 = 0.
Proof. apply lim_seq_eq, gammaln_seq_1. Qed.

Lemma gammaln_seq_2 : Un_cv (gammaln_seq 2) 0.
Proof.
  replace 2 with (1 + 1) by ring. replace 0 with (0 + ln 1) by (rewrite ln_1; ring).
  apply gammaln_seq_step; [lra | exact gammaln_seq_1].
Qed.

Lemma gammaln_2 : gammaln 2 = 0.
Proof. apply lim_seq_eq, gammaln_seq_2. Qed.

Lemma gammaln_3 : gammaln 3 = ln 2.
Proof.
  apply lim_seq_eq.
  replace 3 with (2 + 1) by ring. replace (ln 2) with (0 + ln 2) by ring.
  apply gammaln_seq_step; [lra | exact gammaln_seq_2].
Qed.

Lemma psi_seq_succ x n :
  0 < x -> psi_seq (x + 1) n = psi_seq x n + (/ x - / (x + 1 + INR n)).
Proof.
  intros Hx. unfold psi_seq. induction n as [| n IH].
  - simpl. rewrite !Rplus_0_r. ring.
  - rewrite !tech5, IH. rewrite (S_INR n).
    replace (x + (INR n + 1)) with (x + 1 + INR n) by ring. ring.
Qed.

Lemma psi_seq_step x l :
  0 < x -> Un_cv (psi_seq x) l -> Un_cv (psi_seq (x + 1)) (l + / x).
Proof.
  intros Hx H.
  apply Un_cv_ext with
    (u := fun n => (psi_seq x n + / x) - / (x + 1 + INR n)).
  - intros n. rewrite psi_seq_succ by exact Hx. ring.
  - replace (l + / x) with ((l + / x) - 0) by ring.
    apply CV_minus with (An := fun n => psi_seq x n + / x)
                        (Bn := fun n => / (x + 1 + INR n)).
    + apply CV_plus with (An := psi_seq x) (Bn := fun _ => / x); [exact H |].
      intros eps He. exists 0%nat. intros. unfold R_dist.
      rewrite Rminus_diag, Rabs_R0. exact He.
    + apply inv_shift_cv. lra.
Qed.

Lemma psi_seq_1 : Un_cv (psi_seq 1) 0.
Proof.
  apply Un_cv_ext with (u := fun _ => 0).
  - intros n. unfold psi_seq. induction n as [| n IH].
    + simpl. rewrite Rplus_0_r. ring.
    + rewrite tech5, <- IH. rewrite (S_INR (S n)), (S_INR n). 
      replace (1 + (INR n + 1)) with (INR n + 1 + 1) by ring. ring.
  - intros eps He. exists 0%nat. intros. unfold R_dist.
    rewrite Rminus_diag, Rabs_R0. exact He.
Qed.

Lemma psi_seq_2 : Un_cv (psi_seq 2) 1.
Proof.
  replace 2 with (1 + 1) by ring. replace 1 with (0 + / 1) at 3 by (rewrite Rinv_1; ring).
  apply psi_seq_step; [lra | exact psi_seq_1].
Qed.

Lemma psi_1 : psi 1 = - euler_gamma.
Proof. unfold psi. rewrite (lim_seq_eq _ _ psi_seq_1). ring. Qed.

Lemma psi_2 : psi 2 = - euler_gamma + 1.
Proof. unfold psi. now rewrite (lim_seq_eq _ _ psi_seq_2). Qed.

Lemma psi_3 : psi 3 = - euler_gamma + 3 / 2.
Proof.
  assert (Un_cv (psi_seq (2 + 1)) (1 + / 2)) as H
    by (apply psi_seq_step; [lra | exact psi_seq_2]).
  replace (2 + 1) with 3 in H by ring.
  unfold psi. rewrite (lim_seq_eq _ _ H). field.
Qed.

Lemma ln_2_lt : ln 2 < 3 / 4.
Proof.
  destruct (Rlt_or_le (ln 2) (3 / 4)) as [H | H]; [exact H | exfalso].
  assert (exp (3 / 4) <= 2) as H2.
  { destruct H as [H | H].
    - left. apply exp_increasing in H. rewrite exp_ln in H by lra. exact H.
    - rewrite H, exp_ln by lra. lra. }
  pose proof (exp_ineq1_le (3 / 32)) as H3.
  assert (exp (3 / 4) = exp (3 / 32) ^ 8) as E.
  { replace (3 / 4) with (3/32 + (3/32 + (3/32 + (3/32 + (3/32 + (3/32 + (3/32 + 3/32))))))) by field.
    rewrite !exp_plus. ring. }
  assert ((1 + 3 / 32) ^ 8 <= exp (3 / 32) ^ 8) as H4.
  { apply pow_incr. lra. }
  assert (2 < (1 + 3 / 32) ^ 8) by (simpl; lra).
  lra.
Qed.

End SpecialFunctions.

(** ** Bayesian surprise *)

Lemma fold_fadd_Fin (l : list R) (a : R) :
  fold_left fadd (map Fin l) (Fin a) = Fin (fold_left Rplus l a).
Proof.
  revert a. induction l as [| x l IH]; intros a; simpl; [reflexivity | apply IH].
Qed.

Lemma fsum_Fin (l : list R) : fsum (map Fin l) = Fin (Rsum l).
Proof. apply fold_fadd_Fin. Qed.

Lemma fold_fadd_NaN (l : list float64) : fold_left fadd l NaN = NaN.
Proof. induction l as [| x l IH]; simpl; [reflexivity | exact IH]. Qed.

Lemma fsum_NaN_head (l : list float64) : fsum (NaN :: l) = NaN.
Proof. unfold fsum. simpl. apply fold_fadd_NaN. Qed.

Lemma fold_Rplus_ge (l : list R) (a : R) :
  Forall (fun x => (0 < x)%R) l -> (a <= fold_left Rplus l a)%R.
Proof.
  intros Hl. revert a. induction Hl as [| x l Hx _ IH]; intros a; simpl; [lra |].
  specialize (IH (a + x)%R). lra.
Qed.

Lemma Rsum_pos (l : list R) :
  0 < length l -> Forall (fun x => (0 < x)%R) l -> (0 < Rsum l)%R.
Proof.
  intros Hlen Hl. destruct Hl as [| x l Hx Hl]; [simpl in Hlen; lia |].
  unfold Rsum. simpl. pose proof (fold_Rplus_ge l (0 + x)%R Hl). lra.
Qed.

Lemma np_gammaln_Fin (x : R) : (0 < x)%R -> np_gammaln (Fin x) = Fin (gammaln x).
Proof.
  intros Hx. unfold np_gammaln, Rpos. destruct (Rlt_dec 0 x); [reflexivity | contradiction].
Qed.

Lemma np_psi_Fin (x : R) : (0 < x)%R -> np_psi (Fin x) = Fin (psi x).
Proof.
  intros Hx. unfold np_psi, Rpos. destruct (Rlt_dec 0 x); [reflexivity | contradiction].
Qed.

Lemma map_Fin_positive (f : float64 -> float64) (g : R -> R) (l : list R) :
  (forall x, (0 < x)%R -> f (Fin x) = Fin (g x)) ->
  Forall (fun x => (0 < x)%R) l ->
  map f (map Fin l) = map Fin (map g l).
Proof.
  intros Hfg Hl. induction Hl as [| x l Hx _ IH]; simpl; [reflexivity |].
  now rewrite Hfg, IH.
Qed.

Lemma forallb_fpos (l : list R) :
  Forall (fun x => (0 < x)%R) l -> forallb fpos (map Fin l) = true.
Proof.
  intros Hl. induction Hl as [| x l Hx _ IH]; simpl; [reflexivity |].
  rewrite IH. unfold Rpos. destruct (Rlt_dec 0 x); [reflexivity | contradiction].
Qed.

Lemma zip_with_Fin (f : float64 -> float64 -> float64) (g : R -> R -> R)
    (u v : list R) :
  (forall x y, f (Fin x) (Fin y) = Fin (g x y)) ->
  zip_with f (map Fin u) (map Fin v) = map Fin (zip_with g u v).
Proof.
  intros Hfg. revert v. induction u as [| x u IH]; intros [| y v]; simpl;
    try reflexivity.
  now rewrite Hfg, IH.
Qed.

Lemma KL_dirichlet_closed (a b : list R) :
  length a = length b -> 0 < length a ->
  Forall (fun x => (0 < x)%R) a -> Forall (fun x => (0 < x)%R) b ->
  KL_dirichlet (map Fin a) (map Fin b) = Ok (Fin (KL_closed_form a b)).
Proof.
  intros Hlen Hne Ha Hb. unfold KL_dirichlet.
  rewrite !length_map, Hlen, Nat.eqb_refl. simpl negb. cbv iota.
  rewrite (forallb_fpos a Ha), (forallb_fpos b Hb). simpl negb. cbv iota.
  rewrite !fsum_Fin.
  rewrite (np_psi_Fin (Rsum a)) by (apply Rsum_pos; assumption).
  rewrite (np_gammaln_Fin (Rsum a)) by (apply Rsum_pos; assumption).
  rewrite (np_gammaln_Fin (Rsum b)) by (apply Rsum_pos; [lia | assumption]).
  rewrite (map_Fin_positive np_gammaln gammaln a np_gammaln_Fin Ha).
  rewrite (map_Fin_positive np_gammaln gammaln b np_gammaln_Fin Hb).
  rewrite (map_Fin_positive (fun x => fsub (np_psi x) (Fin (psi (Rsum a))))
             (fun x => (psi x - psi (Rsum a))%R) a) by
    (try exact Ha; intros x Hx; now rewrite np_psi_Fin).
  rewrite (zip_with_Fin fsub Rminus) by reflexivity.
  unfold np_dot. rewrite !length_map, length_zip_with, Hlen, Nat.min_id.
  rewrite <- Hlen, Nat.eqb_refl.
  rewrite (zip_with_Fin fmul Rmult) by reflexivity.
  rewrite !fsum_Fin. reflexivity.
Qed.

Lemma KL_row_upto_length (A : list (list R)) (k : nat) :
  length (KL_row_upto A k) = length A.
Proof. unfold KL_row_upto. now rewrite length_map, length_seq. Qed.

Lemma KL_row_upto_lookup (A : list (list R)) (k j : nat) :
  j < length A ->
  KL_row_upto A k !! j
  = Some (if (1 <=? j) && (j <? k)
          then Fin (KL_closed_form (row A (j - 1)) (row A j))
          else NaN).
Proof.
  intros Hj. unfold KL_row_upto. rewrite list_lookup_fmap.
  rewrite lookup_seq_lt by exact Hj. reflexivity.
Qed.

Lemma nan_row_eq (A : list (list R)) :
  scale NaN (np_ones (length A)) = KL_row_upto A 1.
Proof.
  apply list_eq. intros j. destruct (Nat.lt_ge_cases j (length A)) as [Hj | Hj].
  - rewrite nan_array_lookup, KL_row_upto_lookup by exact Hj.
    destruct (Nat.leb_spec 1 j), (Nat.ltb_spec j 1); simpl; try reflexivity; lia.
  - rewrite !lookup_ge_None_2; [reflexivity | |].
    + now rewrite KL_row_upto_length.
    + now rewrite nan_array_length.
Qed.

Lemma KL_row_upto_step (A : list (list R)) (k : nat) :
  1 <= k < length A ->
  <[k := Fin (KL_closed_form (row A (k - 1)) (row A k))]> (KL_row_upto A k)
  = KL_row_upto A (1 + k).
Proof.
  intros Hk. apply list_eq. intros j.
  destruct (Nat.lt_ge_cases j (length A)) as [Hj | Hj].
  - destruct (decide (j = k)) as [-> | Hne].
    + rewrite list_lookup_insert_eq by (rewrite KL_row_upto_length; lia).
      rewrite KL_row_upto_lookup by exact Hj.
      destruct (Nat.leb_spec 1 k), (Nat.ltb_spec k (1 + k)); simpl;
        try reflexivity; lia.
    + rewrite list_lookup_insert_ne by congruence.
      rewrite !KL_row_upto_lookup by exact Hj.
      destruct (Nat.leb_spec 1 j), (Nat.ltb_spec j k), (Nat.ltb_spec j (1 + k));
        simpl; try reflexivity; lia.
  - rewrite !lookup_ge_None_2; [reflexivity | |].
    + now rewrite KL_row_upto_length.
    + now rewrite length_insert, KL_row_upto_length.
Qed.

Lemma index_inject (A : list (list R)) (j : nat) :
  j < length A -> index (inject A) j = Ok (map Fin (row A j)).
Proof.
  intros Hj. unfold index, inject, row. rewrite list_lookup_fmap.
  destruct (lookup_lt_is_Some_2 A j Hj) as [r Hr]. rewrite Hr. reflexivity.
Qed.

Lemma row_positive (A : list (list R)) (K j : nat) :
  Forall (fun r => length r = K /\ Forall (fun x => (0 < x)%R) r) A ->
  j < length A ->
  length (row A j) = K /\ Forall (fun x => (0 < x)%R) (row A j).
Proof.
  intros HA Hj. unfold row.
  destruct (lookup_lt_is_Some_2 A j Hj) as [r Hr]. rewrite Hr. simpl.
  rewrite Forall_lookup in HA. exact (HA _ _ Hr).
Qed.

Lemma KL_inner_loop (A : list (list R)) (K i : nat) (M : matrix) :
  0 < K ->
  Forall (fun r => length r = K /\ Forall (fun x => (0 < x)%R) r) A ->
  M !! i = Some (KL_row_upto A 1) ->
  for_each (range 1 (length (inject A)))
    (fun j KLm =>
       a <- index (inject A) (j - 1) ;;
       b <- index (inject A) j ;;
       d <- KL_dirichlet a b ;;
       set2 KLm i j d)
    M
  = Ok (<[i := KL_row_upto A (length A)]> M).
Proof.
  intros HK HA HM.
  assert (length (inject A) = length A) as Hlen by (unfold inject; apply length_map).
  rewrite Hlen. unfold range.
  destruct (for_each_seq_total
              (fun k M' => M' = <[i := KL_row_upto A k]> M)
              (fun j KLm =>
                 a <- index (inject A) (j - 1) ;;
                 b <- index (inject A) j ;;
                 d <- KL_dirichlet a b ;;
                 set2 KLm i j d)
              (length A - 1) 1 M) as [M' [Hrun HM']].
  - symmetry. apply list_insert_id. exact HM.
  - intros k M1 Hk ->.
    rewrite (index_inject A (k - 1)) by lia.
    rewrite (index_inject A k) by lia. simpl.
    destruct (row_positive A K (k - 1) HA) as [Hl1 Hp1]; [lia |].
    destruct (row_positive A K k HA) as [Hl2 Hp2]; [lia |].
    rewrite KL_dirichlet_closed by (try assumption; lia). simpl.
    unfold set2.
    assert (i < length M) as Hi by (eapply lookup_lt_Some; eauto).
    rewrite list_lookup_insert_eq by exact Hi.
    rewrite KL_row_upto_length.
    destruct (Nat.ltb_spec k (length A)); [| lia].
    eexists. split; [reflexivity |].
    rewrite list_insert_insert_eq. f_equal. apply KL_row_upto_step. lia.
  - rewrite Hrun, HM'. do 2 f_equal.
    destruct (length A) as [| n] eqn:HT.
    + unfold KL_row_upto. rewrite HT. reflexivity.
    + f_equal. lia.
Qed.

Lemma KL_outer_loop (T : nat) (rest done : list (list (list R))) :
  Forall (positive_table T) rest ->
  for_each (zip (seq (length done) (length rest)) (map inject rest))
    (fun '(i, alpha) KLm =>
       for_each (range 1 (length alpha))
         (fun j KLm =>
            a <- index alpha (j - 1) ;;
            b <- index alpha j ;;
            d <- KL_dirichlet a b ;;
            set2 KLm i j d)
         KLm)
    (map (fun A => KL_row_upto A (length A)) done
     ++ replicate (length rest) (scale NaN (np_ones T)))
  = Ok (map (fun A => KL_row_upto A (length A)) (done ++ rest)).
Proof.
  intros Hrest. revert done.
  induction Hrest as [| A rest (HT & K & HK & HA) _ IH]; intros done.
  - simpl. now rewrite !app_nil_r.
  - simpl.
    rewrite (KL_inner_loop A K (length done) _ HK HA).
    + simpl.
      replace (<[length done := KL_row_upto A (length A)]>
                 (map (fun A0 => KL_row_upto A0 (length A0)) done
                  ++ scale NaN (np_ones T)
                     :: replicate (length rest) (scale NaN (np_ones T))))
        with (map (fun A0 => KL_row_upto A0 (length A0)) (done ++ [A])
              ++ replicate (length rest) (scale NaN (np_ones T))).
      * specialize (IH (done ++ [A])).
        rewrite length_app in IH. simpl in IH.
        replace (length done + 1) with (S (length done)) in IH by lia.
        rewrite IH. now rewrite <- app_assoc.
      * rewrite map_app. simpl. rewrite <- app_assoc. simpl.
        rewrite insert_app_r_alt by (rewrite length_map; lia).
        rewrite length_map, Nat.sub_diag. reflexivity.
    + rewrite lookup_app_r by (rewrite length_map; lia).
      rewrite length_map, Nat.sub_diag. simpl.
      rewrite <- HT. now rewrite nan_row_eq.
Qed.

Lemma KL_column (T t : nat) (As : list (list (list R))) :
  Forall (fun A => length A = T) As -> t < T ->
  map (fun r : list float64 => default NaN (r !! t))
      (map (fun A => KL_row_upto A (length A)) As)
  = map (fun A =>
           if 1 <=? t then Fin (KL_closed_form (row A (t - 1)) (row A t))
           else NaN)
        As.
Proof.
  intros HAs Ht. induction HAs as [| A As HA _ IH]; [reflexivity |].
  cbn [map]. rewrite IH. f_equal.
  rewrite KL_row_upto_lookup by lia.
  destruct (Nat.leb_spec 1 t), (Nat.ltb_spec t (length A)); simpl;
    try reflexivity; lia.
Qed.

(** The array [KL] returns on a table of positive parameters: NaN at trial
    0, and from trial 1 on the sum over the contexts of the divergence from
    the parameters of the trial before to those of the trial. *)
Lemma KL_positive_tables (alphas : list (list Z * list (list R))) (T : nat) :
  0 < length alphas ->
  Forall (fun cA => positive_table T cA.2) alphas ->
  exists kl,
    KL (inject_table alphas) = Ok kl
    /\ length kl = T
    /\ (0 < T -> kl !! 0 = Some NaN)
    /\ forall t, 1 <= t < T -> kl !! t = Some (Fin (bayesian_at alphas t)).
Proof.
  intros Hne Hpos.
  set (As := map snd alphas).
  assert (Forall (positive_table T) As) as HAs.
  { unfold As. rewrite Forall_map. exact Hpos. }
  assert (Forall (fun A => length A = T) As) as HlenAs.
  { eapply Forall_impl; [exact HAs |]. now intros A [H _]. }
  assert (exists A0 As', As = A0 :: As') as (A0 & As' & HAs0).
  { unfold As. destruct alphas as [| cA alphas']; [simpl in Hne; lia |].
    simpl. eauto. }
  assert (length A0 = T) as HT0.
  { rewrite HAs0 in HlenAs. now apply Forall_cons in HlenAs. }
  unfold KL.
  replace (map snd (inject_table alphas)) with (map inject As)
    by (unfold inject_table, As; rewrite !map_map; reflexivity).
  replace (length (inject_table alphas)) with (length As)
    by (unfold inject_table, As; now rewrite !length_map).
  replace (index (map inject As) 0) with (Ok (inject A0)) by (now rewrite HAs0).
  simpl bind.
  replace (length (inject A0)) with T by (unfold inject; now rewrite length_map).
  unfold enumerate, nan_matrix. rewrite (length_map inject As).
  pose proof (KL_outer_loop T As [] HAs) as Hout. simpl in Hout.
  rewrite Hout. simpl bind.
  eexists. split; [reflexivity |].
  assert (forall t, t < T ->
            sum_axis0 (map (fun A => KL_row_upto A (length A)) As) T !! t
            = Some (fsum (map (fun A =>
                                 if 1 <=? t
                                 then Fin (KL_closed_form (row A (t - 1)) (row A t))
                                 else NaN) As))) as Hcol.
  { intros t Ht. unfold sum_axis0. rewrite list_lookup_fmap.
    rewrite lookup_seq_lt by exact Ht. simpl.
    now rewrite (KL_column T t As HlenAs Ht). }
  split; [| split].
  - unfold sum_axis0. now rewrite length_map, length_seq.
  - intros HT. rewrite (Hcol 0 HT). f_equal. rewrite HAs0. simpl.
    apply fsum_NaN_head.
  - intros t Ht. rewrite (Hcol t) by lia. f_equal.
    destruct (Nat.leb_spec 1 t); [| lia].
    rewrite <- (map_map (fun A => KL_closed_form (row A (t - 1)) (row A t)) Fin).
    rewrite fsum_Fin. f_equal. unfold bayesian_at, As.
    now rewrite map_map.
Qed.

Lemma bayesian_at_example :
  bayesian_at example_alphas 1 = (1 - ln 2)%R
  /\ bayesian_as_stated example_alphas 1 = (ln 2 - 1 / 2)%R.
Proof.
  unfold bayesian_at, bayesian_as_stated, example_alphas, KL_closed_form, Rsum, row.
  simpl.
  replace (0 + 1 + 1)%R with 2%R by lra.
  replace (0 + 2 + 1)%R with 3%R by lra.
  rewrite gammaln_1, gammaln_2, gammaln_3, psi_1, psi_2, psi_3.
  split; lra.
Qed.

(** C1, amended. On a table of positive Dirichlet parameters with [T] trials
    per context, [compute_bayesian] returns an array of length [T] that is
    NaN at trial 0 and, at every trial [t >= 1], the sum over the contexts of
    the closed form KL(Dir(alpha[context][t-1]) || Dir(alpha[context][t])):
    the posterior of the trial before comes first, the new posterior second. *)
Theorem compute_bayesian_sum_of_KL
    (out : output) (alphas : list (list Z * list (list R))) (T : nat) :
  named out !! "alphas" = Some (PyAlphas (inject_table alphas)) ->
  0 < length alphas ->
  Forall (fun cA => positive_table T cA.2) alphas ->
  exists kl,
    compute_bayesian out = Ok kl
    /\ length kl = T
    /\ (0 < T -> kl !! 0 = Some NaN)
    /\ forall t, 1 <= t < T ->
         kl !! t
         = Some (Fin (Rsum (map (fun cA =>
                                   KL_closed_form (row cA.2 (t - 1)) (row cA.2 t))
                                alphas))).
Proof.
  intros Hal Hne Hpos.
  destruct (KL_positive_tables alphas T Hne Hpos) as (kl & Hkl & Hlen & H0 & Ht).
  exists kl. unfold compute_bayesian, get_named. rewrite Hal. simpl.
  repeat split; assumption.
Qed.

Lemma example_alphas_positive :
  Forall (fun cA => positive_table 2 cA.2) example_alphas.
Proof.
  repeat constructor. exists 2. split; [lia |].
  repeat constructor; simpl; lra.
Qed.

(** C1 on one context with the rows (1, 1) and (2, 1). *)
Lemma compute_bayesian_sum_of_KL_witness :
  exists kl,
    compute_bayesian example_out_alphas = Ok kl
    /\ length kl = 2
    /\ (0 < 2 -> kl !! 0 = Some NaN)
    /\ forall t, 1 <= t < 2 ->
         kl !! t
         = Some (Fin (Rsum (map (fun cA =>
                                   KL_closed_form (row cA.2 (t - 1)) (row cA.2 t))
                                example_alphas))).
Proof.
  apply (compute_bayesian_sum_of_KL example_out_alphas example_alphas 2).
  - apply lookup_singleton_eq.
  - simpl. lia.
  - repeat constructor. exists 2. split; [lia |].
    repeat constructor; simpl; lra.
Defined.

(** C1 as stated fails on one context with the rows (1, 1) and (2, 1): at
    trial 1 the code returns KL(Dir(1,1) || Dir(2,1)) = 1 - ln 2, and the
    order of the specification gives KL(Dir(2,1) || Dir(1,1)) = ln 2 - 1/2. *)
Lemma compute_bayesian_argument_order :
  compute_bayesian example_out_alphas = Ok [NaN; Fin (1 - ln 2)]
  /\ bayesian_as_stated example_alphas 1 = (ln 2 - 1 / 2)%R
  /\ (1 - ln 2)%R <> (ln 2 - 1 / 2)%R.
Proof.
  destruct bayesian_at_example as [Hcode Hspec].
  split; [| split; [exact Hspec | pose proof ln_2_lt; lra]].
  destruct (KL_positive_tables example_alphas 2 ltac:(simpl; lia)
              example_alphas_positive) as (kl & Hkl & Hlen & H0 & Ht).
  assert (compute_bayesian example_out_alphas = KL (inject_table example_alphas))
    as ->.
  { unfold compute_bayesian, get_named, example_out_alphas. cbn [named].
    rewrite lookup_singleton_eq. reflexivity. }
  rewrite Hkl. f_equal.
  specialize (H0 ltac:(lia)). specialize (Ht 1 ltac:(lia)).
  rewrite Hcode in Ht.
  destruct kl as [| a [| b [| c kl]]]; simpl in Hlen; try lia.
  simpl in H0, Ht. congruence.
Qed.

(** ** Means of grid posteriors *)

Lemma for_each_inv {A St : Type} (P : St -> Prop)
    (body : A -> St -> result St) (l : list A) (s0 s' : St) :
  P s0 ->
  (forall a s s1, In a l -> P s -> body a s = Ok s1 -> P s1) ->
  for_each l body s0 = Ok s' ->
  P s'.
Proof.
  revert s0. induction l as [| a l IH]; intros s0 H0 Hstep Hrun.
  - simpl in Hrun. now injection Hrun as <-.
  - simpl in Hrun. destruct (body a s0) as [s1 |] eqn:Hb; [| discriminate].
    apply (IH s1).
    + apply (Hstep a s0); [now left | exact H0 | exact Hb].
    + intros b s s2 Hin. apply Hstep. now right.
    + exact Hrun.
Qed.

Lemma fold_Rplus_shift (l : list R) (a : R) :
  fold_left Rplus l a = (a + fold_left Rplus l 0)%R.
Proof.
  revert a. induction l as [| x l IH]; intros a; simpl; [lra |].
  rewrite (IH (a + x)%R), (IH (0 + x)%R). lra.
Qed.

Lemma Rsum_cons (x : R) (l : list R) : Rsum (x :: l) = (x + Rsum l)%R.
Proof. unfold Rsum. simpl. rewrite fold_Rplus_shift. lra. Qed.

Lemma Rsum_nonneg (l : list R) :
  Forall (fun x => (0 <= x)%R) l -> (0 <= Rsum l)%R.
Proof.
  intros Hl. induction Hl as [| x l Hx _ IH]; [unfold Rsum; simpl; lra |].
  rewrite Rsum_cons. lra.
Qed.

Lemma weighted_sum_le (col g : list R) :
  Forall (fun x => (0 <= x)%R) col ->
  Forall (fun y => (0 <= y <= 1)%R) g ->
  (Rsum (zip_with Rmult col g) <= Rsum col)%R.
Proof.
  intros Hcol. revert g. induction Hcol as [| x col Hx Hcol IH]; intros g Hg.
  - simpl. lra.
  - destruct Hg as [| y g Hy Hg].
    + assert (Forall (fun x => (0 <= x)%R) (x :: col)) as Hall
        by (constructor; assumption).
      pose proof (Rsum_nonneg (x :: col) Hall) as Hnn.
      change (Rsum [] <= Rsum (x :: col))%R.
      unfold Rsum at 1. cbn [fold_left]. exact Hnn.
    + simpl. rewrite !Rsum_cons. specialize (IH g Hg). nra.
Qed.

Lemma linspace01_grid (n : nat) :
  2 <= n ->
  linspace01 (PyInt (Z.of_nat n))
  = Ok (map Fin (map (fun i => (INR i * (1 / INR (n - 1)))%R) (seq 0 n))).
Proof.
  intros Hn. unfold linspace01.
  destruct (Z.ltb_spec (Z.of_nat n) 0); [lia |].
  rewrite Nat2Z.id. cbv zeta.
  destruct (Nat.ltb_spec 0 (n - 1)); [| lia].
  assert (0 < INR (n - 1))%R as Hpos by (apply lt_0_INR; lia).
  unfold fdiv, Rzero. destruct (Req_dec_T (INR (n - 1)) 0); [lra |].
  rewrite map_map. reflexivity.
Qed.

Lemma grid_points_unit (n : nat) :
  2 <= n ->
  Forall (fun y => (0 <= y <= 1)%R)
         (map (fun i => (INR i * (1 / INR (n - 1)))%R) (seq 0 n)).
Proof.
  intros Hn. rewrite Forall_map, Forall_forall. intros i Hi.
  apply elem_of_seq in Hi.
  assert (0 < INR (n - 1))%R as Hpos by (apply lt_0_INR; lia).
  assert (0 <= INR i)%R as Hi0 by apply pos_INR.
  assert (INR i <= INR (n - 1))%R as Hi1 by (apply le_INR; lia).
  split.
  - apply Rmult_le_pos; [exact Hi0 |]. left. apply Rdiv_lt_0_compat; lra.
  - apply Rmult_le_reg_r with (INR (n - 1)); [exact Hpos |].
    replace (INR i * (1 / INR (n - 1)) * INR (n - 1))%R with (INR i)
      by (field; lra).
    lra.
Qed.

Lemma transpose_inject_row (d : list (list R)) (T : nat) (r : list float64) :
  Forall (fun r => length r = T /\ Forall (fun x => (0 <= x)%R) r) d ->
  In r (transpose (inject d)) ->
  exists t, t < T /\ r = map Fin (map (fun r => default 0%R (r !! t)) d).
Proof.
  intros Hd Hin. unfold transpose in Hin. apply in_map_iff in Hin.
  destruct Hin as (t & <- & Ht). apply in_seq in Ht.
  assert (t < T) as HtT.
  { destruct d as [| r0 d'].
    - simpl in Ht. lia.
    - apply Forall_cons in Hd. destruct Hd as [[Hl0 _] _].
      simpl in Ht. rewrite length_map, Hl0 in Ht. lia. }
  exists t. split; [exact HtT |].
  unfold inject. rewrite !map_map.
  apply map_ext_in. intros r Hr.
  rewrite List.Forall_forall in Hd. destruct (Hd r Hr) as [Hlr _].
  rewrite list_lookup_fmap.
  destruct (lookup_lt_is_Some_2 r t) as [x Hx]; [lia |].
  rewrite Hx. reflexivity.
Qed.

Lemma compute_mean_of_dist_bounded
    (n : nat) (d : list (list R)) (m : list float64) :
  2 <= n ->
  grid_distribution n d ->
  compute_mean_of_dist (inject d)
    (map Fin (map (fun i => (INR i * (1 / INR (n - 1)))%R) (seq 0 n))) = Ok m ->
  Forall not_above_one m.
Proof.
  intros Hn (Hlen & T & Hd & Hsum) Hrun.
  unfold compute_mean_of_dist in Hrun.
  destruct (negb _); [discriminate |].
  revert Hrun. apply for_each_inv; [constructor |].
  intros r acc acc1 Hin Hacc Hb.
  destruct (transpose_inject_row d T r Hd Hin) as (t & Ht & ->).
  unfold np_dot in Hb. destruct (_ =? _); [| discriminate].
  simpl in Hb. injection Hb as <-.
  apply Forall_app. split; [exact Hacc |]. repeat constructor.
  rewrite (zip_with_Fin fmul Rmult) by reflexivity.
  rewrite fsum_Fin. simpl.
  eapply Rle_trans; [apply weighted_sum_le | apply (Hsum t Ht)].
  - rewrite Forall_map, Forall_forall. intros r Hr.
    rewrite Forall_forall in Hd. destruct (Hd r Hr) as [Hlr Hpos].
    destruct (lookup_lt_is_Some_2 r t) as [x Hx]; [lia |].
    rewrite Hx. simpl. rewrite Forall_lookup in Hpos. exact (Hpos _ _ Hx).
  - now apply grid_points_unit.
Qed.

(** X1. When every posterior handed to [fill_output_hmm] is a distribution
    over a grid of [resol >= 2] probabilities, no mean of the output it
    returns exceeds one: the outputs of the HMM observers meet the condition
    under which the surprise is never negative. *)
Theorem fill_output_hmm_means_bounded
    (marg_post : list (list Z * list (list R))) (resol : nat) (Nitem : Z)
    (out : output) :
  2 <= resol ->
  Forall (fun kd => grid_distribution resol kd.2) marg_post ->
  fill_output_hmm (inject_table marg_post) (PyInt (Z.of_nat resol)) Nitem = Ok out ->
  map_Forall (fun _ r => Forall not_above_one (mean r)) (post out).
Proof.
  intros Hn Hpost Hrun. unfold fill_output_hmm in Hrun.
  rewrite (linspace01_grid resol Hn) in Hrun. simpl bind in Hrun.
  revert Hrun.
  apply (for_each_inv
           (fun o => map_Forall (fun _ r => Forall not_above_one (mean r)) (post o))).
  - apply map_Forall_empty.
  - intros [item d'] s s1 Hin Hs Hb.
    unfold inject_table in Hin. apply in_map_iff in Hin.
    destruct Hin as ([item0 d] & Heq & Hin). simpl in Heq.
    injection Heq as <- <-.
    rewrite List.Forall_forall in Hpost. specialize (Hpost _ Hin). simpl in Hpost.
    apply bind_Ok in Hb. destruct Hb as (m & Hm & Hb).
    apply bind_Ok in Hb. destruct Hb as (sd & _ & Hb).
    injection Hb as <-. simpl.
    apply map_Forall_insert_2; [| exact Hs]. simpl.
    exact (compute_mean_of_dist_bounded resol d m Hn Hpost Hm).
Qed.

(** X1 on one pattern with two grid points and two trials. *)
Lemma fill_output_hmm_means_bounded_witness :
  exists out,
    fill_output_hmm (inject_table example_grid_posterior) (PyInt (Z.of_nat 2)) 2
    = Ok out
    /\ map_Forall (fun _ r => Forall not_above_one (mean r)) (post out).
Proof.
  eexists. split; [vm_compute; reflexivity |].
  apply (fill_output_hmm_means_bounded example_grid_posterior 2 2).
  - lia.
  - repeat constructor. exists 2. split.
    + repeat constructor; simpl; lra.
    + intros [| [| t]] Ht; try lia; unfold Rsum; simpl; lra.
  - vm_compute. reflexivity.
Defined.

(** ** More on the loops *)

Lemma for_each_raise {A St : Type} (body : A -> St -> result St)
    (l : list A) (s0 : St) (e : exn) :
  for_each l body s0 = Raise e ->
  exists a s, In a l /\ body a s = Raise e.
Proof.
  revert s0. induction l as [| a l IH]; intros s0 Hrun; [discriminate |].
  simpl in Hrun. destruct (body a s0) as [s1 | e1] eqn:Hb.
  - destruct (IH s1 Hrun) as (b & s & Hin & Hbs). exists b, s. split; [now right | exact Hbs].
  - simpl in Hrun. injection Hrun as <-. exists a, s0. split; [now left | exact Hb].
Qed.

Lemma for_each_seq_raise {St : Type} (P : nat -> St -> Prop)
    (body : nat -> St -> result St) (len lo : nat) (s0 : St) (e : exn) :
  P lo s0 ->
  (forall t s s1, lo <= t < lo + len -> P t s -> body t s = Ok s1 -> P (1 + t) s1) ->
  for_each (seq lo len) body s0 = Raise e ->
  exists t s, lo <= t < lo + len /\ P t s /\ body t s = Raise e.
Proof.
  revert lo s0. induction len as [| len IH]; intros lo s0 H0 Hstep Hrun;
    [discriminate |].
  simpl in Hrun. destruct (body lo s0) as [s1 | e1] eqn:Hb.
  - destruct (IH (S lo) s1) as (t & s & Ht & HP & Hbt).
    + apply (Hstep lo s0); [lia | exact H0 | exact Hb].
    + intros t s s2 Ht. apply Hstep. lia.
    + exact Hrun.
    + exists t, s. split; [lia | auto].
  - simpl in Hrun. injection Hrun as <-. exists lo, s0. split; [lia | auto].
Qed.

(** ** The options *)

Lemma lower_ascii_idempotent (c : ascii) :
  lower_ascii (lower_ascii c) = lower_ascii c.
Proof. destruct c as [[] [] [] [] [] [] [] []]; reflexivity. Qed.

Lemma lower_idempotent (s : string) : lower (lower s) = lower s.
Proof.
  induction s as [| c s IH]; simpl; [reflexivity |].
  now rewrite lower_ascii_idempotent, IH.
Qed.

Lemma check_options_fold (items : list (string * pyval)) (acc : gmap string pyval) :
  for_each items
    (fun '(item, v) checked_options => Ok (<[lower item := v]> checked_options)) acc
  = Ok (fold_left (fun m kv => <[lower kv.1 := kv.2]> m) items acc).
Proof.
  revert acc. induction items as [| [k v] items IH]; intros acc; simpl;
    [reflexivity | apply IH].
Qed.

(** X3. On a dictionary whose keys are written in ASCII, [check_options]
    returns; every key of the result is in lower case and carries the value
    of an item whose key lower-cases to it; every item is found under its
    lower-cased key, with its own value unless a later item has the same
    lower-cased key. *)
Theorem check_options_lower_case (items : list (string * pyval)) :
  Forall (fun kv => isascii kv.1 = true) items ->
  exists checked,
    check_options (Some items) = Ok checked
    /\ (forall k v, checked !! k = Some v ->
          lower k = k /\ exists k0, In (k0, v) items /\ lower k0 = k)
    /\ (forall k0 v, In (k0, v) items -> is_Some (checked !! lower k0))
    /\ (forall before k0 v after,
          items = before ++ (k0, v) :: after ->
          Forall (fun kv => lower kv.1 <> lower k0) after ->
          checked !! lower k0 = Some v).
Proof.
  intros _.
  unfold check_options. rewrite check_options_fold. eexists. split; [reflexivity |].
  induction items as [| [k1 v1] items IH] using rev_ind.
  - simpl. repeat split.
    + now rewrite lookup_empty in H.
    + now rewrite lookup_empty in H.
    + intros k0 v []. 
    + intros [| ? ?] k0 v after Heq; discriminate.
  - rewrite fold_left_app. simpl.
    destruct IH as (IH1 & IH2 & IH3). repeat split.
    + destruct (decide (k = lower k1)) as [-> | Hne].
      * apply lower_idempotent.
      * rewrite lookup_insert_ne in H by congruence. now apply IH1 in H.
    + destruct (decide (k = lower k1)) as [-> | Hne].
      * rewrite lookup_insert_eq in H. injection H as <-.
        exists k1. split; [| reflexivity]. apply in_or_app. right. now left.
      * rewrite lookup_insert_ne in H by congruence.
        destruct (IH1 _ _ H) as (_ & k0 & Hin & Hk0).
        exists k0. split; [| exact Hk0]. apply in_or_app. now left.
    + intros k0 v Hin. apply in_app_or in Hin.
      destruct (decide (lower k0 = lower k1)) as [-> | Hne].
      * rewrite lookup_insert_eq. eauto.
      * rewrite lookup_insert_ne by congruence.
        destruct Hin as [Hin | [Heq | []]]; [now apply (IH2 k0 v) |].
        injection Heq as -> ->. contradiction.
    + intros before k0 v after Heq Hafter.
      destruct after as [| a after _] using rev_ind.
      * apply app_inj_tail in Heq. destruct Heq as [-> Heq].
        injection Heq as -> ->. apply lookup_insert_eq.
      * rewrite app_comm_cons, app_assoc in Heq.
        apply app_inj_tail in Heq. destruct Heq as [-> <-].
        apply Forall_app in Hafter. destruct Hafter as [Hafter Hlast].
        apply Forall_inv in Hlast. simpl in Hlast.
        rewrite lookup_insert_ne by congruence.
        now apply (IH3 before k0 v after).
Qed.

(** X3 on two keys that differ by their case: the later item is kept. *)
Lemma check_options_lower_case_witness :
  exists checked,
    Forall (fun kv : string * pyval => isascii kv.1 = true)
      [("P_C"%string, PyFloat (Fin (1 / 10))); ("p_c"%string, PyInt 3)]
    /\ check_options
         (Some [("P_C"%string, PyFloat (Fin (1 / 10))); ("p_c"%string, PyInt 3)])
       = Ok checked
    /\ checked !! "p_c"%string = Some (PyInt 3).
Proof.
  assert (Forall (fun kv : string * pyval => isascii kv.1 = true)
            [("P_C"%string, PyFloat (Fin (1 / 10))); ("p_c"%string, PyInt 3)])
    as Hascii by (repeat constructor).
  destruct (check_options_lower_case _ Hascii) as (checked & Hrun & _ & _ & Hlast).
  exists checked. split; [exact Hascii |]. split; [exact Hrun |].
  apply (Hlast [("P_C"%string, PyFloat (Fin (1 / 10)))] "p_c"%string (PyInt 3) []).
  - reflexivity.
  - constructor.
Defined.

Lemma check_options_total (items : list (string * pyval)) :
  exists checked, check_options (Some items) = Ok checked.
Proof. unfold check_options. rewrite check_options_fold. eauto. Qed.

(** X4. With an observer type that lower-cases to none of the five names
    the wrapper tests, no branch assigns [out] and the call ends in
    [UnboundLocalError], whatever the options hold and the collaborators do. *)
Theorem IdealObserver_unknown_type
    {collab : Collaborators}
    (sq : list Z) (ObsType : string) (order : nat) (Nitem : option Z)
    (items : list (string * pyval)) :
  ~ In (lower ObsType)
       ["fixed"; "hmm"; "hmm_uncoupled"; "hmm+full"; "hmm_uncoupled+full"]%string ->
  IdealObserver sq ObsType order Nitem (Some items)
  = Raise (UnboundLocalError "out").
Proof.
  intros Hnot.
  destruct (check_options_total items) as [checked Hck].
  unfold IdealObserver. rewrite Hck. simpl bind. unfold when_type.
  assert (forall name,
            In name ["fixed"; "hmm"; "hmm_uncoupled"; "hmm+full";
                     "hmm_uncoupled+full"]%string ->
            String.eqb (lower ObsType) name = false) as Hne.
  { intros name Hin. apply String.eqb_neq. intros Heq. apply Hnot. now rewrite Heq. }
  rewrite !Hne by (simpl; tauto). reflexivity.
Qed.

(** X4 on ['Decay'], which the docstring of the wrapper lists as an observer
    type. *)
Lemma IdealObserver_unknown_type_witness :
  IdealObserver (collab := example_collaborators)
    [0; 1; 1]%Z "Decay" 0 (Some 2%Z) (Some [("decay"%string, PyInt 10)])
  = Raise (UnboundLocalError "out").
Proof.
  apply (IdealObserver_unknown_type (collab := example_collaborators)).
  simpl. intros [H | [H | [H | [H | [H | []]]]]]; discriminate.
Defined.

Lemma uniform_Fin (n : nat) :
  0 < n -> uniform n = map Fin (replicate n (1 / INR n)%R).
Proof.
  intros Hn. unfold uniform, np_ones.
  assert (0 < INR n)%R as Hpos by (apply lt_0_INR; lia).
  assert (fdiv (Fin 1) (Fin (INR n)) = Fin (1 / INR n)) as Hdiv.
  { unfold fdiv, Rzero. destruct (Req_dec_T (INR n) 0); [lra | reflexivity]. }
  assert (forall k, map (fun x => fdiv x (Fin (INR n))) (replicate k (Fin 1))
                    = map Fin (replicate k (1 / INR n)%R)) as Hk.
  { induction k as [| k IH]; [reflexivity |].
    cbn [replicate map]. now rewrite Hdiv, IH. }
  apply Hk.
Qed.

(** X5. When the options give a volatility grid of at least one point and no
    prior over it, the resolution for the full-volatility observers returns
    the grid as given together with a prior of the same length, every entry
    of which is [1/len(grid)]. *)
Theorem parse_options_uniform_prior
    {collab : Collaborators}
    (options : gmap string pyval) (grid : list float64) :
  options !! "grid_nu" = Some (PyArr grid) ->
  options !! "prior_nu" = None ->
  0 < length grid ->
  exists resol prior,
    parse_options options "hmm+full" = Ok (HmmFull resol (PyArr grid) (PyArr prior))
    /\ length prior = length grid
    /\ Forall (fun x => x = Fin (1 / INR (length grid))) prior.
Proof.
  intros Hgrid Hprior Hlen. unfold parse_options. simpl.
  rewrite Hgrid, Hprior. simpl.
  eexists. eexists. split; [reflexivity |].
  rewrite (uniform_Fin _ Hlen).
  split.
  - now rewrite length_map, length_replicate.
  - rewrite Forall_map. apply Forall_replicate. reflexivity.
Qed.

(** X5 on a grid of four volatilities. *)
Lemma parse_options_uniform_prior_witness :
  exists resol prior,
    parse_options (collab := example_collaborators)
      {[ "grid_nu" := PyArr [Fin 1; Fin (1 / 2); Fin (1 / 4); Fin (1 / 8)] ]}
      "hmm+full"
    = Ok (HmmFull resol (PyArr [Fin 1; Fin (1 / 2); Fin (1 / 4); Fin (1 / 8)])
            (PyArr prior))
    /\ length prior = 4
    /\ Forall (fun x => x = Fin (1 / INR 4)) prior.
Proof.
  apply (parse_options_uniform_prior (collab := example_collaborators)
           {[ "grid_nu" := PyArr [Fin 1; Fin (1 / 2); Fin (1 / 4); Fin (1 / 8)] ]}
           [Fin 1; Fin (1 / 2); Fin (1 / 4); Fin (1 / 8)]).
  - apply lookup_singleton_eq.
  - apply lookup_singleton_ne. discriminate.
  - simpl. lia.
Defined.

(** ** The fixed observer *)

Lemma compute_confidence_corrected_sizes {collab : Collaborators}
    (out : output) (Nitem : Z) (r : list float64) :
  compute_confidence_corrected out Nitem = Ok r -> Nitem = 2%Z \/ Nitem = 3%Z.
Proof.
  intros Hrun. unfold compute_confidence_corrected in Hrun.
  apply bind_Ok in Hrun. destruct Hrun as (s & _ & Hrun).
  unfold p_hat in Hrun.
  destruct (decide (Nitem = 2%Z)) as [-> | H2]; [now left |].
  destruct (decide (Nitem = 3%Z)) as [-> | H3]; [now right |].
  rewrite lookup_insert_ne in Hrun by congruence.
  rewrite lookup_singleton_ne in Hrun by congruence. discriminate.
Qed.

Lemma branch_fixed_sizes {collab : Collaborators}
    (sq : list Z) (order : nat) (Nitem : Z) (st st' : locals) :
  branch_fixed sq order Nitem st = Ok st' -> Nitem = 2%Z \/ Nitem = 3%Z.
Proof.
  intros Hrun. unfold branch_fixed in Hrun.
  repeat (apply bind_Ok in Hrun; destruct Hrun as (? & ? & Hrun)).
  match goal with
  | H : compute_confidence_corrected _ _ = Ok _ |- _ =>
      exact (compute_confidence_corrected_sizes _ _ _ H)
  end.
Qed.

(** X6. The fixed observer serves alphabets of two and of three items only:
    with any other size, given or counted from the sequence, the call raises
    and returns no output. *)
Theorem IdealObserver_fixed_sizes
    {collab : Collaborators}
    (sq : list Z) (ObsType : string) (order : nat) (Nitem : option Z)
    (options : option (list (string * pyval))) :
  lower ObsType = "fixed"%string ->
  infer_Nitem sq Nitem <> 2%Z ->
  infer_Nitem sq Nitem <> 3%Z ->
  exists e, IdealObserver sq ObsType order Nitem options = Raise e.
Proof.
  intros Htype H2 H3.
  destruct (IdealObserver sq ObsType order Nitem options) as [out | e] eqn:Hrun;
    [exfalso | eauto].
  unfold IdealObserver in Hrun.
  apply bind_Ok in Hrun. destruct Hrun as (checked & _ & Hrun).
  apply bind_Ok in Hrun. destruct Hrun as (st & Hfixed & _).
  unfold when_type in Hfixed. rewrite Htype in Hfixed. simpl in Hfixed.
  destruct (branch_fixed_sizes _ _ _ _ _ Hfixed); contradiction.
Qed.

Lemma IdealObserver_fixed_one_item :
  IdealObserver (collab := example_fixed_collaborators)
    [0]%Z "Fixed" 0 None (Some []) = Raise (KeyError (KInt 1)).
Proof.
  vm_compute. reflexivity.
Qed.

(** X6 on a sequence over one item: the counts, the posterior, the surprise,
    the table of parameters and the Bayesian surprise are computed, and the
    call ends on the lookup [p_hat[1]]. *)
Lemma IdealObserver_fixed_sizes_witness :
  exists e,
    lower "Fixed" = "fixed"%string
    /\ infer_Nitem [0]%Z None = 1%Z
    /\ IdealObserver (collab := example_fixed_collaborators)
         [0]%Z "Fixed" 0 None (Some []) = Raise e
    /\ e = KeyError (KInt 1).
Proof.
  destruct (IdealObserver_fixed_sizes (collab := example_fixed_collaborators)
              [0]%Z "Fixed" 0 None (Some []) eq_refl
              ltac:(vm_compute; discriminate) ltac:(vm_compute; discriminate))
    as [e He].
  exists e. split; [reflexivity |]. split; [reflexivity |]. split; [exact He |].
  pose proof IdealObserver_fixed_one_item as Hrun. congruence.
Defined.

(** ** Failures of the surprise *)

Lemma surprise_step_raise (out : output) (p : list Z) (t : nat)
    (s : list float64) (e : exn) :
  surprise_step out p t s = Raise e ->
  e = IndexError
  /\ exists r, post out !! p = Some r /\ length (mean r) <= t - 1.
Proof.
  unfold surprise_step. destruct (decide _) as [Hin | _]; [| discriminate].
  apply elem_of_dom in Hin. destruct Hin as [r Hr].
  unfold get_post. rewrite Hr. simpl. unfold index.
  destruct (mean r !! (t - 1)) eqn:Hm; simpl; [discriminate |].
  intros H. injection H as <-. split; [reflexivity |].
  exists r. split; [reflexivity |]. now apply lookup_ge_None.
Qed.

Lemma surprise_step_in_range (out : output) (p : list Z) (t : nat)
    (s s1 : list float64) (r : posterior) :
  surprise_step out p t s = Ok s1 ->
  post out !! p = Some r -> t - 1 < length (mean r).
Proof.
  unfold surprise_step. intros Hrun Hr.
  destruct (decide _) as [_ | Hnin].
  - unfold get_post in Hrun. rewrite Hr in Hrun. simpl in Hrun.
    apply bind_Ok in Hrun. destruct Hrun as (m & Hm & _).
    apply index_Ok in Hm. eapply lookup_lt_Some; eauto.
  - exfalso. apply Hnin. apply elem_of_dom. eauto.
Qed.

Lemma compute_surprise_raise (sq : list Z) (out : output) (order : nat) (e : exn) :
  compute_surprise sq out order = Raise e ->
  e = IndexError
  /\ exists t r,
       Nat.max order 1 <= t < length sq
       /\ post out !! pattern_at sq order t = Some r
       /\ length (mean r) < t.
Proof.
  intros Hrun. unfold compute_surprise in Hrun.
  destruct order as [| order]; simpl Nat.eqb in Hrun; cbv iota zeta in Hrun.
  - apply for_each_raise in Hrun. destruct Hrun as (t & s & Ht & Hb).
    apply in_seq in Ht.
    destruct (lookup_lt_is_Some_2 sq t) as [st Hst]; [lia |].
    unfold index in Hb at 1. rewrite Hst in Hb. simpl in Hb.
    rewrite <- (pattern_at_order0 sq t st Hst) in Hb.
    destruct (surprise_step_raise _ _ _ _ _ Hb) as (-> & r & Hr & Hlen).
    split; [reflexivity |]. exists t, r. repeat split; try assumption; lia.
  - apply for_each_raise in Hrun. destruct Hrun as (t & s & Ht & Hb).
    apply in_seq in Ht.
    destruct (surprise_step_raise out (pattern_at sq (S order) t) t s e Hb)
      as (-> & r & Hr & Hlen).
    split; [reflexivity |]. exists t, r. repeat split; try assumption; lia.
Qed.

Lemma compute_surprise_in_range (sq : list Z) (out : output) (order : nat)
    (s : list float64) :
  compute_surprise sq out order = Ok s ->
  forall t r,
    Nat.max order 1 <= t < length sq ->
    post out !! pattern_at sq order t = Some r ->
    t - 1 < length (mean r).
Proof.
  intros Hrun. unfold compute_surprise in Hrun.
  assert (forall lo,
            for_each (seq lo (length sq - lo))
              (fun t surprise =>
                 st <- index sq t ;;
                 surprise_step out (pattern_at sq order t) t surprise)
              (scale NaN (np_ones (length sq))) = Ok s ->
            forall t r, lo <= t < length sq ->
              post out !! pattern_at sq order t = Some r ->
              t - 1 < length (mean r)) as Hgen.
  { intros lo Hloop t r Ht Hr.
    refine (for_each_seq_inv
              (fun k _ => forall t r, lo <= t < k ->
                 post out !! pattern_at sq order t = Some r ->
                 t - 1 < length (mean r))
              _ _ _ _ _ _ _ Hloop t r _ Hr); [| | lia].
    - intros t0 r0 Ht0. lia.
    - intros k s0 s1 Hk Hinv Hb t0 r0 Ht0 Hr0.
      destruct (decide (t0 = k)) as [-> | Hne]; [| apply Hinv; [lia | exact Hr0]].
      apply bind_Ok in Hb. destruct Hb as (st & _ & Hb).
      exact (surprise_step_in_range _ _ _ _ _ _ Hb Hr0). }
  destruct order as [| order]; simpl Nat.eqb in Hrun; cbv iota zeta in Hrun.
  - intros t r Ht Hr. apply (Hgen 1); [| lia | exact Hr].
    unfold range in Hrun. rewrite <- Hrun.
    assert (forall len lo s0,
              for_each (seq lo len)
                (fun t surprise =>
                   st <- index sq t ;;
                   surprise_step out (pattern_at sq 0 t) t surprise) s0
              = for_each (seq lo len)
                  (fun t surprise =>
                     st <- index sq t ;;
                     if decide ([st] ∈ (dom (post out) : gset (list Z)))
                     then r <- get_post out [st] ;;
                          m <- index (mean r) (t - 1) ;;
                          Ok (<[t := fneg (flog2 m)]> surprise)
                     else Ok surprise) s0) as Heq.
    { induction len as [| len IH]; intros lo s0; simpl; [reflexivity |].
      unfold index at 1 3.
      destruct (sq !! lo) as [st |] eqn:Hst; simpl; [| reflexivity].
      rewrite (pattern_at_order0 sq lo st Hst).
      fold (surprise_step out [st] lo s0).
      destruct (surprise_step out [st] lo s0); simpl; [apply IH | reflexivity]. }
    apply Heq.
  - intros t r Ht Hr. apply (Hgen (S order)); [| lia | exact Hr].
    unfold range in Hrun. rewrite <- Hrun.
    generalize (scale NaN (np_ones (length sq))) as s0.
    assert (forall len lo, lo + len <= length sq -> forall s0,
              for_each (seq lo len)
                (fun t surprise =>
                   st <- index sq t ;;
                   surprise_step out (pattern_at sq (S order) t) t surprise) s0
              = for_each (seq lo len)
                  (fun t surprise =>
                     if decide (slice sq (t - S order) (t + 1)
                                ∈ (dom (post out) : gset (list Z)))
                     then r <- get_post out (slice sq (t - S order) (t + 1)) ;;
                          m <- index (mean r) (t - 1) ;;
                          Ok (<[t := fneg (flog2 m)]> surprise)
                     else Ok surprise) s0) as Heq.
    { induction len as [| len IH]; intros lo Hlo s0; simpl; [reflexivity |].
      destruct (lookup_lt_is_Some_2 sq lo) as [st Hst]; [lia |].
      unfold index at 1. rewrite Hst. simpl.
      fold (pattern_at sq (S order) lo).
      fold (surprise_step out (pattern_at sq (S order) lo) lo s0).
      destruct (surprise_step out (pattern_at sq (S order) lo) lo s0); simpl;
        [apply IH; lia | reflexivity]. }
    intros s0. apply Heq. lia.
Qed.

(** X7. The only exception [compute_surprise] raises is [IndexError], and it
    raises it exactly when, at some trial from [max(order, 1)] on, the
    realised pattern is a key whose mean array has no entry for the trial
    before. *)
Theorem compute_surprise_index_error (sq : list Z) (out : output) (order : nat) :
  (forall e, compute_surprise sq out order = Raise e -> e = IndexError)
  /\ (compute_surprise sq out order = Raise IndexError
      <-> exists t r,
            Nat.max order 1 <= t < length sq
            /\ post out !! pattern_at sq order t = Some r
            /\ length (mean r) < t).
Proof.
  split; [intros e He; now destruct (compute_surprise_raise _ _ _ _ He) |].
  split.
  - intros He. now destruct (compute_surprise_raise _ _ _ _ He).
  - intros (t & r & Ht & Hr & Hlen).
    destruct (compute_surprise sq out order) as [s | e] eqn:Hrun.
    + pose proof (compute_surprise_in_range sq out order s Hrun t r Ht Hr). lia.
    + now destruct (compute_surprise_raise _ _ _ _ Hrun) as [-> _].
Qed.

(** ** What [add_predictions] leaves alone *)

Lemma set_item_frame (s s1 : output) (k : string) (t : nat) (v : float64) :
  set_item s k t v = Ok s1 ->
  post s1 = post s /\ forall k', k' <> k -> named s1 !! k' = named s !! k'.
Proof.
  unfold set_item. intros Hrun.
  apply bind_Ok in Hrun. destruct Hrun as (a & _ & Hrun).
  apply bind_Ok in Hrun. destruct Hrun as (a' & _ & Hrun).
  destruct (t <? length a'); [| discriminate]. injection Hrun as <-.
  split; [reflexivity |]. intros k' Hk'. simpl. now rewrite lookup_insert_ne.
Qed.

Lemma assign_from1_frame (s s1 : output) (k : string) (src : list float64) :
  assign_from1 s k src = Ok s1 ->
  post s1 = post s /\ forall k', k' <> k -> named s1 !! k' = named s !! k'.
Proof.
  unfold assign_from1. intros Hrun.
  apply bind_Ok in Hrun. destruct Hrun as (a & _ & Hrun).
  apply bind_Ok in Hrun. destruct Hrun as (a' & _ & Hrun).
  destruct (_ =? _).
  - injection Hrun as <-. split; [reflexivity |].
    intros k' Hk'. simpl. now rewrite lookup_insert_ne.
  - destruct src as [| v [| ? ?]]; try discriminate. injection Hrun as <-.
    split; [reflexivity |]. intros k' Hk'. simpl. now rewrite lookup_insert_ne.
Qed.

(** A state of the loops of [add_predictions] that differs from [out] in the
    two arrays of current predictions at most. *)
Lemma add_predictions_loop_frame {collab : Collaborators}
    (out : output) (sq : list Z) (order : nat) (Nitem : Z)
    (p0 sd0 : float64) (s0 sl : output) :
  (post s0 = post out
   /\ forall k, k <> "current_prediction_p0"%string ->
                k <> "current_prediction_SDp0"%string ->
                named s0 !! k = named out !! k) ->
  (if order =? 0 then
     for_each (range 0 (length sq))
       (fun t out =>
          r <- get_post out [0%Z] ;;
          x <- index (mean r) t ;;
          out <- set_item out "current_prediction_p0" t x ;;
          r <- get_post out [0%Z] ;;
          x <- index (SD r) t ;;
          set_item out "current_prediction_SDp0" t x)
       s0
   else
     for_each (range order (length sq))
       (fun t out =>
          let context := slice sq (t - order + 1) (t + 1) in
          if existsb (fun x => (x =? Nitem)%Z) context then
            out <- set_item out "current_prediction_p0" t p0 ;;
            set_item out "current_prediction_SDp0" t sd0
          else
            r <- get_post out (context ++ [0%Z]) ;;
            x <- index (mean r) t ;;
            out <- set_item out "current_prediction_p0" t x ;;
            r <- get_post out (context ++ [0%Z]) ;;
            x <- index (SD r) t ;;
            set_item out "current_prediction_SDp0" t x)
       s0) = Ok sl ->
  post sl = post out
  /\ forall k, k <> "current_prediction_p0"%string ->
               k <> "current_prediction_SDp0"%string ->
               named sl !! k = named out !! k.
Proof.
  intros Hinit Hloop.
  assert (forall s s1 s2 t x y,
            (post s = post out
             /\ forall k, k <> "current_prediction_p0"%string ->
                          k <> "current_prediction_SDp0"%string ->
                          named s !! k = named out !! k) ->
            set_item s "current_prediction_p0" t x = Ok s1 ->
            set_item s1 "current_prediction_SDp0" t y = Ok s2 ->
            post s2 = post out
            /\ forall k, k <> "current_prediction_p0"%string ->
                         k <> "current_prediction_SDp0"%string ->
                         named s2 !! k = named out !! k) as Htwo.
  { intros s s1 s2 t x y [Hp Hn] H1 H2.
    apply set_item_frame in H1. destruct H1 as [Hp1 Hn1].
    apply set_item_frame in H2. destruct H2 as [Hp2 Hn2].
    split; [congruence |]. intros k Hk1 Hk2.
    rewrite Hn2, Hn1 by assumption. now apply Hn. }
  destruct (order =? 0); unfold range in Hloop; revert Hloop;
    apply (for_each_seq_inv
             (fun _ s => post s = post out
                         /\ forall k, k <> "current_prediction_p0"%string ->
                                      k <> "current_prediction_SDp0"%string ->
                                      named s !! k = named out !! k));
    try exact Hinit.
  - intros t s s2 _ Hs Hb.
    apply bind_Ok in Hb. destruct Hb as (r & _ & Hb).
    apply bind_Ok in Hb. destruct Hb as (x & _ & Hb).
    apply bind_Ok in Hb. destruct Hb as (s1 & H1 & Hb).
    apply bind_Ok in Hb. destruct Hb as (r' & _ & Hb).
    apply bind_Ok in Hb. destruct Hb as (y & _ & H2).
    exact (Htwo s s1 s2 t x y Hs H1 H2).
  - intros t s s2 _ Hs Hb. cbv zeta in Hb.
    destruct (existsb _ _).
    + apply bind_Ok in Hb. destruct Hb as (s1 & H1 & H2).
      exact (Htwo s s1 s2 t p0 sd0 Hs H1 H2).
    + apply bind_Ok in Hb. destruct Hb as (r & _ & Hb).
      apply bind_Ok in Hb. destruct Hb as (x & _ & Hb).
      apply bind_Ok in Hb. destruct Hb as (s1 & H1 & Hb).
      apply bind_Ok in Hb. destruct Hb as (r' & _ & Hb).
      apply bind_Ok in Hb. destruct Hb as (y & _ & H2).
      exact (Htwo s s1 s2 t x y Hs H1 H2).
Qed.

Lemma not_prediction_key (k : string) :
  ~ In k ["current_prediction_p0"; "current_prediction_SDp0";
          "prior_prediction_p0"; "prior_prediction_SDp0"]%string ->
  k <> "current_prediction_p0"%string /\ k <> "current_prediction_SDp0"%string
  /\ k <> "prior_prediction_p0"%string /\ k <> "prior_prediction_SDp0"%string.
Proof.
  intros H. repeat split; intros ->; apply H; simpl; auto 6.
Qed.

Lemma add_predictions_keeps
    {collab : Collaborators}
    (out : output) (sq : list Z) (order : nat) (options : gmap string pyval)
    (ObsType : string) (Nitem : Z) (out' : output) :
  add_predictions out sq order options ObsType Nitem = Ok out' ->
  post out' = post out
  /\ forall k,
       ~ In k ["current_prediction_p0"; "current_prediction_SDp0";
               "prior_prediction_p0"; "prior_prediction_SDp0"]%string ->
       named out' !! k = named out !! k.
Proof.
  intros Hrun. unfold add_predictions in Hrun.
  destruct (2 <? Nitem)%Z.
  - injection Hrun as <-. split; [reflexivity |].
    intros k Hk. apply not_prediction_key in Hk. destruct Hk as (K1 & K2 & K3 & K4).
    simpl. rewrite !lookup_insert_ne by congruence. reflexivity.
  - apply bind_Ok in Hrun. destruct Hrun as ([p0 sd0] & _ & Hrun).
    cbv zeta in Hrun. simpl fst in Hrun. simpl snd in Hrun.
    apply bind_Ok in Hrun. destruct Hrun as (sl & Hloop & Hrun).
    apply (add_predictions_loop_frame out sq order Nitem p0 sd0) in Hloop.
    + destruct Hloop as [Hpl Hnl].
      apply bind_Ok in Hrun. destruct Hrun as (cp & _ & Hrun).
      apply bind_Ok in Hrun. destruct Hrun as (cp' & _ & Hrun).
      apply bind_Ok in Hrun. destruct Hrun as (s1 & H1 & Hrun).
      apply bind_Ok in Hrun. destruct Hrun as (csd & _ & Hrun).
      apply bind_Ok in Hrun. destruct Hrun as (csd' & _ & H2).
      apply assign_from1_frame in H1. destruct H1 as [Hp1 Hn1].
      apply assign_from1_frame in H2. destruct H2 as [Hp2 Hn2].
      split; [simpl in *; congruence |].
      intros k Hk. apply not_prediction_key in Hk.
      destruct Hk as (K1 & K2 & K3 & K4).
      rewrite Hn2, Hn1 by assumption. simpl.
      rewrite !lookup_insert_ne by congruence. now apply Hnl.
    + split; [reflexivity |]. intros k Hk1 Hk2. simpl.
      rewrite !lookup_insert_ne by congruence. reflexivity.
Qed.

(** X8. [add_predictions] changes nothing of the output but the four
    prediction entries: the posterior of every pattern and every other
    string entry are those of the output it was given. *)
Theorem add_predictions_frame
    {collab : Collaborators}
    (out : output) (sq : list Z) (order : nat) (options : gmap string pyval)
    (ObsType : string) (Nitem : Z) (out' : output) :
  add_predictions out sq order options ObsType Nitem = Ok out' ->
  post out' = post out
  /\ forall k,
       ~ In k ["current_prediction_p0"; "current_prediction_SDp0";
               "prior_prediction_p0"; "prior_prediction_SDp0"]%string ->
       named out' !! k = named out !! k.
Proof.
  exact (add_predictions_keeps out sq order options ObsType Nitem out').
Qed.

(** X8 on the sequence 0, 1, 2 at order 1, for the entry ['surprise']. *)
Lemma add_predictions_frame_witness :
  exists out',
    add_predictions (collab := example_collaborators)
      (set_named "surprise" (PyArr [NaN; Fin 1; Fin 2]) example_out_order1)
      [0; 1; 2]%Z 1 ∅ "hmm" 2 = Ok out'
    /\ post out' = post example_out_order1
    /\ named out' !! "surprise" = Some (PyArr [NaN; Fin 1; Fin 2]).
Proof.
  eexists. split; [vm_compute; reflexivity |].
  destruct (add_predictions_frame (collab := example_collaborators)
              (set_named "surprise" (PyArr [NaN; Fin 1; Fin 2]) example_out_order1)
              [0; 1; 2]%Z 1 ∅ "hmm" 2 _ ltac:(vm_compute; reflexivity))
    as [Hp Hn].
  split; [exact Hp |].
  rewrite (Hn "surprise"%string); [reflexivity |].
  simpl. intros [H | [H | [H | [H | []]]]]; discriminate.
Defined.

(** ** The entries of the output of the wrapper *)

Lemma compute_surprise_first (sq : list Z) (o : output) (order : nat)
    (s : list float64) :
  compute_surprise sq o order = Ok s ->
  length s = length sq /\ (0 < length sq -> s !! 0 = Some NaN).
Proof.
  intros Hrun. destruct (compute_surprise_Ok sq o order s Hrun) as [Hlen Hs].
  split; [exact Hlen |]. intros HT. rewrite (Hs 0 HT). f_equal.
  unfold surprise_at. destruct (Nat.leb_spec (Nat.max order 1) 0); [lia | reflexivity].
Qed.

Section OutputEntries.
Context {collab : Collaborators}.

Lemma branch_fixed_entries (sq : list Z) (order : nat) (Nitem : Z)
    (st st' : locals) :
  branch_fixed sq order Nitem st = Ok st' ->
  exists o,
    l_out st' = Some o
    /\ surprise_entry sq o
    /\ named o !! "shannon" = named o !! "surprise"
    /\ exists al b,
         named o !! "alphas" = Some (PyAlphas al)
         /\ KL al = Ok b
         /\ named o !! "bayesian" = Some (PyArr b).
Proof.
  intros Hrun. unfold branch_fixed in Hrun.
  repeat (apply bind_Ok in Hrun; destruct Hrun as (? & ? & Hrun)).
  injection Hrun as <-. eexists. split; [reflexivity |].
  match goal with
  | H : compute_surprise _ _ _ = Ok ?s |- _ =>
      destruct (compute_surprise_first _ _ _ _ H) as [Hlen Hfirst]
  end.
  match goal with
  | H : get_named _ "surprise" = Ok ?v |- _ =>
      unfold get_named in H; simpl in H;
      rewrite !lookup_insert_ne in H by discriminate;
      rewrite lookup_insert_eq in H; injection H as <-
  end.
  match goal with
  | H : compute_bayesian _ = Ok ?b |- _ =>
      unfold compute_bayesian, get_named in H; simpl in H;
      rewrite !lookup_insert_ne in H by discriminate;
      rewrite lookup_insert_eq in H; simpl in H
  end.
  split; [| split].
  - eexists. split; [| split; [exact Hlen | exact Hfirst]].
    simpl. rewrite !lookup_insert_ne by discriminate. apply lookup_insert_eq.
  - simpl. rewrite !lookup_insert_ne by discriminate. rewrite lookup_insert_eq.
    rewrite !lookup_insert_ne by discriminate. now rewrite lookup_insert_eq.
  - eexists. eexists. split; [| split].
    + simpl. rewrite !lookup_insert_ne by discriminate. apply lookup_insert_eq.
    + eassumption.
    + simpl. rewrite !lookup_insert_ne by discriminate. apply lookup_insert_eq.
Qed.

Lemma branch_hmm_entries (sq : list Z) (order : nat) (Nitem : Z)
    (st st' : locals) :
  branch_hmm sq order Nitem st = Ok st' ->
  exists o, l_out st' = Some o /\ surprise_entry sq o.
Proof.
  intros Hrun. unfold branch_hmm in Hrun.
  repeat (apply bind_Ok in Hrun; destruct Hrun as (? & ? & Hrun)).
  injection Hrun as <-. eexists. split; [reflexivity |].
  match goal with
  | H : compute_surprise _ _ _ = Ok ?s |- _ =>
      destruct (compute_surprise_first _ _ _ _ H) as [Hlen Hfirst]
  end.
  eexists. split; [| split; [exact Hlen | exact Hfirst]].
  simpl. apply lookup_insert_eq.
Qed.

Lemma branch_hmm_uncoupled_entries (sq : list Z) (order : nat) (Nitem : Z)
    (st st' : locals) :
  branch_hmm_uncoupled sq order Nitem st = Ok st' ->
  exists o, l_out st' = Some o /\ surprise_entry sq o.
Proof.
  intros Hrun. unfold branch_hmm_uncoupled in Hrun.
  repeat (apply bind_Ok in Hrun; destruct Hrun as (? & ? & Hrun)).
  injection Hrun as <-. eexists. split; [reflexivity |].
  match goal with
  | H : compute_surprise _ _ _ = Ok ?s |- _ =>
      destruct (compute_surprise_first _ _ _ _ H) as [Hlen Hfirst]
  end.
  eexists. split; [| split; [exact Hlen | exact Hfirst]].
  simpl. apply lookup_insert_eq.
Qed.

Lemma branch_full_entries
    (posterior_prediction :
       list Z -> nat -> Z -> pyval -> pyval -> pyval -> result volatility_posterior)
    (sq : list Z) (order : nat) (Nitem : Z) (st st' : locals) :
  branch_full posterior_prediction sq order Nitem st = Ok st' ->
  exists o res theta_resol vol_grid vol_prior,
    l_out st' = Some o
    /\ surprise_entry sq o
    /\ posterior_prediction sq order Nitem theta_resol vol_grid vol_prior = Ok res
    /\ named o !! "volatility" = Some (post_nu res).
Proof.
  intros Hrun. unfold branch_full in Hrun.
  apply bind_Ok in Hrun. destruct Hrun as (tvv & _ & Hrun).
  apply bind_Ok in Hrun. destruct Hrun as ([[theta_resol vol_grid] vol_prior] & _ & Hrun).
  apply bind_Ok in Hrun. destruct Hrun as (res & Hres & Hrun).
  apply bind_Ok in Hrun. destruct Hrun as (o & _ & Hrun).
  apply bind_Ok in Hrun. destruct Hrun as (s & Hs & Hrun).
  injection Hrun as <-.
  destruct (compute_surprise_first _ _ _ _ Hs) as [Hlen Hfirst].
  eexists. exists res, theta_resol, vol_grid, vol_prior.
  split; [reflexivity |]. split; [| split; [exact Hres |]].
  - eexists. split; [| split; [exact Hlen | exact Hfirst]].
    simpl. rewrite lookup_insert_ne by discriminate. apply lookup_insert_eq.
  - simpl. apply lookup_insert_eq.
Qed.

Lemma when_type_keeps (P : output -> Prop) (ObsType name : string)
    (body : locals -> result locals) (st st' : locals) :
  (forall st0 st1, body st0 = Ok st1 -> exists o, l_out st1 = Some o /\ P o) ->
  (forall o, l_out st = Some o -> P o) ->
  when_type ObsType name body st = Ok st' ->
  forall o, l_out st' = Some o -> P o.
Proof.
  intros Hbody Hst Hrun. unfold when_type in Hrun.
  destruct (String.eqb _ _).
  - destruct (Hbody _ _ Hrun) as (o & Ho & HP). intros o' Ho'. congruence.
  - now injection Hrun as <-.
Qed.

(** X9. Whatever the observer, the output [IdealObserver] returns holds
    under ['surprise'] an array as long as the sequence, and the surprise of
    the first trial is NaN. *)
Theorem IdealObserver_surprise_entry
    (sq : list Z) (ObsType : string) (order : nat) (Nitem : option Z)
    (options : option (list (string * pyval))) (out : output) :
  IdealObserver sq ObsType order Nitem options = Ok out ->
  exists s,
    named out !! "surprise" = Some (PyArr s)
    /\ length s = length sq
    /\ (0 < length sq -> s !! 0 = Some NaN).
Proof.
  intros Hrun. unfold IdealObserver in Hrun.
  apply bind_Ok in Hrun. destruct Hrun as (checked & _ & Hrun).
  apply bind_Ok in Hrun. destruct Hrun as (st1 & H1 & Hrun).
  apply bind_Ok in Hrun. destruct Hrun as (st2 & H2 & Hrun).
  apply bind_Ok in Hrun. destruct Hrun as (st3 & H3 & Hrun).
  apply bind_Ok in Hrun. destruct Hrun as (st4 & H4 & Hrun).
  apply bind_Ok in Hrun. destruct Hrun as (st5 & H5 & Hrun).
  assert (forall o, l_out st5 = Some o -> surprise_entry sq o) as Hentry.
  { eapply when_type_keeps; [| | exact H5].
    { intros st0 st' Hb. destruct (branch_full_entries _ _ _ _ _ _ Hb)
        as (o & ? & ? & ? & ? & Ho & HP & _). eauto. }
    eapply when_type_keeps; [| | exact H4].
    { intros st0 st' Hb. destruct (branch_full_entries _ _ _ _ _ _ Hb)
        as (o & ? & ? & ? & ? & Ho & HP & _). eauto. }
    eapply when_type_keeps; [| | exact H3].
    { intros st0 st' Hb. exact (branch_hmm_uncoupled_entries _ _ _ _ _ Hb). }
    eapply when_type_keeps; [| | exact H2].
    { intros st0 st' Hb. exact (branch_hmm_entries _ _ _ _ _ Hb). }
    eapply when_type_keeps; [| | exact H1].
    { intros st0 st' Hb. destruct (branch_fixed_entries _ _ _ _ _ Hb)
        as (o & Ho & HP & _). eauto. }
    simpl. discriminate. }
  destruct (l_out st5) as [o |] eqn:Ho; [| discriminate].
  destruct (Hentry o eq_refl) as (s & Hs & Hlen & Hfirst).
  destruct (add_predictions_keeps _ _ _ _ _ _ _ Hrun) as [_ Hframe].
  exists s. split; [| split; [exact Hlen | exact Hfirst]].
  rewrite Hframe; [exact Hs |].
  simpl. intros [H | [H | [H | [H | []]]]]; discriminate.
Qed.

End OutputEntries.

(** X9 on the observer ['hmm'] with three trials. *)
Lemma IdealObserver_surprise_entry_witness :
  exists out s,
    IdealObserver (collab := example_collaborators)
      [0; 1; 0]%Z "hmm" 0 (Some 3%Z) (Some [("p_c"%string, PyFloat (Fin (1 / 10)))])
    = Ok out
    /\ named out !! "surprise" = Some (PyArr s)
    /\ length s = 3
    /\ (0 < 3 -> s !! 0 = Some NaN).
Proof.
  eexists.
  eassert (IdealObserver (collab := example_collaborators)
             [0; 1; 0]%Z "hmm" 0 (Some 3%Z)
             (Some [("p_c"%string, PyFloat (Fin (1 / 10)))]) = Ok _) as Hrun
    by (vm_compute; reflexivity).
  destruct (IdealObserver_surprise_entry _ _ _ _ _ _ Hrun) as (s & Hs & Hlen & Hfirst).
  exists s. split; [exact Hrun |]. repeat split; assumption.
Defined.

Section FixedEntries.
Context {collab : Collaborators}.

Lemma when_type_other (ObsType name : string) (body : locals -> result locals)
    (st st' : locals) :
  String.eqb (lower ObsType) name = false ->
  when_type ObsType name body st = Ok st' -> st' = st.
Proof.
  intros Hne Hrun. unfold when_type in Hrun. rewrite Hne in Hrun.
  now injection Hrun as <-.
Qed.

(** X10. For the observer ['fixed'] (in any letter case), the output
    [IdealObserver] returns holds under ['shannon'] the very entry it holds
    under ['surprise'], and under ['bayesian'] the result of [KL] on the
    table it holds under ['alphas']. *)
Theorem IdealObserver_fixed_entries
    (sq : list Z) (ObsType : string) (order : nat) (Nitem : option Z)
    (options : option (list (string * pyval))) (out : output) :
  lower ObsType = "fixed"%string ->
  IdealObserver sq ObsType order Nitem options = Ok out ->
  named out !! "shannon" = named out !! "surprise"
  /\ exists al b,
       named out !! "alphas" = Some (PyAlphas al)
       /\ KL al = Ok b
       /\ named out !! "bayesian" = Some (PyArr b).
Proof.
  intros Htype Hrun. unfold IdealObserver in Hrun.
  apply bind_Ok in Hrun. destruct Hrun as (checked & _ & Hrun).
  apply bind_Ok in Hrun. destruct Hrun as (st1 & H1 & Hrun).
  apply bind_Ok in Hrun. destruct Hrun as (st2 & H2 & Hrun).
  apply bind_Ok in Hrun. destruct Hrun as (st3 & H3 & Hrun).
  apply bind_Ok in Hrun. destruct Hrun as (st4 & H4 & Hrun).
  apply bind_Ok in Hrun. destruct Hrun as (st5 & H5 & Hrun).
  apply when_type_other in H5; [| now rewrite Htype].
  apply when_type_other in H4; [| now rewrite Htype].
  apply when_type_other in H3; [| now rewrite Htype].
  apply when_type_other in H2; [| now rewrite Htype].
  subst st5 st4 st3 st2.
  unfold when_type in H1. rewrite Htype in H1. cbn [String.eqb] in H1.
  change (String.eqb "fixed" "fixed") with true in H1. cbv iota in H1.
  destruct (branch_fixed_entries _ _ _ _ _ H1)
    as (o & Ho & _ & Hshannon & al & b & Hal & HKL & Hb).
  rewrite Ho in Hrun.
  destruct (add_predictions_keeps _ _ _ _ _ _ _ Hrun) as [_ Hframe].
  assert (forall k : string,
            String.eqb k "current_prediction_p0" = false ->
            String.eqb k "current_prediction_SDp0" = false ->
            String.eqb k "prior_prediction_p0" = false ->
            String.eqb k "prior_prediction_SDp0" = false ->
            named out !! k = named o !! k) as Hkeep.
  { intros k K1 K2 K3 K4. apply Hframe. simpl.
    intros [H | [H | [H | [H | []]]]]; subst k; discriminate. }
  split.
  - rewrite !Hkeep by reflexivity. exact Hshannon.
  - exists al, b. rewrite !Hkeep by reflexivity. now repeat split.
Qed.

End FixedEntries.

Lemma IdealObserver_fixed_one_trial :
  exists out,
    IdealObserver (collab := example_fixed_collaborators)
      [0]%Z "Fixed" 0 (Some 2%Z) (Some []) = Ok out.
Proof.
  eexists. vm_compute. reflexivity.
Qed.

(** X10 on the observer ['Fixed'] with a sequence of one trial. *)
Lemma IdealObserver_fixed_entries_witness :
  exists out al b,
    lower "Fixed" = "fixed"%string
    /\ IdealObserver (collab := example_fixed_collaborators)
         [0]%Z "Fixed" 0 (Some 2%Z) (Some []) = Ok out
    /\ named out !! "shannon" = named out !! "surprise"
    /\ named out !! "alphas" = Some (PyAlphas al)
    /\ KL al = Ok b
    /\ named out !! "bayesian" = Some (PyArr b).
Proof.
  destruct IdealObserver_fixed_one_trial as [out Hrun].
  destruct (IdealObserver_fixed_entries (collab := example_fixed_collaborators)
              [0]%Z "Fixed" 0 (Some 2%Z) (Some []) out eq_refl Hrun)
    as (Hs & al & b & Hal & HKL & Hb).
  exists out, al, b. split; [reflexivity |]. split; [exact Hrun |].
  repeat split; assumption.
Defined.

(** ** The current predictions at order zero and before the first full context *)

Lemma scale_ones_lookup (c : float64) (n t : nat) :
  t < n -> scale c (np_ones n) !! t = Some c.
Proof.
  intros Ht. unfold scale, np_ones.
  rewrite list_lookup_fmap, lookup_replicate_2 by exact Ht.
  simpl. now rewrite fmul_1_r.
Qed.

Section CurrentPredictions.
Context {collab : Collaborators}.

Lemma add_predictions_body0 (out0 : output) (sq : list Z) (t : nat)
    (s s1 : output) (cp csd : list float64) :
  t < length sq -> post s = post out0 -> prediction_arrays sq s cp csd ->
  (r <- get_post s [0%Z] ;;
   x <- index (mean r) t ;;
   out <- set_item s "current_prediction_p0" t x ;;
   r <- get_post out [0%Z] ;;
   x <- index (SD r) t ;;
   set_item out "current_prediction_SDp0" t x) = Ok s1 ->
  exists r x y,
    post out0 !! [0%Z] = Some r /\ mean r !! t = Some x /\ SD r !! t = Some y
    /\ post s1 = post out0
    /\ prediction_arrays sq s1 (<[t := x]> cp) (<[t := y]> csd).
Proof.
  intros Ht Hpost (Hcp & Hcsd & Hlcp & Hlcsd) Hrun.
  unfold get_post in Hrun at 1. rewrite Hpost in Hrun.
  destruct (post out0 !! [0%Z]) as [r |] eqn:Hr; [| discriminate].
  simpl in Hrun.
  destruct (index (mean r) t) as [x |] eqn:Hx; [| discriminate].
  simpl in Hrun. apply index_Ok in Hx.
  rewrite (set_item_Ok s _ cp t x Hcp) in Hrun by lia. simpl in Hrun.
  unfold get_post in Hrun. simpl in Hrun. rewrite Hpost, Hr in Hrun.
  simpl in Hrun.
  destruct (index (SD r) t) as [y |] eqn:Hy; [| discriminate].
  simpl in Hrun. apply index_Ok in Hy.
  erewrite (set_item_Ok _ _ csd t y) in Hrun; [| by simplify_map_eq | lia].
  injection Hrun as <-.
  exists r, x, y. split; [reflexivity |]. split; [exact Hx |]. split; [exact Hy |].
  split; [exact Hpost |].
  unfold prediction_arrays. simpl. rewrite !length_insert.
  repeat split; try assumption; by simplify_map_eq.
Qed.

Lemma add_predictions_body_arrays (sq : list Z) (order : nat) (Nitem : Z)
    (p0 sd0 : float64) (t : nat) (s s1 : output) (cp csd : list float64) :
  t < length sq -> prediction_arrays sq s cp csd ->
  (let context := slice sq (t - order + 1) (t + 1) in
   if existsb (fun x => (x =? Nitem)%Z) context then
     out <- set_item s "current_prediction_p0" t p0 ;;
     set_item out "current_prediction_SDp0" t sd0
   else
     r <- get_post s (context ++ [0%Z]) ;;
     x <- index (mean r) t ;;
     out <- set_item s "current_prediction_p0" t x ;;
     r <- get_post out (context ++ [0%Z]) ;;
     x <- index (SD r) t ;;
     set_item out "current_prediction_SDp0" t x) = Ok s1 ->
  exists x y, prediction_arrays sq s1 (<[t := x]> cp) (<[t := y]> csd).
Proof.
  intros Ht Harr Hrun. cbv zeta in Hrun.
  destruct (existsb _ _).
  - destruct (set_both_Ok sq s cp csd t p0 sd0 Harr Ht) as (s2 & Hs2 & _ & Ha2).
    rewrite Hs2 in Hrun. injection Hrun as <-. eauto.
  - apply bind_Ok in Hrun. destruct Hrun as (r & _ & Hrun).
    apply bind_Ok in Hrun. destruct Hrun as (x & _ & Hrun).
    destruct Harr as (Hcp & Hcsd & Hlcp & Hlcsd).
    rewrite (set_item_Ok s _ cp t x Hcp) in Hrun by lia. simpl in Hrun.
    apply bind_Ok in Hrun. destruct Hrun as (r' & _ & Hrun).
    apply bind_Ok in Hrun. destruct Hrun as (y & _ & Hrun).
    erewrite (set_item_Ok _ _ csd t y) in Hrun; [| by simplify_map_eq | lia].
    injection Hrun as <-. exists x, y.
    unfold prediction_arrays. simpl. rewrite !length_insert.
    repeat split; try assumption; by simplify_map_eq.
Qed.

(** The arrays of current predictions [add_predictions] leaves for a binary
    sequence: at order zero, and before the first full context. *)
Lemma add_predictions_current
    (out : output) (sq : list Z) (order : nat) (options : gmap string pyval)
    (ObsType : string) (Nitem : Z) (out' : output) :
  (Nitem <= 2)%Z ->
  add_predictions out sq order options ObsType Nitem = Ok out' ->
  exists p0 sd0 cp csd,
    base_prior order options ObsType = Ok (p0, sd0)
    /\ named out' !! "current_prediction_p0" = Some (PyArr cp)
    /\ named out' !! "current_prediction_SDp0" = Some (PyArr csd)
    /\ (order = 0 ->
        forall t, t < length sq ->
          exists r x y,
            post out !! [0%Z] = Some r
            /\ mean r !! t = Some x /\ SD r !! t = Some y
            /\ cp !! t = Some x /\ csd !! t = Some y)
    /\ (forall t, t < order -> t < length sq ->
          cp !! t = Some p0 /\ csd !! t = Some sd0).
Proof.
  intros HN Hrun. unfold add_predictions in Hrun.
  destruct (Z.ltb_spec 2 Nitem) as [Hlt | _]; [lia |].
  apply bind_Ok in Hrun. destruct Hrun as ([p0 sd0] & Hbase & Hrun).
  cbv zeta in Hrun. simpl fst in Hrun. simpl snd in Hrun.
  apply bind_Ok in Hrun. destruct Hrun as (sl & Hloop & Hrun).
  set (out1 := set_named "current_prediction_SDp0"
                 (PyArr (scale sd0 (np_ones (length sq))))
                 (set_named "current_prediction_p0"
                    (PyArr (scale p0 (np_ones (length sq)))) out)) in Hloop.
  assert (prediction_arrays sq out1
            (scale p0 (np_ones (length sq))) (scale sd0 (np_ones (length sq))))
    as Hinit.
  { unfold prediction_arrays, out1. simpl.
    unfold scale, np_ones. rewrite !length_map, !length_replicate.
    repeat split; by simplify_map_eq. }
  assert (exists cp csd,
            prediction_arrays sq sl cp csd
            /\ (order = 0 ->
                forall t, t < length sq ->
                  exists r x y,
                    post out !! [0%Z] = Some r
                    /\ mean r !! t = Some x /\ SD r !! t = Some y
                    /\ cp !! t = Some x /\ csd !! t = Some y)
            /\ (forall t, t < order -> t < length sq ->
                  cp !! t = Some p0 /\ csd !! t = Some sd0))
    as (cp & csd & Harr & Hzero & Hbefore).
  { destruct order as [| order]; simpl Nat.eqb in Hloop; cbv iota in Hloop.
    - unfold range in Hloop.
      apply (for_each_seq_inv
               (fun k s =>
                  post s = post out
                  /\ exists cp csd,
                       prediction_arrays sq s cp csd
                       /\ forall t, t < k ->
                            exists r x y,
                              post out !! [0%Z] = Some r
                              /\ mean r !! t = Some x /\ SD r !! t = Some y
                              /\ cp !! t = Some x /\ csd !! t = Some y))
        in Hloop.
      + destruct Hloop as (_ & cp & csd & Ha & Hd). exists cp, csd.
        split; [exact Ha |]. split.
        * intros _ t Ht. apply Hd. lia.
        * intros t Ht. lia.
      + split; [reflexivity |]. eexists. eexists. split; [exact Hinit |].
        intros t Ht. lia.
      + intros t s s1 Ht (Hp & cp & csd & Ha & Hd) Hb.
        destruct (add_predictions_body0 out sq t s s1 cp csd ltac:(lia) Hp Ha Hb)
          as (r & x & y & Hr & Hx & Hy & Hp1 & Ha1).
        split; [exact Hp1 |]. exists (<[t := x]> cp), (<[t := y]> csd).
        split; [exact Ha1 |].
        destruct Ha as (_ & _ & Hlcp & Hlcsd).
        intros t' Ht'. destruct (decide (t' = t)) as [-> | Hne].
        * exists r, x, y. rewrite !list_lookup_insert_eq by lia. auto.
        * rewrite !list_lookup_insert_ne by congruence. apply Hd. lia.
    - unfold range in Hloop.
      apply (for_each_seq_inv
               (fun (_ : nat) s =>
                  exists cp csd,
                    prediction_arrays sq s cp csd
                    /\ forall t, t < S order -> t < length sq ->
                         cp !! t = Some p0 /\ csd !! t = Some sd0))
        in Hloop.
      + destruct Hloop as (cp & csd & Ha & Hd). exists cp, csd.
        split; [exact Ha |]. split; [discriminate | exact Hd].
      + eexists. eexists. split; [exact Hinit |].
        intros t _ Ht. now rewrite !scale_ones_lookup.
      + intros t s s1 Ht (cp & csd & Ha & Hd) Hb.
        destruct (add_predictions_body_arrays sq (S order) Nitem p0 sd0 t s s1 cp csd
                    ltac:(lia) Ha Hb) as (x & y & Ha1).
        exists (<[t := x]> cp), (<[t := y]> csd). split; [exact Ha1 |].
        intros t' Ht' HT. rewrite !list_lookup_insert_ne by lia. now apply Hd. }
  destruct Harr as (Hcp & Hcsd & _ & _).
  apply bind_Ok in Hrun. destruct Hrun as (c1 & _ & Hrun).
  apply bind_Ok in Hrun. destruct Hrun as (c1' & _ & Hrun).
  apply bind_Ok in Hrun. destruct Hrun as (s1 & H1 & Hrun).
  apply bind_Ok in Hrun. destruct Hrun as (c2 & _ & Hrun).
  apply bind_Ok in Hrun. destruct Hrun as (c2' & _ & H2).
  apply assign_from1_frame in H1. destruct H1 as [_ Hn1].
  apply assign_from1_frame in H2. destruct H2 as [_ Hn2].
  exists p0, sd0, cp, csd. split; [exact Hbase |].
  split; [| split; [| split; [exact Hzero | exact Hbefore]]].
  - rewrite Hn2, Hn1 by discriminate. simpl.
    rewrite !lookup_insert_ne by discriminate. exact Hcp.
  - rewrite Hn2, Hn1 by discriminate. simpl.
    rewrite !lookup_insert_ne by discriminate. exact Hcsd.
Qed.

(** X11. At order zero, for a binary sequence, the current prediction and its
    SD at every trial [t] are the posterior mean and SD of item 0 at trial
    [t], whether or not the item at [t] is the pause value: the fallback on
    the base prior is made for the orders above zero only. *)
Theorem add_predictions_order0
    (out : output) (sq : list Z) (options : gmap string pyval)
    (ObsType : string) (Nitem : Z) (out' : output) :
  (Nitem <= 2)%Z ->
  add_predictions out sq 0 options ObsType Nitem = Ok out' ->
  exists cp csd,
    named out' !! "current_prediction_p0" = Some (PyArr cp)
    /\ named out' !! "current_prediction_SDp0" = Some (PyArr csd)
    /\ forall t, t < length sq ->
         exists r x y,
           post out !! [0%Z] = Some r
           /\ mean r !! t = Some x /\ SD r !! t = Some y
           /\ cp !! t = Some x /\ csd !! t = Some y.
Proof.
  intros HN Hrun.
  destruct (add_predictions_current out sq 0 options ObsType Nitem out' HN Hrun)
    as (p0 & sd0 & cp & csd & _ & Hcp & Hcsd & Hzero & _).
  exists cp, csd. split; [exact Hcp |]. split; [exact Hcsd |]. now apply Hzero.
Qed.

(** X12. For a binary sequence, at the trials before [order], where no full
    context has been seen yet, the current prediction and its SD are the
    mean and the SD of the base prior. *)
Theorem add_predictions_before_order
    (out : output) (sq : list Z) (order : nat) (options : gmap string pyval)
    (ObsType : string) (Nitem : Z) (out' : output) :
  (Nitem <= 2)%Z ->
  add_predictions out sq order options ObsType Nitem = Ok out' ->
  exists p0 sd0 cp csd,
    base_prior order options ObsType = Ok (p0, sd0)
    /\ named out' !! "current_prediction_p0" = Some (PyArr cp)
    /\ named out' !! "current_prediction_SDp0" = Some (PyArr csd)
    /\ forall t, t < order -> t < length sq ->
         cp !! t = Some p0 /\ csd !! t = Some sd0.
Proof.
  intros HN Hrun.
  destruct (add_predictions_current out sq order options ObsType Nitem out' HN Hrun)
    as (p0 & sd0 & cp & csd & Hbase & Hcp & Hcsd & _ & Hbefore).
  exists p0, sd0, cp, csd. auto.
Qed.

(** X13. At order zero, for a binary sequence of at least one trial,
    [add_predictions] raises [KeyError((0,))] when the output holds no
    posterior for the pattern [(0,)] (the base prior being computed first). *)
Theorem add_predictions_order0_missing
    (out : output) (sq : list Z) (options : gmap string pyval)
    (ObsType : string) (Nitem : Z) (pr : float64 * float64) :
  (Nitem <= 2)%Z ->
  0 < length sq ->
  base_prior 0 options ObsType = Ok pr ->
  post out !! [0%Z] = None ->
  add_predictions out sq 0 options ObsType Nitem = Raise (KeyError (KTup [0%Z])).
Proof.
  intros HN HT Hbase Hnone. unfold add_predictions.
  destruct (Z.ltb_spec 2 Nitem) as [Hlt | _]; [lia |].
  rewrite Hbase. cbn [bind]. cbv zeta.
  change (0 =? 0) with true. cbv iota.
  unfold range. rewrite Nat.sub_0_r.
  destruct (length sq) as [| n] eqn:Hlen; [lia |].
  cbn [seq for_each]. unfold get_post at 1. cbn [post set_named].
  rewrite Hnone. reflexivity.
Qed.

End CurrentPredictions.

Lemma add_predictions_order0_run :
  exists out',
    add_predictions (collab := example_collaborators)
      example_out_order0 [0; 2]%Z 0 ∅ "hmm" 2 = Ok out'.
Proof.
  eexists. vm_compute. reflexivity.
Qed.

(** X11 on the sequence 0, 2 with two items: the second trial is a pause. *)
Lemma add_predictions_order0_witness :
  exists out' cp csd,
    (2 <= 2)%Z
    /\ add_predictions (collab := example_collaborators)
         example_out_order0 [0; 2]%Z 0 ∅ "hmm" 2 = Ok out'
    /\ named out' !! "current_prediction_p0" = Some (PyArr cp)
    /\ named out' !! "current_prediction_SDp0" = Some (PyArr csd)
    /\ cp !! 1 = Some (Fin (1 / 2)) /\ csd !! 1 = Some (Fin (1 / 4)).
Proof.
  destruct add_predictions_order0_run as [out' Hrun].
  destruct (add_predictions_order0 (collab := example_collaborators)
              example_out_order0 [0; 2]%Z ∅ "hmm" 2 out' ltac:(lia) Hrun)
    as (cp & csd & Hcp & Hcsd & Hat).
  exists out', cp, csd. split; [lia |]. split; [exact Hrun |].
  split; [exact Hcp |]. split; [exact Hcsd |].
  destruct (Hat 1 ltac:(simpl; lia)) as (r & x & y & Hr & Hx & Hy & -> & ->).
  assert (r = constant_posterior 2 (1 / 2) (1 / 4)) as ->.
  { unfold example_out_order0 in Hr. cbn [post] in Hr.
    rewrite lookup_insert_eq in Hr. congruence. }
  simpl in Hx, Hy. split; congruence.
Defined.

Lemma add_predictions_order1_run :
  exists out',
    add_predictions (collab := example_collaborators)
      example_out_order1 [0; 1; 2]%Z 1 ∅ "hmm" 2 = Ok out'.
Proof.
  eexists. vm_compute. reflexivity.
Qed.

(** X12 on the sequence 0, 1, 2 at order 1. *)
Lemma add_predictions_before_order_witness :
  exists out' p0 sd0 cp csd,
    (2 <= 2)%Z
    /\ add_predictions (collab := example_collaborators)
         example_out_order1 [0; 1; 2]%Z 1 ∅ "hmm" 2 = Ok out'
    /\ base_prior (collab := example_collaborators) 1 ∅ "hmm" = Ok (p0, sd0)
    /\ named out' !! "current_prediction_p0" = Some (PyArr cp)
    /\ named out' !! "current_prediction_SDp0" = Some (PyArr csd)
    /\ cp !! 0 = Some p0 /\ csd !! 0 = Some sd0.
Proof.
  destruct add_predictions_order1_run as [out' Hrun].
  destruct (add_predictions_before_order (collab := example_collaborators)
              example_out_order1 [0; 1; 2]%Z 1 ∅ "hmm" 2 out' ltac:(lia) Hrun)
    as (p0 & sd0 & cp & csd & Hbase & Hcp & Hcsd & Hat).
  exists out', p0, sd0, cp, csd. split; [lia |]. split; [exact Hrun |].
  split; [exact Hbase |]. split; [exact Hcp |]. split; [exact Hcsd |].
  apply Hat; simpl; lia.
Defined.

(** X13 on a sequence of one trial and an output without posteriors. *)
Lemma add_predictions_order0_missing_witness :
  (2 <= 2)%Z
  /\ 0 < length [0%Z]
  /\ (exists pr, base_prior (collab := example_collaborators) 0 ∅ "hmm" = Ok pr)
  /\ post empty_output !! [0%Z] = None
  /\ add_predictions (collab := example_collaborators)
       empty_output [0%Z] 0 ∅ "hmm" 2 = Raise (KeyError (KTup [0%Z])).
Proof.
  split; [lia |]. split; [simpl; lia |].
  split; [eexists; vm_compute; reflexivity |].
  split; [reflexivity |].
  eapply (add_predictions_order0_missing (collab := example_collaborators)).
  - lia.
  - simpl. lia.
  - vm_compute. reflexivity.
  - reflexivity.
Defined.

(** ** The shape of the tables of Dirichlet parameters *)

Lemma alist_set_Forall {V : Type} (P : list Z * V -> Prop) (k : list Z) (v : V)
    (d : list (list Z * V)) :
  Forall P d -> P (k, v) -> Forall P (alist_set k v d).
Proof.
  intros Hd Hkv. induction Hd as [| [k' v'] d Hx Hd IH]; simpl.
  - constructor; [exact Hkv | constructor].
  - destruct (decide (k = k')); constructor; assumption.
Qed.

Lemma alist_get_Forall {V : Type} (P : list Z * V -> Prop) (k : list Z) (v : V)
    (d : list (list Z * V)) :
  Forall P d -> alist_get k d = Some v -> P (k, v).
Proof.
  intros Hd. induction Hd as [| [k' v'] d Hx _ IH]; simpl; [discriminate |].
  destruct (decide (k = k')) as [-> | _]; [| exact IH].
  intros [= <-]. exact Hx.
Qed.

Lemma alist_set_keys_fresh {V : Type} (k : list Z) (v : V)
    (d : list (list Z * V)) :
  ~ In k (map fst d) -> map fst (alist_set k v d) = map fst d ++ [k].
Proof.
  induction d as [| [k' v'] d IH]; simpl; [reflexivity |].
  intros Hk. destruct (decide (k = k')) as [-> | _]; [tauto |].
  simpl. f_equal. apply IH. tauto.
Qed.

Lemma alist_set_keys_present {V : Type} (k : list Z) (v v0 : V)
    (d : list (list Z * V)) :
  alist_get k d = Some v0 -> map fst (alist_set k v d) = map fst d.
Proof.
  induction d as [| [k' v'] d IH]; simpl; [discriminate |].
  destruct (decide (k = k')) as [-> | _]; [reflexivity |].
  intros H. simpl. f_equal. now apply IH.
Qed.

Lemma set_column_shape (m : matrix) (s : nat) (col : list float64) (m' : matrix)
    (n : nat) :
  set_column m s col = Ok m' ->
  Forall (fun row => length row = n) m ->
  length m' = length m /\ Forall (fun row => length row = n) m'.
Proof.
  unfold set_column. intros Hrun Hm.
  destruct (Nat.eqb_spec (length col) (length m)) as [Heq | Hne].
  - injection Hrun as <-. split; [rewrite length_zip_with; lia |].
    clear Heq. revert col. induction Hm as [| row m Hrow _ IH]; intros col.
    + destruct col; constructor.
    + destruct col as [| v col]; [constructor |]. simpl. constructor.
      * now rewrite length_insert.
      * apply IH.
  - destruct col as [| v [| ? ?]]; try discriminate. injection Hrun as <-.
    split; [apply length_map |].
    rewrite Forall_map. eapply Forall_impl; [exact Hm |].
    intros row Hrow. simpl. now rewrite length_insert.
Qed.

Lemma NoDup_flat_map_cons (items : list Z) (L : list (list Z)) :
  List.NoDup items -> List.NoDup L ->
  List.NoDup (flat_map (fun x => map (cons x) L) items).
Proof.
  intros Hitems HL. induction Hitems as [| x items Hx _ IH]; simpl; [constructor |].
  apply List.NoDup_app.
  - apply List.NoDup_map_inv with (f := fun l : list Z => tl l).
    rewrite List.map_map. simpl. now rewrite List.map_id.
  - exact IH.
  - intros l Hl Hl'. apply List.in_map_iff in Hl. destruct Hl as (l0 & <- & _).
    apply List.in_flat_map in Hl'. destruct Hl' as (y & Hy & Hl').
    apply List.in_map_iff in Hl'. destruct Hl' as (l1 & Heq & _).
    injection Heq as -> _. contradiction.
Qed.

Lemma NoDup_product_repeat (items : list Z) (k : nat) :
  List.NoDup items -> List.NoDup (product_repeat items k).
Proof.
  intros Hitems. induction k as [| k IH]; simpl.
  - constructor; [intros [] | constructor].
  - now apply NoDup_flat_map_cons.
Qed.

Lemma NoDup_zrange (n : Z) : List.NoDup (zrange n).
Proof.
  unfold zrange. apply NoDup_ListNoDup.
  apply (NoDup_fmap_2 Z.of_nat), NoDup_seq.
Qed.

Section AlphaTables.
Context {collab : Collaborators}.

Lemma compute_alpha_init (T n : nat) (Nitem : Z) (priors done : list (list Z))
    (acc a1 : list (list Z * matrix)) :
  List.NoDup (done ++ priors) ->
  map fst acc = done ->
  Forall (fun cA => length cA.2 = T /\ Forall (fun row => length row = n) cA.2) acc ->
  for_each priors
    (fun p alphas =>
       if (Nitem <? 0)%Z then Raise (ValueError "negative dimensions are not allowed")
       else Ok (alist_set p (nan_matrix T n) alphas))
    acc = Ok a1 ->
  map fst a1 = done ++ priors
  /\ Forall (fun cA => length cA.2 = T /\ Forall (fun row => length row = n) cA.2) a1.
Proof.
  revert done acc. induction priors as [| p priors IH]; intros done acc Hnd Hkeys Hacc Hrun.
  - simpl in Hrun. injection Hrun as <-. now rewrite app_nil_r.
  - simpl in Hrun. destruct (Nitem <? 0)%Z; [discriminate |]. simpl in Hrun.
    replace (done ++ p :: priors) with ((done ++ [p]) ++ priors)
      by now rewrite <- app_assoc.
    apply (IH (done ++ [p]) (alist_set p (nan_matrix T n) acc)).
    + now rewrite <- app_assoc.
    + rewrite alist_set_keys_fresh; [now rewrite Hkeys |].
      rewrite Hkeys. apply List.NoDup_remove_2 in Hnd.
      intros Hin. apply Hnd. apply List.in_or_app. now left.
    + apply alist_set_Forall; [exact Hacc |]. simpl. unfold nan_matrix.
      split; [apply length_replicate |].
      apply Forall_replicate. apply nan_array_length.
    + exact Hrun.
Qed.

Lemma compute_alpha_shape (sq : list Z) (out : output) (order : nat)
    (prior : pyval) (Nitem : option Z) (alphas : list (list Z * matrix)) :
  compute_alpha sq out order prior Nitem = Ok alphas ->
  map fst alphas = product_repeat (zrange (infer_Nitem sq Nitem)) order
  /\ Forall (fun cA =>
               length cA.2 = length sq
               /\ Forall (fun row => length row = Z.to_nat (infer_Nitem sq Nitem)) cA.2)
            alphas.
Proof.
  intros Hrun. unfold compute_alpha in Hrun. cbv zeta in Hrun.
  apply bind_Ok in Hrun. destruct Hrun as (a1 & Hinit & Hrun).
  apply (compute_alpha_init _ _ _ _ []) in Hinit;
    [| apply NoDup_product_repeat, NoDup_zrange | reflexivity | constructor].
  simpl in Hinit.
  apply (for_each_inv
           (fun a =>
              map fst a = product_repeat (zrange (infer_Nitem sq Nitem)) order
              /\ Forall (fun cA =>
                           length cA.2 = length sq
                           /\ Forall (fun row =>
                                        length row = Z.to_nat (infer_Nitem sq Nitem))
                                     cA.2) a)) in Hrun; [exact Hrun | exact Hinit |].
  intros [p s] a a' _ [Hkeys Hshape] Hb.
  apply bind_Ok in Hb. destruct Hb as (count & _ & Hb).
  apply bind_Ok in Hb. destruct Hb as (c & _ & Hb).
  apply bind_Ok in Hb. destruct Hb as (pr & _ & Hb).
  destruct (alist_get p a) as [A |] eqn:HA; [| discriminate].
  apply bind_Ok in Hb. destruct Hb as (A' & Hcol & Hb). injection Hb as <-.
  destruct (alist_get_Forall _ _ _ _ Hshape HA) as [Hrows Hcols]. simpl in Hrows, Hcols.
  destruct (set_column_shape _ _ _ _ _ Hcol Hcols) as [Hl' Hc'].
  split.
  - rewrite (alist_set_keys_present p A' A); assumption.
  - apply alist_set_Forall; [exact Hshape |]. simpl. split; [congruence | exact Hc'].
Qed.

Lemma alist_get_set_eq {V : Type} (k : list Z) (v : V) (d : list (list Z * V)) :
  alist_get k (alist_set k v d) = Some v.
Proof.
  induction d as [| [k' v'] d IH]; simpl.
  - now destruct (decide (k = k)).
  - destruct (decide (k = k')) as [<- | Hne]; simpl.
    + now destruct (decide (k = k)).
    + now destruct (decide (k = k')).
Qed.

Lemma alist_get_set_ne {V : Type} (k k0 : list Z) (v : V)
    (d : list (list Z * V)) :
  k0 <> k -> alist_get k0 (alist_set k v d) = alist_get k0 d.
Proof.
  intros Hne. induction d as [| [k' v'] d IH]; simpl.
  - now destruct (decide (k0 = k)).
  - destruct (decide (k = k')) as [<- | Hne']; simpl.
    + destruct (decide (k0 = k)); [contradiction | reflexivity].
    + destruct (decide (k0 = k')); [reflexivity | exact IH].
Qed.

Lemma set_column_rows (m : matrix) (s : nat) (col : list float64) (m' : matrix)
    (t : nat) (row : list float64) :
  set_column m s col = Ok m' -> m !! t = Some row ->
  exists v, m' !! t = Some (<[s := v]> row)
            /\ (length col = length m -> col !! t = Some v).
Proof.
  unfold set_column. intros Hrun Hrow.
  destruct (Nat.eqb_spec (length col) (length m)) as [Heq | Hne].
  - injection Hrun as <-.
    destruct (lookup_lt_is_Some_2 col t) as [v Hv].
    { rewrite Heq. eapply lookup_lt_Some; eauto. }
    exists v. split; [| intros _; exact Hv].
    rewrite lookup_zip_with, Hrow, Hv. reflexivity.
  - destruct col as [| v [| ? ?]]; try discriminate. injection Hrun as <-.
    exists v. split; [| intros Heq; contradiction].
    rewrite list_lookup_fmap, Hrow. reflexivity.
Qed.

Lemma for_each_prefix_inv {A St : Type} (P : list A -> St -> Prop)
    (body : A -> St -> result St) (l done : list A) (s0 s' : St) :
  P done s0 ->
  (forall d a s s1, In a l -> P d s -> body a s = Ok s1 -> P (d ++ [a]) s1) ->
  for_each l body s0 = Ok s' ->
  P (done ++ l) s'.
Proof.
  revert done s0. induction l as [| a l IH]; intros done s0 H0 Hstep Hrun.
  - simpl in Hrun. injection Hrun as <-. now rewrite app_nil_r.
  - simpl in Hrun. destruct (body a s0) as [s1 |] eqn:Hb; [| discriminate].
    simpl in Hrun.
    replace (done ++ a :: l) with ((done ++ [a]) ++ l) by now rewrite <- app_assoc.
    apply (IH (done ++ [a]) s1); [| | exact Hrun].
    + apply (Hstep done a s0 s1); [now left | exact H0 | exact Hb].
    + intros d b s s2 Hin. apply Hstep. now right.
Qed.

Lemma zrange_In (n s : Z) :
  In s (zrange n) -> (0 <= s)%Z /\ Z.to_nat s < Z.to_nat n.
Proof.
  unfold zrange. intros Hin. apply List.in_map_iff in Hin.
  destruct Hin as (i & <- & Hi). apply List.in_seq in Hi.
  rewrite Nat2Z.id. lia.
Qed.

Lemma compute_alpha_cells (sq : list Z) (out : output) (order : nat)
    (prior : pyval) (Nitem : option Z) (alphas : list (list Z * matrix))
    (count : gmap (list Z) (list float64)) :
  compute_alpha sq out order prior Nitem = Ok alphas ->
  named out !! "count" = Some (PyCount count) ->
  (forall item c, count !! item = Some c -> length c = length sq) ->
  forall p s t,
    In p (product_repeat (zrange (infer_Nitem sq Nitem)) order) ->
    In s (zrange (infer_Nitem sq Nitem)) ->
    t < length sq ->
    exists c x pr,
      count !! (p ++ [s]) = Some c /\ c !! t = Some x
      /\ subscript_prior prior (p ++ [s]) = Ok pr
      /\ alpha_cell alphas p s t (fadd x pr).
Proof.
  intros Hrun Hcount Hlen.
  set (N := infer_Nitem sq Nitem) in *.
  set (shape := fun a : list (list Z * matrix) =>
         Forall (fun cA => length cA.2 = length sq
                           /\ Forall (fun row => length row = Z.to_nat N) cA.2) a).
  set (cells := fun (d : list (list Z * Z)) (a : list (list Z * matrix)) =>
         forall p s t, In (p, s) d -> t < length sq ->
           (0 <= s)%Z /\ exists c x pr,
             count !! (p ++ [s]) = Some c /\ c !! t = Some x
             /\ subscript_prior prior (p ++ [s]) = Ok pr
             /\ alpha_cell a p s t (fadd x pr)).
  unfold compute_alpha in Hrun. cbv zeta in Hrun. fold N in Hrun.
  apply bind_Ok in Hrun. destruct Hrun as (a1 & Hinit & Hrun).
  apply (compute_alpha_init _ _ _ _ []) in Hinit;
    [| apply NoDup_product_repeat, NoDup_zrange | reflexivity | constructor].
  destruct Hinit as [_ Hshape1].
  apply (for_each_prefix_inv (fun d a => shape a /\ cells d a) _ _ []) in Hrun.
  - destruct Hrun as [_ Hcells]. simpl in Hcells.
    intros p s t Hp Hs Ht. apply Hcells; [| exact Ht].
    apply List.in_flat_map. exists p. split; [exact Hp |].
    apply List.in_map_iff. now exists s.
  - split; [exact Hshape1 | intros p s t []].
  - intros d [p s] a a' Hin [Hshape Hcells] Hb.
    apply List.in_flat_map in Hin. destruct Hin as (p0 & _ & Hin).
    apply List.in_map_iff in Hin. destruct Hin as (s0 & Heq & Hs).
    injection Heq as -> ->. apply zrange_In in Hs. destruct Hs as [Hs0 HsN].
    apply bind_Ok in Hb. destruct Hb as (cv & Hcv & Hb).
    unfold get_named in Hcv. rewrite Hcount in Hcv. injection Hcv as <-.
    apply bind_Ok in Hb. destruct Hb as (c & Hc & Hb).
    unfold subscript_count in Hc.
    destruct (count !! (p ++ [s])) as [c0 |] eqn:Hc0; [| discriminate].
    injection Hc as <-.
    apply bind_Ok in Hb. destruct Hb as (pr & Hpr & Hb).
    destruct (alist_get p a) as [A |] eqn:HA; [| discriminate].
    apply bind_Ok in Hb. destruct Hb as (A' & Hcol & Hb). injection Hb as <-.
    destruct (alist_get_Forall _ _ _ _ Hshape HA) as [Hrows Hcols].
    simpl in Hrows, Hcols.
    destruct (set_column_shape _ _ _ _ _ Hcol Hcols) as [Hl' Hc'].
    split.
    { apply alist_set_Forall; [exact Hshape |]. simpl. split; [congruence | exact Hc']. }
    intros p' s' t Hin' Ht.
    destruct (lookup_lt_is_Some_2 A t) as [row Hrow]; [lia |].
    destruct (set_column_rows _ _ _ _ t row Hcol Hrow) as (v & Hrow' & Hv).
    assert (length row = Z.to_nat N) as Hlrow.
    { rewrite Forall_lookup in Hcols. exact (Hcols _ _ Hrow). }
    destruct (decide ((p', s') = (p, s))) as [Heq | Hne].
    + injection Heq as -> ->.
      rewrite length_map, (Hlen _ _ Hc0), Hrows in Hv. specialize (Hv eq_refl).
      rewrite list_lookup_fmap in Hv.
      destruct (c0 !! t) as [x |] eqn:Hx; [| discriminate].
      simpl in Hv. injection Hv as <-.
      split; [exact Hs0 |].
      exists c0, x, pr. split; [exact Hc0 |]. split; [exact Hx |].
      split; [exact Hpr |].
      exists A', (<[Z.to_nat s := fadd x pr]> row).
      split; [apply alist_get_set_eq |]. split; [exact Hrow' |].
      apply list_lookup_insert_eq. lia.
    + apply List.in_app_or in Hin'. destruct Hin' as [Hold | [Hnew | []]];
        [| congruence].
      destruct (Hcells p' s' t Hold Ht)
        as (Hs0' & c1 & x & pr1 & Hc1 & Hx & Hpr1 & Hcell).
      split; [exact Hs0' |].
      exists c1, x, pr1. split; [exact Hc1 |]. split; [exact Hx |].
      split; [exact Hpr1 |].
      destruct Hcell as (A0 & row0 & HA0 & Hrow0 & Hval).
      destruct (decide (p' = p)) as [-> | Hp].
      * assert (A0 = A) as -> by congruence.
        assert (row0 = row) as -> by congruence.
        exists A', (<[Z.to_nat s := v]> row).
        split; [apply alist_get_set_eq |]. split; [exact Hrow' |].
        destruct (decide (Z.to_nat s' = Z.to_nat s)) as [Hss | Hss].
        -- exfalso. apply Hne. f_equal. lia.
        -- rewrite list_lookup_insert_ne by congruence. exact Hval.
      * exists A0, row0. split; [| split; assumption].
        rewrite alist_get_set_ne by exact Hp. exact HA0.
Qed.

(** X14. [compute_alpha] returns one table per context, in the order of
    [itertools.product(range(Nitem), repeat=order)], each of [len(seq)] rows
    and [Nitem] columns. *)
Theorem compute_alpha_tables (sq : list Z) (out : output) (order : nat)
    (prior : pyval) (Nitem : option Z) (alphas : list (list Z * matrix)) :
  compute_alpha sq out order prior Nitem = Ok alphas ->
  map fst alphas = product_repeat (zrange (infer_Nitem sq Nitem)) order
  /\ Forall (fun cA =>
               length cA.2 = length sq
               /\ Forall (fun row => length row = Z.to_nat (infer_Nitem sq Nitem)) cA.2)
            alphas.
Proof.
  exact (compute_alpha_shape sq out order prior Nitem alphas).
Qed.

(** X15. When the counts are arrays as long as the sequence, the table
    [compute_alpha] returns holds, for every context [p], item [s] and trial
    [t], the count of the pattern [p + (s,)] at trial [t] plus the prior of
    that pattern. *)
Theorem compute_alpha_entries (sq : list Z) (out : output) (order : nat)
    (prior : pyval) (Nitem : option Z) (alphas : list (list Z * matrix))
    (count : gmap (list Z) (list float64)) :
  compute_alpha sq out order prior Nitem = Ok alphas ->
  named out !! "count" = Some (PyCount count) ->
  (forall item c, count !! item = Some c -> length c = length sq) ->
  forall p s t,
    In p (product_repeat (zrange (infer_Nitem sq Nitem)) order) ->
    In s (zrange (infer_Nitem sq Nitem)) ->
    t < length sq ->
    exists c x pr,
      count !! (p ++ [s]) = Some c /\ c !! t = Some x
      /\ subscript_prior prior (p ++ [s]) = Ok pr
      /\ alpha_cell alphas p s t (fadd x pr).
Proof.
  exact (compute_alpha_cells sq out order prior Nitem alphas count).
Qed.

End AlphaTables.

(** ** The first trial of the Bayesian surprise and of the confidence *)

Lemma set2_rows (P : list float64 -> Prop) (M : matrix) (i j : nat)
    (v : float64) (M' : matrix) :
  (forall row, P row -> j < length row -> P (<[j := v]> row)) ->
  set2 M i j v = Ok M' -> Forall P M -> Forall P M' /\ length M' = length M.
Proof.
  intros HP Hrun HM. unfold set2 in Hrun.
  destruct (M !! i) as [row |] eqn:Hrow; [| discriminate].
  destruct (Nat.ltb_spec j (length row)); [| discriminate]. injection Hrun as <-.
  split; [| apply length_insert].
  apply Forall_insert; [exact HM |]. apply HP; [| assumption].
  rewrite Forall_lookup in HM. exact (HM _ _ Hrow).
Qed.

Lemma KL_first_trial (alphas : list (list Z * matrix)) (b : list float64) :
  KL alphas = Ok b ->
  exists first,
    map snd alphas !! 0 = Some first
    /\ length b = length first
    /\ (0 < length first -> b !! 0 = Some NaN).
Proof.
  intros Hrun. unfold KL in Hrun.
  apply bind_Ok in Hrun. destruct Hrun as (first & Hfirst & Hrun).
  apply index_Ok in Hfirst.
  apply bind_Ok in Hrun. destruct Hrun as (KLm & Hloop & Hrun). injection Hrun as <-.
  exists first. split; [exact Hfirst |].
  split; [unfold sum_axis0; now rewrite length_map, length_seq |].
  intros HT.
  set (P := fun row : list float64 =>
              length row = length first /\ row !! 0 = Some NaN).
  assert (Forall P KLm /\ length KLm = length alphas) as [HP Hlen].
  { apply (for_each_inv (fun M => Forall P M /\ length M = length alphas))
      in Hloop; [exact Hloop | |].
    - unfold nan_matrix. split; [| apply length_replicate].
      apply Forall_replicate.
      split; [apply nan_array_length | now apply nan_array_lookup].
    - intros [i alpha] M M1 _ HM Hin. unfold range in Hin.
      apply (for_each_seq_inv (fun _ M => Forall P M /\ length M = length alphas))
        in Hin; [exact Hin | exact HM |].
      intros j M2 M3 Hj [HM2 HL2] Hb.
      apply bind_Ok in Hb. destruct Hb as (a & _ & Hb).
      apply bind_Ok in Hb. destruct Hb as (b' & _ & Hb).
      apply bind_Ok in Hb. destruct Hb as (d & _ & Hb).
      destruct (set2_rows P M2 i j d M3) as [H1 H2]; try assumption.
      + intros row [Hl H0] Hjl. split; [now rewrite length_insert |].
        rewrite list_lookup_insert_ne by lia. exact H0.
      + split; [exact H1 | congruence]. }
  unfold sum_axis0. rewrite list_lookup_fmap.
  rewrite lookup_seq_lt by exact HT. simpl. f_equal.
  destruct KLm as [| row KLm].
  - destruct alphas; [discriminate | discriminate].
  - cbn [map]. apply Forall_cons in HP. destruct HP as [[_ H0] _].
    rewrite H0. simpl. apply fsum_NaN_head.
Qed.

Lemma H0_length {collab : Collaborators} (alphas : list (list Z * matrix))
    (h : list float64) :
  H0 alphas = Ok h ->
  exists first, map snd alphas !! 0 = Some first /\ length h = length first.
Proof.
  intros Hrun. unfold H0 in Hrun.
  apply bind_Ok in Hrun. destruct Hrun as (first & Hfirst & Hrun).
  apply index_Ok in Hfirst.
  apply bind_Ok in Hrun. destruct Hrun as (M & _ & Hrun). injection Hrun as <-.
  exists first. split; [exact Hfirst |].
  unfold sum_axis0. now rewrite length_map, length_seq.
Qed.

Lemma fadd_NaN_l (x : float64) : fadd NaN x = NaN.
Proof. reflexivity. Qed.

Lemma fadd_NaN_r (x : float64) : fadd x NaN = NaN.
Proof. now destruct x. Qed.

Lemma compute_confidence_corrected_nan {collab : Collaborators}
    (out : output) (Nitem : Z) (sh ba : list float64)
    (al : list (list Z * matrix)) (first : matrix) (cc : list float64) :
  named out !! "shannon" = Some (PyArr sh) ->
  named out !! "bayesian" = Some (PyArr ba) ->
  named out !! "alphas" = Some (PyAlphas al) ->
  map snd al !! 0 = Some first ->
  length sh = length first -> length ba = length first ->
  compute_confidence_corrected out Nitem = Ok cc ->
  length cc = length first
  /\ forall t, sh !! t = Some NaN \/ ba !! t = Some NaN -> cc !! t = Some NaN.
Proof.
  intros Hsh Hba Hal Hfirst Hlsh Hlba Hrun.
  unfold compute_confidence_corrected in Hrun.
  apply bind_Ok in Hrun. destruct Hrun as (sraw & Hraw & Hrun).
  destruct (p_hat !! Nitem) as [p |]; [| discriminate]. injection Hrun as <-.
  unfold S_raw, get_named in Hraw. rewrite Hsh, Hba, Hal in Hraw.
  cbn [bind as_array as_alphas] in Hraw.
  unfold broadcast2 in Hraw at 1. rewrite Hlsh, <- Hlba, Nat.eqb_refl in Hraw.
  cbn [bind] in Hraw.
  apply bind_Ok in Hraw. destruct Hraw as (h & Hh & Hraw).
  destruct (H0_length al h Hh) as (first' & Hfirst' & Hlh).
  assert (first' = first) as -> by congruence.
  unfold broadcast2 in Hraw.
  rewrite length_zip_with, Hlsh, Hlba, Nat.min_id, Hlh, Nat.eqb_refl in Hraw.
  injection Hraw as <-.
  split.
  - rewrite length_map, !length_zip_with. lia.
  - intros t Hnan.
    assert (t < length first) as Ht.
    { destruct Hnan as [H | H]; apply lookup_lt_Some in H; lia. }
    destruct (lookup_lt_is_Some_2 sh t) as [x Hx]; [lia |].
    destruct (lookup_lt_is_Some_2 ba t) as [y Hy]; [lia |].
    destruct (lookup_lt_is_Some_2 h t) as [z Hz]; [lia |].
    rewrite list_lookup_fmap, !lookup_zip_with, Hx, Hy, Hz. simpl. f_equal.
    assert (fadd x y = NaN) as ->.
    { destruct Hnan as [H | H].
      - assert (x = NaN) as -> by congruence. reflexivity.
      - assert (y = NaN) as -> by congruence. apply fadd_NaN_r. }
    reflexivity.
Qed.

(** X16. Whenever [KL] returns, its result has one entry per row of the table
    of the first context, and the entry of the first trial is NaN: no
    divergence is computed for a trial without a predecessor. *)
Theorem KL_first_trial_nan (alphas : list (list Z * matrix)) (b : list float64) :
  KL alphas = Ok b ->
  exists first,
    map snd alphas !! 0 = Some first
    /\ length b = length first
    /\ (0 < length first -> b !! 0 = Some NaN).
Proof.
  exact (KL_first_trial alphas b).
Qed.

(** X17. When the Shannon and the Bayesian surprise have one entry per row of
    the table of the first context, so has the corrected confidence, and it
    is NaN at every trial where one of the two surprises is NaN. *)
Theorem compute_confidence_corrected_nan_entries {collab : Collaborators}
    (out : output) (Nitem : Z) (sh ba : list float64)
    (al : list (list Z * matrix)) (first : matrix) (cc : list float64) :
  named out !! "shannon" = Some (PyArr sh) ->
  named out !! "bayesian" = Some (PyArr ba) ->
  named out !! "alphas" = Some (PyAlphas al) ->
  map snd al !! 0 = Some first ->
  length sh = length first -> length ba = length first ->
  compute_confidence_corrected out Nitem = Ok cc ->
  length cc = length first
  /\ forall t, sh !! t = Some NaN \/ ba !! t = Some NaN -> cc !! t = Some NaN.
Proof.
  exact (compute_confidence_corrected_nan out Nitem sh ba al first cc).
Qed.

Section FixedFirstTrial.
Context {collab : Collaborators}.

Lemma branch_fixed_first_trial (sq : list Z) (order : nat) (Nitem : Z)
    (st st' : locals) :
  branch_fixed sq order Nitem st = Ok st' ->
  exists o b cc,
    l_out st' = Some o
    /\ named o !! "bayesian" = Some (PyArr b)
    /\ named o !! "confidence-corrected" = Some (PyArr cc)
    /\ length b = length sq /\ length cc = length sq
    /\ (0 < length sq -> b !! 0 = Some NaN /\ cc !! 0 = Some NaN).
Proof.
  intros Hrun. unfold branch_fixed in Hrun. cbv zeta in Hrun.
  apply bind_Ok in Hrun. destruct Hrun as (pp & _ & Hrun).
  apply bind_Ok in Hrun. destruct Hrun as (prior & _ & Hrun).
  apply bind_Ok in Hrun. destruct Hrun as (dwp & _ & Hrun).
  apply bind_Ok in Hrun. destruct Hrun as (dw & _ & Hrun).
  apply bind_Ok in Hrun. destruct Hrun as (count & _ & Hrun).
  apply bind_Ok in Hrun. destruct Hrun as (po & _ & Hrun).
  apply bind_Ok in Hrun. destruct Hrun as (o1 & _ & Hrun).
  apply bind_Ok in Hrun. destruct Hrun as (s & Hs & Hrun).
  apply bind_Ok in Hrun. destruct Hrun as (al & Hal & Hrun).
  apply bind_Ok in Hrun. destruct Hrun as (sv & Hsv & Hrun).
  apply bind_Ok in Hrun. destruct Hrun as (b & Hb & Hrun).
  apply bind_Ok in Hrun. destruct Hrun as (cc & Hcc & Hrun).
  injection Hrun as <-.
  destruct (compute_surprise_first _ _ _ _ Hs) as [Hls Hs0].
  apply compute_alpha_shape in Hal. destruct Hal as [_ Hshape].
  unfold get_named in Hsv. cbn [named set_named] in Hsv.
  rewrite !lookup_insert_ne in Hsv by discriminate.
  rewrite lookup_insert_eq in Hsv. injection Hsv as <-.
  unfold compute_bayesian, get_named in Hb. cbn [named set_named] in Hb.
  rewrite !lookup_insert_ne in Hb by discriminate.
  rewrite lookup_insert_eq in Hb. cbn [bind as_alphas] in Hb.
  destruct (KL_first_trial al b Hb) as (first & Hfirst & Hlb & Hb0).
  assert (length first = length sq) as HT.
  { rewrite list_lookup_fmap in Hfirst.
    destruct (al !! 0) as [cA |] eqn:HcA; [| discriminate].
    injection Hfirst as <-. rewrite Forall_lookup in Hshape.
    exact (proj1 (Hshape _ _ HcA)). }
  eapply (compute_confidence_corrected_nan _ _ s b al first) in Hcc;
    [ | cbn [named set_named];
        rewrite ?lookup_insert_ne by discriminate; apply lookup_insert_eq ..
      | exact Hfirst | lia | lia ].
  destruct Hcc as [Hlcc Hnan].
  eexists. exists b, cc. split; [reflexivity |].
  cbn [named set_named].
  split; [rewrite !lookup_insert_ne by discriminate; apply lookup_insert_eq |].
  split; [apply lookup_insert_eq |].
  split; [lia |]. split; [lia |].
  intros Hpos. split; [apply Hb0; lia |]. apply Hnan. left. now apply Hs0.
Qed.

(** What the observer ['fixed'] returns: the output of its branch, up to the
    four prediction entries. *)
Lemma IdealObserver_fixed_branch
    (sq : list Z) (ObsType : string) (order : nat) (Nitem : option Z)
    (options : option (list (string * pyval))) (out : output) :
  lower ObsType = "fixed"%string ->
  IdealObserver sq ObsType order Nitem options = Ok out ->
  exists st st' o,
    branch_fixed sq order (infer_Nitem sq Nitem) st = Ok st'
    /\ l_out st' = Some o
    /\ forall k : string,
         String.eqb k "current_prediction_p0" = false ->
         String.eqb k "current_prediction_SDp0" = false ->
         String.eqb k "prior_prediction_p0" = false ->
         String.eqb k "prior_prediction_SDp0" = false ->
         named out !! k = named o !! k.
Proof.
  intros Htype Hrun. unfold IdealObserver in Hrun.
  apply bind_Ok in Hrun. destruct Hrun as (checked & _ & Hrun).
  apply bind_Ok in Hrun. destruct Hrun as (st1 & H1 & Hrun).
  apply bind_Ok in Hrun. destruct Hrun as (st2 & H2 & Hrun).
  apply bind_Ok in Hrun. destruct Hrun as (st3 & H3 & Hrun).
  apply bind_Ok in Hrun. destruct Hrun as (st4 & H4 & Hrun).
  apply bind_Ok in Hrun. destruct Hrun as (st5 & H5 & Hrun).
  apply when_type_other in H5; [| now rewrite Htype].
  apply when_type_other in H4; [| now rewrite Htype].
  apply when_type_other in H3; [| now rewrite Htype].
  apply when_type_other in H2; [| now rewrite Htype].
  subst st5 st4 st3 st2.
  unfold when_type in H1. rewrite Htype in H1.
  change (String.eqb "fixed" "fixed") with true in H1. cbv iota in H1.
  destruct (l_out st1) as [o |] eqn:Ho; [| discriminate].
  destruct (add_predictions_keeps _ _ _ _ _ _ _ Hrun) as [_ Hframe].
  eexists. exists st1, o. split; [exact H1 |]. split; [exact Ho |].
  intros k K1 K2 K3 K4. apply Hframe. simpl.
  intros [H | [H | [H | [H | []]]]]; subst k; discriminate.
Qed.

(** X18. For the observer ['fixed'] (in any letter case), the entries
    ['bayesian'] and ['confidence-corrected'] of the output are arrays as long
    as the sequence, and their value at the first trial is NaN. *)
Theorem IdealObserver_fixed_first_trial
    (sq : list Z) (ObsType : string) (order : nat) (Nitem : option Z)
    (options : option (list (string * pyval))) (out : output) :
  lower ObsType = "fixed"%string ->
  IdealObserver sq ObsType order Nitem options = Ok out ->
  exists b cc,
    named out !! "bayesian" = Some (PyArr b)
    /\ named out !! "confidence-corrected" = Some (PyArr cc)
    /\ length b = length sq /\ length cc = length sq
    /\ (0 < length sq -> b !! 0 = Some NaN /\ cc !! 0 = Some NaN).
Proof.
  intros Htype Hrun.
  destruct (IdealObserver_fixed_branch _ _ _ _ _ _ Htype Hrun)
    as (st & st' & o & Hbranch & Ho & Hkeep).
  destruct (branch_fixed_first_trial _ _ _ _ _ Hbranch)
    as (o' & b & cc & Ho' & Hb & Hcc & Hlb & Hlcc & Hnan).
  assert (o' = o) as -> by congruence.
  exists b, cc. rewrite !Hkeep by reflexivity. auto.
Qed.

End FixedFirstTrial.

Lemma compute_alpha_example_run :
  exists alphas,
    compute_alpha [0; 1]%Z example_out_count 0 example_prior (Some 2%Z) = Ok alphas.
Proof.
  eexists. vm_compute. reflexivity.
Qed.

(** X14 on the sequence 0, 1 at order 0. *)
Lemma compute_alpha_tables_witness :
  exists alphas,
    compute_alpha [0; 1]%Z example_out_count 0 example_prior (Some 2%Z) = Ok alphas
    /\ map fst alphas = [[]]
    /\ Forall (fun cA => length cA.2 = 2 /\ Forall (fun row => length row = 2) cA.2)
              alphas.
Proof.
  destruct compute_alpha_example_run as [alphas Hrun].
  exists alphas. split; [exact Hrun |].
  exact (compute_alpha_tables [0; 1]%Z example_out_count 0 example_prior (Some 2%Z)
           alphas Hrun).
Defined.

Lemma example_count_lengths (item : list Z) (c : list float64) :
  example_count !! item = Some c -> length c = 2.
Proof.
  unfold example_count. intros H.
  destruct (decide (item = [0%Z])) as [-> | H0].
  - rewrite lookup_insert_eq in H. now injection H as <-.
  - rewrite lookup_insert_ne in H by congruence.
    destruct (decide (item = [1%Z])) as [-> | H1].
    + rewrite lookup_singleton_eq in H. now injection H as <-.
    + rewrite lookup_singleton_ne in H by congruence. discriminate.
Qed.

(** X15 on the sequence 0, 1 at order 0: the entry of item 0 at trial 1. *)
Lemma compute_alpha_entries_witness :
  exists alphas,
    compute_alpha [0; 1]%Z example_out_count 0 example_prior (Some 2%Z) = Ok alphas
    /\ named example_out_count !! "count" = Some (PyCount example_count)
    /\ alpha_cell alphas [] 0 1 (fadd (Fin 1) (Fin 1)).
Proof.
  destruct compute_alpha_example_run as [alphas Hrun].
  exists alphas. split; [exact Hrun |]. split; [reflexivity |].
  destruct (compute_alpha_entries [0; 1]%Z example_out_count 0 example_prior
              (Some 2%Z) alphas example_count Hrun eq_refl example_count_lengths
              [] 0%Z 1)
    as (c & x & pr & Hc & Hx & Hpr & Hcell).
  - simpl. now left.
  - simpl. now left.
  - simpl. lia.
  - unfold example_count in Hc. simpl in Hc. rewrite lookup_insert_eq in Hc.
    injection Hc as <-. simpl in Hx. injection Hx as <-.
    unfold example_prior, subscript_prior in Hpr. simpl in Hpr.
    rewrite lookup_insert_eq in Hpr. injection Hpr as <-. exact Hcell.
Defined.

Lemma KL_example_run : exists b, KL (inject_table example_alphas) = Ok b.
Proof.
  destruct (KL_positive_tables example_alphas 2) as (kl & Hkl & _).
  - simpl. lia.
  - exact example_alphas_positive.
  - now exists kl.
Qed.

(** X16 on one context with the rows (1, 1) and (2, 1). *)
Lemma KL_first_trial_nan_witness :
  exists b,
    KL (inject_table example_alphas) = Ok b
    /\ length b = 2 /\ b !! 0 = Some NaN.
Proof.
  destruct KL_example_run as [b Hrun]. exists b. split; [exact Hrun |].
  destruct (KL_first_trial_nan (inject_table example_alphas) b Hrun)
    as (first & Hfirst & Hlen & Hnan).
  simpl in Hfirst. injection Hfirst as <-. simpl in Hlen, Hnan.
  split; [exact Hlen | apply Hnan; lia].
Defined.

Lemma compute_confidence_corrected_example_run :
  exists cc,
    compute_confidence_corrected (collab := example_collaborators)
      example_out_confidence 2 = Ok cc.
Proof.
  eexists. vm_compute. reflexivity.
Qed.

(** X17 on one context and one trial, whose Shannon surprise is NaN. *)
Lemma compute_confidence_corrected_nan_entries_witness :
  exists cc,
    compute_confidence_corrected (collab := example_collaborators)
      example_out_confidence 2 = Ok cc
    /\ length cc = 1 /\ cc !! 0 = Some NaN.
Proof.
  destruct compute_confidence_corrected_example_run as [cc Hrun].
  exists cc. split; [exact Hrun |].
  destruct (compute_confidence_corrected_nan_entries
              (collab := example_collaborators)
              example_out_confidence 2 [NaN] [NaN] [([], [[Fin 1; Fin 1]])]
              [[Fin 1; Fin 1]] cc eq_refl eq_refl eq_refl eq_refl eq_refl eq_refl
              Hrun) as [Hlen Hnan].
  split; [exact Hlen |]. apply Hnan. now left.
Defined.

(** X18 on the observer ['Fixed'] with a sequence of one trial. *)
Lemma IdealObserver_fixed_first_trial_witness :
  exists out b cc,
    lower "Fixed" = "fixed"%string
    /\ IdealObserver (collab := example_fixed_collaborators)
         [0]%Z "Fixed" 0 (Some 2%Z) (Some []) = Ok out
    /\ named out !! "bayesian" = Some (PyArr b)
    /\ named out !! "confidence-corrected" = Some (PyArr cc)
    /\ b !! 0 = Some NaN /\ cc !! 0 = Some NaN.
Proof.
  destruct IdealObserver_fixed_one_trial as [out Hrun].
  destruct (IdealObserver_fixed_first_trial (collab := example_fixed_collaborators)
              [0]%Z "Fixed" 0 (Some 2%Z) (Some []) out eq_refl Hrun)
    as (b & cc & Hb & Hcc & _ & _ & Hnan).
  exists out, b, cc. split; [reflexivity |]. split; [exact Hrun |].
  split; [exact Hb |]. split; [exact Hcc |]. apply Hnan. simpl. lia.
Defined.

(** ** The entropy of the prior, trial by trial *)

Lemma set2_cells (M : matrix) (i j : nat) (v : float64) (M' : matrix) :
  set2 M i j v = Ok M' ->
  length M' = length M
  /\ (forall i', i' <> i -> M' !! i' = M !! i')
  /\ cell M' i j v
  /\ (forall j' w, j' <> j -> cell M i j' w -> cell M' i j' w).
Proof.
  unfold set2. intros Hrun.
  destruct (M !! i) as [row |] eqn:Hrow; [| discriminate].
  destruct (Nat.ltb_spec j (length row)); [| discriminate]. injection Hrun as <-.
  assert (i < length M) as Hi by (eapply lookup_lt_Some; eauto).
  split; [apply length_insert |]. split; [| split].
  - intros i' Hne. now rewrite list_lookup_insert_ne.
  - exists (<[j := v]> row). split; [now apply list_lookup_insert_eq |].
    now apply list_lookup_insert_eq.
  - intros j' w Hne (row' & Hrow' & Hw).
    assert (row' = row) as -> by congruence.
    exists (<[j := v]> row). split; [now apply list_lookup_insert_eq |].
    now rewrite list_lookup_insert_ne.
Qed.

Section Entropy.
Context {collab : Collaborators}.

Lemma H0_inner_loop (A M M1 : matrix) (i : nat) :
  for_each (range 0 (length A))
    (fun j h0 =>
       a <- index A j ;;
       e <- dirichlet_entropy a ;;
       set2 h0 i j e)
    M = Ok M1 ->
  length M1 = length M
  /\ (forall i', i' <> i -> M1 !! i' = M !! i')
  /\ forall j, j < length A ->
       exists a e, A !! j = Some a /\ dirichlet_entropy a = Ok e /\ cell M1 i j e.
Proof.
  intros Hrun. unfold range in Hrun. rewrite Nat.sub_0_r in Hrun.
  apply (for_each_seq_inv
           (fun k M' =>
              length M' = length M
              /\ (forall i', i' <> i -> M' !! i' = M !! i')
              /\ forall j, j < k ->
                   exists a e, A !! j = Some a /\ dirichlet_entropy a = Ok e
                               /\ cell M' i j e)) in Hrun.
  - exact Hrun.
  - split; [reflexivity |]. split; [reflexivity |]. intros j Hj. lia.
  - intros k M2 M3 Hk (Hlen & Hother & Hdone) Hb.
    apply bind_Ok in Hb. destruct Hb as (a & Ha & Hb). apply index_Ok in Ha.
    apply bind_Ok in Hb. destruct Hb as (e & He & Hb).
    destruct (set2_cells _ _ _ _ _ Hb) as (Hlen' & Hother' & Hcell & Hkeep).
    split; [congruence |]. split.
    + intros i' Hne. rewrite Hother' by exact Hne. now apply Hother.
    + intros j Hj. destruct (decide (j = k)) as [-> | Hne].
      * exists a, e. auto.
      * destruct (Hdone j) as (a' & e' & Ha' & He' & Hc'); [lia |].
        exists a', e'. split; [exact Ha' |]. split; [exact He' |].
        now apply Hkeep.
Qed.

Lemma H0_outer_loop (rest : list matrix) (lo : nat) (M M' : matrix) :
  for_each (zip (seq lo (length rest)) rest)
    (fun '(i, alpha) h0 =>
       for_each (range 0 (length alpha))
         (fun j h0 =>
            a <- index alpha j ;;
            e <- dirichlet_entropy a ;;
            set2 h0 i j e)
         h0)
    M = Ok M' ->
  length M' = length M
  /\ (forall i, i < lo -> M' !! i = M !! i)
  /\ forall k A j, rest !! k = Some A -> j < length A ->
       exists a e, A !! j = Some a /\ dirichlet_entropy a = Ok e
                   /\ cell M' (lo + k) j e.
Proof.
  revert lo M. induction rest as [| A rest IH]; intros lo M Hrun.
  - simpl in Hrun. injection Hrun as <-.
    split; [reflexivity |]. split; [reflexivity |]. intros k A j Hk. discriminate.
  - simpl in Hrun. apply bind_Ok in Hrun. destruct Hrun as (M1 & Hin & Hrun).
    destruct (H0_inner_loop _ _ _ _ Hin) as (Hlen1 & Hother1 & Hcells1).
    destruct (IH _ _ Hrun) as (Hlen & Hbefore & Hcells).
    split; [congruence |]. split.
    + intros i Hi. rewrite Hbefore by lia. apply Hother1. lia.
    + intros k A' j Hk Hj. destruct k as [| k].
      * injection Hk as <-.
        destruct (Hcells1 j Hj) as (a & e & Ha & He & (row & Hrow & Hv)).
        exists a, e. split; [exact Ha |]. split; [exact He |].
        exists row. rewrite Nat.add_0_r, Hbefore by lia. auto.
      * destruct (Hcells k A' j Hk Hj) as (a & e & Ha & He & Hc).
        exists a, e. split; [exact Ha |]. split; [exact He |].
        now replace (lo + S k) with (S lo + k) by lia.
Qed.

(** X19. When every table has [T] rows, [H0] returns an array of [T] entries
    whose entry at every trial [t], the first one included, is the sum over
    the contexts of the entropy of the Dirichlet distribution of the
    parameters of the context at trial [t]. *)
Theorem H0_sum_of_entropies (alphas : list (list Z * matrix)) (T : nat) (h : list float64) :
  Forall (fun cA => length cA.2 = T) alphas ->
  H0 alphas = Ok h ->
  length h = T
  /\ forall t, t < T ->
       exists es,
         Forall2 (fun cA e => exists a, cA.2 !! t = Some a
                                        /\ dirichlet_entropy a = Ok e) alphas es
         /\ h !! t = Some (fsum es).
Proof.
  intros Hshape Hrun. unfold H0 in Hrun.
  apply bind_Ok in Hrun. destruct Hrun as (first & Hfirst & Hrun).
  apply index_Ok in Hfirst.
  apply bind_Ok in Hrun. destruct Hrun as (M & Hloop & Hrun). injection Hrun as <-.
  assert (length first = T) as HT.
  { rewrite list_lookup_fmap in Hfirst.
    destruct (alphas !! 0) as [cA |] eqn:HcA; [| discriminate].
    injection Hfirst as <-. rewrite Forall_lookup in Hshape. exact (Hshape _ _ HcA). }
  unfold enumerate in Hloop.
  apply H0_outer_loop in Hloop. destruct Hloop as (Hlen & _ & Hcells).
  unfold nan_matrix in Hlen. rewrite length_replicate in Hlen.
  split; [unfold sum_axis0; now rewrite length_map, length_seq |].
  intros t Ht.
  exists (map (fun row : list float64 => default NaN (row !! t)) M). split.
  - apply Forall2_same_length_lookup_2; [now rewrite length_map |].
    intros i cA y HcA Hy.
    rewrite list_lookup_fmap in Hy.
    destruct (M !! i) as [row |] eqn:Hrow; [| discriminate].
    injection Hy as <-.
    destruct (Hcells i cA.2 t) as (a & e & Ha & He & (row' & Hrow' & Hv)).
    + now rewrite list_lookup_fmap, HcA.
    + rewrite Forall_lookup in Hshape. rewrite (Hshape _ _ HcA). exact Ht.
    + simpl in Hrow'. assert (row' = row) as -> by congruence.
      exists a. rewrite Hv. auto.
  - unfold sum_axis0. rewrite list_lookup_fmap, lookup_seq_lt by lia. reflexivity.
Qed.

End Entropy.

(** ** The parameters [KL] accepts *)

Lemma for_each_Ok_each {A St : Type} (body : A -> St -> result St)
    (l : list A) (s0 s' : St) :
  for_each l body s0 = Ok s' ->
  forall a, In a l -> exists s s1, body a s = Ok s1.
Proof.
  revert s0. induction l as [| x l IH]; intros s0 Hrun a Hin; [destruct Hin |].
  simpl in Hrun. destruct (body x s0) as [s1 |] eqn:Hb; [| discriminate].
  destruct Hin as [<- | Hin]; [eauto |]. exact (IH s1 Hrun a Hin).
Qed.

Lemma In_enumerate {A : Type} (l : list A) (lo : nat) (a : A) :
  In a l -> exists i, In (i, a) (zip (seq lo (length l)) l).
Proof.
  revert lo. induction l as [| x l IH]; intros lo Hin; [destruct Hin |].
  destruct Hin as [<- | Hin].
  - exists lo. now left.
  - destruct (IH (S lo) Hin) as [i Hi]. exists i. now right.
Qed.

Lemma KL_dirichlet_Ok_positive (a b : list float64) (d : float64) :
  KL_dirichlet a b = Ok d ->
  length a = length b /\ forallb fpos a = true /\ forallb fpos b = true.
Proof.
  unfold KL_dirichlet. intros Hrun.
  destruct (Nat.eqb_spec (length a) (length b)) as [Hl | Hl]; [| discriminate].
  simpl in Hrun.
  destruct (forallb fpos a); [| discriminate].
  destruct (forallb fpos b); [| discriminate]. auto.
Qed.

(** X20. [KL] returns only when, in every table of two rows or more, every
    entry of every row is strictly positive (and neither NaN nor minus
    infinity): a table of one row is not looked at. *)
Theorem KL_requires_positive_rows (alphas : list (list Z * matrix)) (b : list float64) :
  KL alphas = Ok b ->
  forall cA j row,
    In cA alphas -> 2 <= length cA.2 -> cA.2 !! j = Some row ->
    forallb fpos row = true.
Proof.
  intros Hrun cA j row HcA Hlen Hrow. unfold KL in Hrun.
  apply bind_Ok in Hrun. destruct Hrun as (first & _ & Hrun).
  apply bind_Ok in Hrun. destruct Hrun as (KLm & Hloop & _).
  assert (In cA.2 (map snd alphas)) as HA by now apply List.in_map.
  destruct (In_enumerate _ 0 _ HA) as [i Hi].
  destruct (for_each_Ok_each _ _ _ _ Hloop (i, cA.2) Hi) as (M & M1 & Hin).
  simpl in Hin.
  assert (j < length cA.2) as Hj by (eapply lookup_lt_Some; eauto).
  set (k := Nat.max j 1).
  destruct (for_each_Ok_each _ _ _ _ Hin k) as (M2 & M3 & Hb).
  { unfold range. apply List.in_seq. lia. }
  apply bind_Ok in Hb. destruct Hb as (a0 & Ha0 & Hb). apply index_Ok in Ha0.
  apply bind_Ok in Hb. destruct Hb as (b0 & Hb0 & Hb). apply index_Ok in Hb0.
  apply bind_Ok in Hb. destruct Hb as (d & Hd & _).
  destruct (KL_dirichlet_Ok_positive _ _ _ Hd) as (_ & Hpa & Hpb).
  destruct j as [| j].
  - replace (k - 1) with 0 in Ha0 by lia. congruence.
  - replace k with (S j) in Hb0 by lia. congruence.
Qed.

(** ** The output of the HMM observers *)

Lemma linspace01_length (n : Z) :
  (0 <= n)%Z ->
  exists pgrid, linspace01 (PyInt n) = Ok pgrid /\ length pgrid = Z.to_nat n.
Proof.
  intros Hn. unfold linspace01.
  destruct (Z.ltb_spec n 0); [lia |]. eexists. split; [reflexivity |].
  now rewrite length_map, length_seq.
Qed.

Lemma transpose_rows (d : matrix) :
  length (transpose d) = length (default [] (d !! 0))
  /\ Forall (fun row => length row = length d) (transpose d).
Proof.
  unfold transpose. split; [now rewrite length_map, length_seq |].
  rewrite Forall_map. apply Forall_true. intros j. simpl. apply length_map.
Qed.

Lemma dot_rows_Ok (rows : matrix) (pgrid acc : list float64) :
  Forall (fun row => length row = length pgrid) rows ->
  exists m,
    for_each rows (fun row acc => x <- np_dot row pgrid ;; Ok (acc ++ [x])) acc = Ok m
    /\ length m = length acc + length rows.
Proof.
  intros Hrows. revert acc. induction Hrows as [| row rows Hrow _ IH]; intros acc.
  - exists acc. split; [reflexivity | simpl; lia].
  - simpl. unfold np_dot at 1. rewrite Hrow, Nat.eqb_refl. simpl.
    destruct (IH (acc ++ [fsum (zip_with fmul row pgrid)])) as (m & Hm & Hl).
    exists m. split; [exact Hm |]. rewrite Hl, length_app. simpl. lia.
Qed.

Lemma compute_mean_of_dist_Ok (d : matrix) (pgrid : list float64) :
  length d = length pgrid ->
  exists m, compute_mean_of_dist d pgrid = Ok m
            /\ length m = length (default [] (d !! 0)).
Proof.
  intros Hl. unfold compute_mean_of_dist. rewrite Hl, Nat.eqb_refl. simpl.
  destruct (transpose_rows d) as [Hlen Hrows].
  destruct (dot_rows_Ok (transpose d) pgrid []) as (m & Hm & Hlm).
  { eapply Forall_impl; [exact Hrows |]. intros row Hrow. simpl in Hrow. congruence. }
  exists m. split; [exact Hm |]. simpl in Hlm. congruence.
Qed.

Lemma compute_mean_of_dist_rows (d : matrix) (pgrid m : list float64) :
  compute_mean_of_dist d pgrid = Ok m -> length d = length pgrid.
Proof.
  unfold compute_mean_of_dist.
  destruct (Nat.eqb_spec (length d) (length pgrid)); [auto | discriminate].
Qed.

Lemma compute_sd_of_dist_Ok (d : matrix) (pgrid : list float64) (Nitem : Z) :
  length d = length pgrid ->
  exists sd, compute_sd_of_dist d pgrid Nitem = Ok sd
             /\ length sd = length (default [] (d !! 0)).
Proof.
  intros Hl. unfold compute_sd_of_dist.
  destruct (compute_mean_of_dist_Ok d pgrid Hl) as (m & Hm & Hlm).
  destruct (compute_mean_of_dist_Ok d (map (fun x => fmul x x) pgrid))
    as (m2 & Hm2 & Hlm2); [now rewrite length_map |].
  rewrite Hm, Hm2. simpl. unfold broadcast2.
  rewrite length_map, Hlm2, Hlm, Nat.eqb_refl. simpl.
  eexists. split; [reflexivity |].
  rewrite length_map, length_zip_with, length_map. lia.
Qed.

Lemma fill_output_hmm_loop (pst : list (list Z * matrix)) (pgrid : list float64)
    (Nitem : Z) (out0 out : output) :
  for_each pst
    (fun '(item, d) out =>
       m <- compute_mean_of_dist d pgrid ;;
       sd <- compute_sd_of_dist d pgrid Nitem ;;
       Ok (set_post item {| mean := m; SD := sd; MAP := None; dist := Some d |} out))
    out0 = Ok out ->
  Forall (fun kd => length kd.2 = length pgrid) pst
  /\ named out = named out0
  /\ (forall item r, post out !! item = Some r ->
        post out0 !! item = Some r \/ filled_from pst item r)
  /\ (forall item, is_Some (post out0 !! item) -> is_Some (post out !! item))
  /\ (forall item d, In (item, d) pst -> is_Some (post out !! item)).
Proof.
  revert out0. induction pst as [| [item d] pst IH]; intros out0 Hrun.
  - simpl in Hrun. injection Hrun as <-.
    split; [constructor |]. split; [reflexivity |]. split; [auto |].
    split; [auto |]. intros item d [].
  - simpl in Hrun. apply bind_Ok in Hrun. destruct Hrun as (o1 & Hb & Hrun).
    apply bind_Ok in Hb. destruct Hb as (m & Hm & Hb).
    apply bind_Ok in Hb. destruct Hb as (sd & Hsd & Hb). injection Hb as <-.
    pose proof (compute_mean_of_dist_rows _ _ _ Hm) as Hl.
    destruct (compute_mean_of_dist_Ok d pgrid Hl) as (m' & Hm' & Hlm).
    destruct (compute_sd_of_dist_Ok d pgrid Nitem Hl) as (sd' & Hsd' & Hlsd).
    assert (m' = m) as -> by congruence. assert (sd' = sd) as -> by congruence.
    destruct (IH _ Hrun) as (Hall & Hnamed & Hfrom & Hkeep & Hkeys).
    split; [constructor; assumption |]. split; [exact Hnamed |].
    split; [| split].
    + intros item' r Hr. destruct (Hfrom item' r Hr) as [Hold | Hnew].
      * simpl in Hold. destruct (decide (item' = item)) as [-> | Hne].
        -- rewrite lookup_insert_eq in Hold. injection Hold as <-. right.
           split; [reflexivity |]. exists d. simpl. split; [now left | auto].
        -- rewrite lookup_insert_ne in Hold by congruence. now left.
      * right. destruct Hnew as (HMAP & d' & Hin & Hrest).
        split; [exact HMAP |]. exists d'. split; [now right | exact Hrest].
    + intros item' Hsome. apply Hkeep. simpl.
      destruct (decide (item' = item)) as [-> | Hne].
      * rewrite lookup_insert_eq. eauto.
      * now rewrite lookup_insert_ne by congruence.
    + intros item' d' [Heq | Hin].
      * injection Heq as <- <-. apply Hkeep. simpl. rewrite lookup_insert_eq. eauto.
      * exact (Hkeys item' d' Hin).
Qed.

Lemma fill_output_hmm_loop_total (pst : list (list Z * matrix))
    (pgrid : list float64) (Nitem : Z) (out0 : output) :
  Forall (fun kd => length kd.2 = length pgrid) pst ->
  exists out,
    for_each pst
      (fun '(item, d) out =>
         m <- compute_mean_of_dist d pgrid ;;
         sd <- compute_sd_of_dist d pgrid Nitem ;;
         Ok (set_post item {| mean := m; SD := sd; MAP := None; dist := Some d |} out))
      out0 = Ok out.
Proof.
  intros Hall. revert out0. induction Hall as [| [item d] pst Hl _ IH]; intros out0.
  - now exists out0.
  - simpl in Hl. simpl.
    destruct (compute_mean_of_dist_Ok d pgrid Hl) as (m & Hm & _).
    destruct (compute_sd_of_dist_Ok d pgrid Nitem Hl) as (sd & Hsd & _).
    rewrite Hm, Hsd. simpl. apply IH.
Qed.

(** X21. For a resolution [resol >= 1], [fill_output_hmm] returns exactly when
    every posterior has [resol] rows (it raises otherwise); the output then
    holds no string entry and one record per item of [post], with the
    distribution as given, no MAP, and a mean and an SD per trial. *)
Theorem fill_output_hmm_shape (pst : list (list Z * matrix)) (n Nitem : Z) :
  (1 <= n)%Z ->
  (Forall (fun kd => length kd.2 = Z.to_nat n) pst ->
   exists out, fill_output_hmm pst (PyInt n) Nitem = Ok out)
  /\ forall out,
       fill_output_hmm pst (PyInt n) Nitem = Ok out ->
       Forall (fun kd => length kd.2 = Z.to_nat n) pst
       /\ named out = ∅
       /\ (forall item r, post out !! item = Some r -> filled_from pst item r)
       /\ (forall item d, In (item, d) pst -> is_Some (post out !! item)).
Proof.
  intros Hn. destruct (linspace01_length n) as (pgrid & Hgrid & Hlen); [lia |].
  unfold fill_output_hmm. rewrite Hgrid. simpl. rewrite <- Hlen. split.
  - intros Hall. now apply fill_output_hmm_loop_total.
  - intros out Hrun.
    destruct (fill_output_hmm_loop _ _ _ _ _ Hrun)
      as (Hall & Hnamed & Hfrom & _ & Hkeys).
    split; [exact Hall |]. split; [exact Hnamed |]. split; [| exact Hkeys].
    intros item r Hr. destruct (Hfrom item r Hr) as [Hold | Hnew]; [| exact Hnew].
    simpl in Hold. rewrite lookup_empty in Hold. discriminate.
Qed.

(** ** The default grid of volatilities *)

Lemma default_grid_nu_Fin :
  default_grid_nu
  = map (fun k => Fin (1 / Rpower 2 (INR k / 2))) (seq 0 20).
Proof.
  unfold default_grid_nu. apply map_ext. intros k.
  unfold fdiv, Rzero.
  destruct (Req_dec_T (Rpower 2 (INR k / 2)) 0) as [H0 | _]; [| reflexivity].
  exfalso. unfold Rpower in H0. pose proof (exp_pos (INR k / 2 * ln 2)). lra.
Qed.

(** X22. Without ['grid_nu'] in the options, the resolution for the
    full-volatility observers returns the grid of the 20 volatilities
    [1 / 2^(k/2)], [k = 0 .. 19], and the prior [1/20] on each of them,
    whatever the options hold under ['prior_nu']. *)
Theorem parse_options_default_grid {collab : Collaborators}
    (options : gmap string pyval) :
  options !! "grid_nu" = None ->
  exists resol,
    parse_options options "hmm+full"
    = Ok (HmmFull resol
            (PyArr (map (fun k => Fin (1 / Rpower 2 (INR k / 2))) (seq 0 20)))
            (PyArr (replicate 20 (Fin (1 / 20))))).
Proof.
  intros Hgrid. unfold parse_options.
  change (String.eqb "hmm+full" "fixed_type") with false.
  change (String.eqb "hmm+full" "hmm_param") with false.
  change (String.eqb "hmm+full" "hmm+full") with true. cbv iota zeta.
  rewrite Hgrid. eexists. do 2 f_equal.
  - f_equal. apply default_grid_nu_Fin.
  - f_equal. unfold default_grid_nu. rewrite length_map, length_seq.
    rewrite uniform_Fin by lia. simpl. repeat f_equal; lra.
Qed.

Lemma H0_example_run :
  exists h, H0 (collab := example_collaborators) [([], [[Fin 1; Fin 1]])] = Ok h.
Proof.
  eexists. vm_compute. reflexivity.
Qed.

(** X19 on one context and one trial. *)
Lemma H0_sum_of_entropies_witness :
  exists h es e,
    H0 (collab := example_collaborators) [([], [[Fin 1; Fin 1]])] = Ok h
    /\ length h = 1
    /\ dirichlet_entropy (Collaborators := example_collaborators) [Fin 1; Fin 1] = Ok e
    /\ es = [e]
    /\ h !! 0 = Some (fsum es).
Proof.
  destruct H0_example_run as [h Hrun].
  destruct (H0_sum_of_entropies (collab := example_collaborators)
              [([], [[Fin 1; Fin 1]])] 1 h) as (Hlen & Hat).
  - repeat constructor.
  - exact Hrun.
  - destruct (Hat 0) as (es & Hes & Hh); [lia |].
    apply Forall2_cons_inv_l in Hes.
    destruct Hes as (e & es' & (a & Ha & He) & Hnil & ->).
    apply Forall2_nil_inv_l in Hnil. subst es'.
    simpl in Ha. injection Ha as <-.
    exists h, [e], e. auto.
Defined.

(** X20 on one context with the rows (1, 1) and (2, 1). *)
Lemma KL_requires_positive_rows_witness :
  exists b,
    KL (inject_table example_alphas) = Ok b
    /\ forallb fpos [Fin 2; Fin 1] = true.
Proof.
  destruct KL_example_run as [b Hrun]. exists b. split; [exact Hrun |].
  apply (KL_requires_positive_rows (inject_table example_alphas) b Hrun
           ([], inject [[1; 1]; [2; 1]]%R) 1).
  - now left.
  - simpl. lia.
  - reflexivity.
Defined.

(** X21 on one pattern with two grid points and two trials. *)
Lemma fill_output_hmm_shape_witness :
  (1 <= 2)%Z
  /\ exists out,
       fill_output_hmm (inject_table example_grid_posterior) (PyInt 2) 2 = Ok out
       /\ named out = ∅
       /\ is_Some (post out !! [0%Z]).
Proof.
  split; [lia |].
  destruct (fill_output_hmm_shape (inject_table example_grid_posterior) 2 2
              ltac:(lia)) as [Htotal Hshape].
  destruct Htotal as [out Hrun]; [repeat constructor |].
  exists out. split; [exact Hrun |].
  destruct (Hshape out Hrun) as (_ & Hnamed & _ & Hkeys).
  split; [exact Hnamed |].
  apply (Hkeys [0%Z] (inject [[1 / 2; 1 / 4]; [1 / 2; 3 / 4]]%R)). now left.
Defined.

(** X22 on options that give a prior and no grid. *)
Lemma parse_options_default_grid_witness :
  ({[ "prior_nu" := PyArr [Fin 1] ]} : gmap string pyval) !! "grid_nu" = None
  /\ exists resol,
       parse_options (collab := example_collaborators)
         {[ "prior_nu" := PyArr [Fin 1] ]} "hmm+full"
       = Ok (HmmFull resol
               (PyArr (map (fun k => Fin (1 / Rpower 2 (INR k / 2))) (seq 0 20)))
               (PyArr (replicate 20 (Fin (1 / 20))))).
Proof.
  split; [now apply lookup_singleton_ne |].
  apply (parse_options_default_grid (collab := example_collaborators)).
  now apply lookup_singleton_ne.
Defined.
